(** * netlify-counter: the visit-counter widget and its serverless function

    A shallow embedding of [counter-widget-optimized.js] (the browser widget:
    [CacheManager], [SessionManager], [fetchCounter], [updateCounter],
    [initCounter]) and of the Netlify function behind it ([ensureConnected],
    [executeQuery], [initTable], [exports.handler]), followed by the
    properties of the specification that were checked against them. *)

From Stdlib Require Import ZArith String Ascii List Bool Lia.
From stdpp Require Import base option list strings gmap fin_maps pretty.

Set Warnings "-register-all".
Set Warnings "-clear-no-such-hyp".
Local Open Scope string_scope.
Local Open Scope Z_scope.

(* ================================================================== *)
(** * JavaScript values *)
(* ================================================================== *)

Module Js.

(** A JavaScript string is a [string]: one [ascii] per UTF-16 code unit,
    for the code units below 256. *)

(** What [JSON.parse] returns and [JSON.stringify] accepts. Numbers are the
    integer-valued ones; an object is the list of its own properties. *)
Inductive json : Type :=
| JNull
| JBool (b : bool)
| JNum (z : Z)
| JStr (s : string)
| JArr (items : list json)
| JObj (fields : list (string * json)).

(** A value a variable can hold here: a JSON value or [undefined] ([None]). *)
Definition jsval : Type := option json.

(** The exceptions the two programs can meet; the string is [error.message]. *)
Inductive exn : Type :=
| TypeError (msg : string)
| SyntaxError (msg : string)
| SecurityError (msg : string)
| QuotaExceededError (msg : string)
| NetworkError (msg : string)
| DatabaseError (msg : string).

Definition message (e : exn) : string :=
  match e with
  | TypeError m | SyntaxError m | SecurityError m
  | QuotaExceededError m | NetworkError m | DatabaseError m => m
  end.

(** A completion: a value, or a thrown exception. *)
Inductive result (A : Type) : Type :=
| Ok (a : A)
| Throw (e : exn).
Arguments Ok {A} a.
Arguments Throw {A} e.

(** A text handed to [JSON.parse], kept as what the parser makes of it:
    [Parses j] is a text that is the JSON encoding of [j]; [NoParse s] is the
    text [s], which is not JSON (the empty text is [NoParse ""]). *)
Inductive jstext : Type :=
| Parses (j : json)
| NoParse (s : string).

Definition JSON_parse (t : jstext) : result json :=
  match t with
  | Parses j => Ok j
  | NoParse _ => Throw (SyntaxError "Unexpected token in JSON")
  end.

(** [JSON.stringify] of a JSON value: the text that parses back to it. *)
Definition JSON_stringify (j : json) : jstext := Parses j.

(** [JSON.stringify] of an object literal whose property values may be
    [undefined]: such properties are left out. *)
Definition JSON_stringify_props (props : list (string * jsval)) : jstext :=
  Parses (JObj (omap (fun kv => match snd kv with
                                | Some j => Some (fst kv, j)
                                | None => None
                                end) props)).

(** ToBoolean. *)
Definition truthy (j : json) : bool :=
  match j with
  | JNull => false
  | JBool b => b
  | JNum z => negb (z =? 0)
  | JStr s => negb (String.eqb s "")
  | JArr _ | JObj _ => true
  end.

Definition truthy_val (v : jsval) : bool :=
  match v with Some j => truthy j | None => false end.

(** A text is falsy exactly when it is empty. *)
Definition text_truthy (t : jstext) : bool :=
  match t with
  | Parses _ => true
  | NoParse s => negb (String.eqb s "")
  end.

(** Own property of a parsed object. *)
Fixpoint assoc {A : Type} (k : string) (l : list (string * A)) : option A :=
  match l with
  | [] => None
  | (k', v) :: l' => if String.eqb k k' then Some v else assoc k l'
  end.

Fixpoint assoc_set {A : Type} (k : string) (v : A) (l : list (string * A))
  : list (string * A) :=
  match l with
  | [] => [(k, v)]
  | (k', v') :: l' =>
      if String.eqb k k' then (k, v) :: l' else (k', v') :: assoc_set k v l'
  end.

(** [o.k] for a property name [k] that no prototype defines (such as
    [counterName], [action], [data], [timestamp], [count]): a [TypeError] on
    [null], the own property of an object, [undefined] on anything else. *)
Definition get_prop (o : json) (k : string) : result jsval :=
  match o with
  | JNull => Throw (TypeError "Cannot read properties of null")
  | JObj fields => Ok (assoc k fields)
  | _ => Ok None
  end.

(** White space and line terminators, among the code units below 256. *)
Definition is_space (c : ascii) : bool :=
  let n := nat_of_ascii c in
  ((9 <=? n) && (n <=? 13))%nat || (n =? 32)%nat || (n =? 160)%nat.

Fixpoint trim_start (s : string) : string :=
  match s with
  | String c s' => if is_space c then trim_start s' else s
  | EmptyString => EmptyString
  end.

Fixpoint trim_end (s : string) : string :=
  match s with
  | String c s' =>
      match trim_end s' with
      | EmptyString => if is_space c then EmptyString else String c EmptyString
      | t => String c t
      end
  | EmptyString => EmptyString
  end.

(** A string that does not begin with white space. *)
Definition starts_clean (s : string) : Prop :=
  match s with String c _ => is_space c = false | EmptyString => True end.

(** [String.prototype.trim]. *)
Definition trim (s : string) : string := trim_end (trim_start s).

Definition lower_char (c : ascii) : ascii :=
  let n := nat_of_ascii c in
  if ((65 <=? n) && (n <=? 90))%nat
     || ((192 <=? n) && (n <=? 222) && negb (n =? 215))%nat
  then ascii_of_nat (n + 32) else c.

(** [String.prototype.toLowerCase]. *)
Fixpoint toLowerCase (s : string) : string :=
  match s with
  | String c s' => String (lower_char c) (toLowerCase s')
  | EmptyString => EmptyString
  end.

End Js.
Export Js.

(* ================================================================== *)
(** * The Netlify function: [counter.js] *)
(* ================================================================== *)

Module Server.

(** ** The [counters] table *)

(** A row of [counters]. [id] and [count] are INTEGER columns: the
    statements keep them at [INT_MAX] at most; a TIMESTAMP is the text
    the driver's [Date] serialises to. *)
Record Row : Type := mkRow {
  row_id : Z;
  row_name : string;
  row_count : Z;
  row_created_at : string;
  row_updated_at : string
}.

(** The database. [db_fault = Some msg]: the store is unreachable and every
    call of the driver fails with [msg]. [counters = None]: the table does not
    exist; otherwise its rows by [name] (the UNIQUE column). [counters_seq] is
    the sequence of the SERIAL column, [db_now] is CURRENT_TIMESTAMP. *)
Record Database : Type := mkDb {
  db_fault : option string;
  counters : option (gmap string Row);
  counters_seq : Z;
  db_now : string
}.

Definition with_table (t : gmap string Row) (d : Database) : Database :=
  mkDb (db_fault d) (Some t) (counters_seq d) (db_now d).

Definition with_table_seq (t : gmap string Row) (d : Database) : Database :=
  mkDb (db_fault d) (Some t) (counters_seq d + 1) (db_now d).

(** What the function sends to the driver: [client.connect()] and the
    statements that occur in the source. *)
Inductive Stmt : Type :=
| Connect
| SelectOne                       (* SELECT 1 *)
| CreateTable                     (* CREATE TABLE IF NOT EXISTS counters ... *)
| CreateIndex                     (* CREATE INDEX IF NOT EXISTS idx_counters_name ... *)
| SelectByName (n : string)       (* SELECT ... WHERE name = $1 LIMIT 1 *)
| InsertZero (n : string)         (* INSERT ... VALUES ($1, 0) ON CONFLICT (name) DO UPDATE SET updated_at = ... RETURNING ... *)
| UpdateIncrement (n : string)    (* UPDATE ... SET count = count + 1, updated_at = ... WHERE name = $1 RETURNING ... *)
| InsertOne (n : string)          (* INSERT ... VALUES ($1, 1) ON CONFLICT (name) DO UPDATE SET count = counters.count + 1, ... RETURNING ... *)
| UpdateReset (n : string).       (* UPDATE ... SET count = 0, updated_at = ... WHERE name = $1 RETURNING ... *)

(** The largest value of an INTEGER column, which [count] and the SERIAL
    [id] are. *)
Definition INT_MAX : Z := 2147483647.

(** The errors of the driver and of the database the function can meet. *)
Definition no_table : exn := DatabaseError "relation 'counters' does not exist".
Definition out_of_range : exn := DatabaseError "integer out of range".
Definition sequence_exhausted : exn :=
  DatabaseError "nextval: reached maximum value of sequence 'counters_id_seq' (2147483647)".
Definition duplicate_key : exn :=
  DatabaseError "duplicate key value violates unique constraint 'counters_pkey'".
Definition client_reused : exn :=
  DatabaseError "Client has already been connected. You cannot reuse a client.".

(** A statement that reads or writes the rows: it fails when the table does
    not exist. *)
Definition on_table (d : Database)
    (f : gmap string Row -> result (list Row) * Database)
  : result (list Row) * Database :=
  match counters d with
  | Some t => f t
  | None => (Throw no_table, d)
  end.

Definition touch (now : string) (r : Row) : Row :=
  mkRow (row_id r) (row_name r) (row_count r) (row_created_at r) now.

Definition bumped (now : string) (r : Row) : Row :=
  mkRow (row_id r) (row_name r) (row_count r + 1) (row_created_at r) now.

(** [SET count = count + 1] in an INTEGER column: out of range past
    [INT_MAX]. *)
Definition bump (now : string) (r : Row) : option Row :=
  if INT_MAX <=? row_count r then None else Some (bumped now r).

Definition zero (now : string) (r : Row) : Row :=
  mkRow (row_id r) (row_name r) 0 (row_created_at r) now.

(** Is [i] the [id] (the primary key) of a row of the table? *)
Definition id_taken (t : gmap string Row) (i : Z) : bool :=
  existsb (fun kr => row_id kr.2 =? i) (map_to_list t).

(** [INSERT INTO counters (name, count) VALUES (n, c) ON CONFLICT (name) DO
    UPDATE SET ... RETURNING ...]. The [id] of the proposed row is drawn from
    the sequence first, which fails once the sequence has passed [INT_MAX];
    a value that was drawn is not given back, whatever happens next. When a
    row of that name exists it is updated by [on_conflict] ([None]: the
    update is out of range); otherwise the proposed row is inserted, unless
    its [id] is that of another row already. *)
Definition upsert (n : string) (c : Z) (on_conflict : Row -> option Row)
    (d : Database) (t : gmap string Row) : result (list Row) * Database :=
  if INT_MAX <? counters_seq d then (Throw sequence_exhausted, d)
  else
    match t !! n with
    | Some r =>
        match on_conflict r with
        | Some r' => (Ok [r'], with_table_seq (<[n := r']> t) d)
        | None => (Throw out_of_range, with_table_seq t d)
        end
    | None =>
        if id_taken t (counters_seq d)
        then (Throw duplicate_key, with_table_seq t d)
        else
          let r := mkRow (counters_seq d) n c (db_now d) (db_now d) in
          (Ok [r], with_table_seq (<[n := r]> t) d)
    end.

(** One statement, executed atomically by the database. [Connect] here is
    the connection to the server being made; what the driver does with a
    client that was connected before is in [connect] below. *)
Definition exec_stmt (s : Stmt) (d : Database) : result (list Row) * Database :=
  match db_fault d with
  | Some msg => (Throw (DatabaseError msg), d)
  | None =>
    match s with
    | Connect | SelectOne => (Ok [], d)
    | CreateTable =>
        match counters d with
        | Some _ => (Ok [], d)
        | None => (Ok [], with_table ∅ d)
        end
    | CreateIndex => on_table d (fun _ => (Ok [], d))
    | SelectByName n =>
        on_table d (fun t => (Ok (option_list (t !! n)), d))
    | InsertZero n =>
        on_table d (upsert n 0 (fun r => Some (touch (db_now d) r)) d)
    | UpdateIncrement n =>
        on_table d (fun t =>
          match t !! n with
          | Some r =>
              match bump (db_now d) r with
              | Some r' => (Ok [r'], with_table (<[n := r']> t) d)
              | None => (Throw out_of_range, d)
              end
          | None => (Ok [], d)
          end)
    | InsertOne n =>
        on_table d (upsert n 1 (bump (db_now d)) d)
    | UpdateReset n =>
        on_table d (fun t =>
          match t !! n with
          | Some r => let r' := zero (db_now d) r in
                      (Ok [r'], with_table (<[n := r']> t) d)
          | None => (Ok [], d)
          end)
    end
  end.

(** ** Code that awaits the database *)

(** A computation that talks to the database: it returns, or sends one
    statement and goes on with the driver's answer. Each [Do] is a point
    where the function is suspended and other requests may run. *)
Inductive prog (A : Type) : Type :=
| Ret (a : A)
| Do (s : Stmt) (k : result (list Row) -> prog A).
Arguments Ret {A} a.
Arguments Do {A} s k.

(** The run of one computation with nothing in between. *)
Fixpoint run {A : Type} (p : prog A) (d : Database) : A * Database :=
  match p with
  | Ret a => (a, d)
  | Do s k => let '(r, d') := exec_stmt s d in run (k r) d'
  end.

(** The module-level variables of the function, one copy per process:
    [client] (is it non-null), [connected], and whether [TABLE_INIT_CACHE]
    has the key ['counters_table']. *)
Record Process : Type := mkProcess {
  client : bool;
  connected : bool;
  TABLE_INIT_CACHE : bool
}.

Definition set_client (b : bool) (p : Process) : Process :=
  mkProcess b (connected p) (TABLE_INIT_CACHE p).
Definition set_connected (b : bool) (p : Process) : Process :=
  mkProcess (client p) b (TABLE_INIT_CACHE p).
Definition set_table_init (b : bool) (p : Process) : Process :=
  mkProcess (client p) (connected p) b.

(** An [async] function of the module: it reads and writes the process's
    variables, awaits the database, and returns or throws. *)
Definition H (A : Type) : Type := Process -> prog (result A * Process).

Definition ret {A} (a : A) : H A := fun p => Ret (Ok a, p).
Definition throw {A} (e : exn) : H A := fun p => Ret (Throw e, p).

Fixpoint bind_prog {A B} (m : prog A) (f : A -> prog B) : prog B :=
  match m with
  | Ret a => f a
  | Do s k => Do s (fun r => bind_prog (k r) f)
  end.

Definition bind {A B} (m : H A) (f : A -> H B) : H B :=
  fun p => bind_prog (m p) (fun '(r, p') =>
    match r with
    | Ok a => f a p'
    | Throw e => Ret (Throw e, p')
    end).

(** [try { m } catch (e) { h e }]. *)
Definition try_catch {A} (m : H A) (h : exn -> H A) : H A :=
  fun p => bind_prog (m p) (fun '(r, p') =>
    match r with
    | Ok a => Ret (Ok a, p')
    | Throw e => h e p'
    end).

Definition get_process : H Process := fun p => Ret (Ok p, p).
Definition modify (f : Process -> Process) : H unit := fun p => Ret (Ok tt, f p).

(** [await client.query(...)] and [await client.connect()]. *)
Definition driver (s : Stmt) : H (list Row) := fun p => Do s (fun r => Ret (r, p)).

#[export] Instance H_ret : MRet H := @ret.
#[export] Instance H_bind : MBind H := fun A B f m => bind m f.

(** ** The functions of [counter.js] *)

Definition lift {A} (r : result A) : H A := fun p => Ret (r, p).

(** [await client.connect()]. A [pg] client connects once: a second call of
    [connect()] on it is refused by the driver, whatever became of the first
    one and without going to the server. [used] says that the call is not
    the first one on this client. *)
Definition connect (used : bool) : H unit :=
  fun p => Do Connect (fun r =>
    Ret (if used then Throw client_reused
         else match r with Ok _ => Ok tt | Throw e => Throw e end, p)).

(** [ensureConnected]: a live connection is probed with [SELECT 1]; when
    the probe fails, or there is no connection yet, the client is created if
    need be and connected. The function calls [connect()] on a client right
    after creating it, so a client that is there when the function is
    entered has been connected before. *)
Definition ensureConnected : H unit :=
  p ← get_process;
  alive ← (if connected p && client p
           then try_catch (driver SelectOne;; mret true)
                          (fun _ => modify (set_connected false);; mret false)
           else mret false);
  if (alive : bool) then mret tt
  else
    p ← get_process;
    (if client p then mret tt else modify (set_client true));;
    try_catch (connect (client p);; modify (set_connected true))
              (fun err => throw err).

(** [executeQuery]: the slow-query warning and the error log are console
    output only. *)
Definition executeQuery (q : Stmt) : H (list Row) :=
  ensureConnected;;
  try_catch (driver q) (fun err => throw err).

(** [initTable]: once per process, whether or not it worked. *)
Definition initTable : H unit :=
  p ← get_process;
  if TABLE_INIT_CACHE p then mret tt
  else
    try_catch
      (executeQuery CreateTable;;
       executeQuery CreateIndex;;
       modify (set_table_init true))
      (fun _ => modify (set_table_init true)).

(** The [event] a request arrives as. [None] is a property that is not
    there ([undefined]), for which the destructuring defaults apply. *)
Record Event : Type := mkEvent {
  httpMethod : string;
  queryStringParameters : option (list (string * string));
  body : option jstext
}.

Record Response : Type := mkResponse {
  statusCode : Z;
  resp_headers : list (string * string);
  resp_body : option jstext
}.

Definition headers : list (string * string) :=
  [ ("Content-Type", "application/json; charset=utf-8");
    ("Access-Control-Allow-Origin", "*");
    ("Access-Control-Allow-Methods", "GET, POST, OPTIONS");
    ("Access-Control-Allow-Headers", "Content-Type");
    ("Cache-Control", "public, max-age=60");
    ("X-Content-Type-Options", "nosniff") ].

Definition respond (status : Z) (b : json) : Response :=
  mkResponse status headers (Some (JSON_stringify b)).

Definition error_body (msg : string) : json := JObj [("error", JStr msg)].

(** [JSON.stringify] of a row the driver returned. *)
Definition row_json (r : Row) : json :=
  JObj [ ("id", JNum (row_id r));
         ("name", JStr (row_name r));
         ("count", JNum (row_count r));
         ("created_at", JStr (row_created_at r));
         ("updated_at", JStr (row_updated_at r)) ].

(** [JSON.stringify(rows[0])]: no body when there is no row. *)
Definition first_row_response (rows : list Row) : Response :=
  mkResponse 200 headers (JSON_stringify ∘ row_json <$> head rows).

(** The query string as the object [queryStringParameters] is. *)
Definition query_object (q : list (string * string)) : json :=
  JObj (prod_map id JStr <$> q).

(** [v || d] for a string literal [d]. *)
Definition or_string (v : jsval) (d : string) : json :=
  match v with
  | Some j => if truthy j then j else JStr d
  | None => JStr d
  end.

(** [x.trim()]: only a string has the method. *)
Definition call_trim (x : json) : result string :=
  match x with
  | JStr s => Ok (trim s)
  | _ => Throw (TypeError "(intermediate value).trim is not a function")
  end.

(** [(params.counterName || 'default').trim()]. *)
Definition counterName_of (params : json) : result string :=
  match get_prop params "counterName" with
  | Ok v => call_trim (or_string v "default")
  | Throw e => Throw e
  end.

(** [(params.action || 'get').trim().toLowerCase()]. *)
Definition action_of (params : json) : result string :=
  match get_prop params "action" with
  | Ok v => match call_trim (or_string v "get") with
            | Ok s => Ok (toLowerCase s)
            | Throw e => Throw e
            end
  | Throw e => Throw e
  end.

(** The parameters of the request: the parsed body of a POST (an empty or
    missing body counts as ['{}']), the query string of anything else.
    [inl] is the early 400 for a body that is not JSON. *)
Definition parse_params (ev : Event) : Response + json :=
  if String.eqb (httpMethod ev) "POST" then
    let text := match body ev with
                | Some t => if text_truthy t then t else Parses (JObj [])
                | None => Parses (JObj [])
                end in
    match JSON_parse text with
    | Ok j => inr j
    | Throw _ => inl (respond 400 (error_body "请求体格式错误"))
    end
  else inr (query_object (default [] (queryStringParameters ev))).

(** [!counterName || counterName.length > 100]. *)
Definition invalid_name (counterName : string) : bool :=
  String.eqb counterName "" || (100 <? Z.of_nat (String.length counterName)).

Definition handle_get (counterName : string) : H Response :=
  result ← executeQuery (SelectByName counterName);
  match result with
  | r :: _ => mret (respond 200 (row_json r))
  | [] =>
      newResult ← executeQuery (InsertZero counterName);
      mret (first_row_response newResult)
  end.

Definition handle_increment (counterName : string) : H Response :=
  result ← executeQuery (UpdateIncrement counterName);
  match result with
  | r :: _ => mret (respond 200 (row_json r))
  | [] =>
      newResult ← executeQuery (InsertOne counterName);
      mret (first_row_response newResult)
  end.

Definition handle_reset (counterName : string) : H Response :=
  result ← executeQuery (UpdateReset counterName);
  mret (respond 200
          match result with
          | r :: _ => row_json r
          | [] => JObj [("name", JStr counterName); ("count", JNum 0)]
          end).

Definition server_error (error : exn) : Response :=
  respond 500
    (JObj [ ("error", JStr "服务器错误");
            ("message", JStr (if String.eqb (message error) ""
                              then "Unknown error" else message error)) ]).

(** [exports.handler]. *)
Definition handler (event : Event) : H Response :=
  try_catch
    (if String.eqb (httpMethod event) "OPTIONS"
     then mret (mkResponse 200 headers None)
     else
       initTable;;
       match parse_params event with
       | inl bad_body => mret bad_body
       | inr params =>
           counterName ← lift (counterName_of params);
           action ← lift (action_of params);
           if invalid_name counterName then
             mret (respond 400 (error_body "无效的 counterName (1-100字符)"))
           else if String.eqb (httpMethod event) "GET" then
             handle_get counterName
           else if String.eqb (httpMethod event) "POST" then
             if String.eqb action "increment" then handle_increment counterName
             else if String.eqb action "reset" then handle_reset counterName
             else mret (respond 400
                          (error_body "无效的 action，支持：increment, reset"))
           else mret (respond 405 (error_body "方法不允许"))
       end)
    (fun error => mret (server_error error)).

(** One request served from start to end by a process, alone on the
    database. The handler itself never throws. *)
Definition serve (event : Event) (p : Process) (d : Database)
  : result Response * Process * Database :=
  run (handler event p) d.

(** ** Requests in flight at the same time *)

(** The requests being served, each in a process of its own, as what is left
    of their handlers. A step runs one statement of one of them. *)
Definition Pool : Type := list (prog (result Response * Process)).

Definition step_thread {A} (t : prog A) (d : Database) : prog A * Database :=
  match t with
  | Ret a => (Ret a, d)
  | Do s k => let '(r, d') := exec_stmt s d in (k r, d')
  end.

(** [step i]: the [i]-th request runs up to its next suspension point. *)
Definition step (i : nat) (pool : Pool) (d : Database) : Pool * Database :=
  match pool !! i with
  | Some t => let '(t', d') := step_thread t d in (<[i := t']> pool, d')
  | None => (pool, d)
  end.

(** A schedule: which request moves next, step after step. *)
Fixpoint interleave (schedule : list nat) (pool : Pool) (d : Database)
  : Pool * Database :=
  match schedule with
  | [] => (pool, d)
  | i :: rest => let '(pool', d') := step i pool d in interleave rest pool' d'
  end.

Definition finished {A} (t : prog A) : bool :=
  match t with Ret _ => true | Do _ _ => false end.

Definition all_finished (pool : Pool) : bool := forallb finished pool.

Definition count_of (d : Database) (n : string) : option Z :=
  t ← counters d; row_count <$> t !! n.


(** ** Notions used in the statements *)

(** A process that can get a connection: it has no client yet, or its
    client is connected. (A client that was connected and is not any more
    cannot be connected again, and the function makes no other.) *)
Definition usable (p : Process) : Prop :=
  client p = false ∨ connected p = true.

(** The store can be reached by the process, and the table is there or the
    process has yet to create it. *)
Definition ready (p : Process) (d : Database) : Prop :=
  db_fault d = None
  ∧ (TABLE_INIT_CACHE p = false ∨ is_Some (counters d))
  ∧ usable p.

(** The rows, none when there is no table. *)
Definition rows_of (d : Database) : gmap string Row := default ∅ (counters d).

(** The database once [CREATE TABLE IF NOT EXISTS] has run. *)
Definition ensure_table (d : Database) : Database :=
  match counters d with Some _ => d | None => with_table ∅ d end.

(** A process once it has run a query with success, and once it has also
    gone through [initTable]. *)
Definition online (p : Process) : Process := mkProcess true true (TABLE_INIT_CACHE p).
Definition warm : Process := mkProcess true true true.

(** The row an INSERT creates. *)
Definition fresh_row (d : Database) (n : string) (c : Z) : Row :=
  mkRow (counters_seq d) n c (db_now d) (db_now d).

(** A row can be inserted: the sequence has a value left, and that value is
    not the [id] of a row. *)
Definition can_insert (d : Database) : Prop :=
  counters_seq d ≤ INT_MAX ∧ id_taken (rows_of d) (counters_seq d) = false.

(** The rows got their [id]s from the sequence: they are below its next
    value. *)
Definition ids_drawn (d : Database) : Prop :=
  ∀ n r, rows_of d !! n = Some r → row_id r < counters_seq d.

(** The count of [n] can be incremented: the row is there with a count
    below [INT_MAX], or it is not and can be inserted. *)
Definition can_increment (d : Database) (n : string) : Prop :=
  match rows_of d !! n with
  | Some r => row_count r < INT_MAX
  | None => can_insert d
  end.

(** The count under a name, 0 when there is no such row. *)
Definition count_or_0 (d : Database) (n : string) : Z :=
  default 0 (row_count <$> rows_of d !! n).

Definition get_event (q : list (string * string)) : Event :=
  mkEvent "GET" (Some q) None.
Definition post_event (b : json) : Event :=
  mkEvent "POST" None (Some (JSON_stringify b)).
Definition increment_event (n : string) : Event :=
  post_event (JObj [("action", JStr "increment"); ("counterName", JStr n)]).

(** What is left of the handler once the table is there and the parameters
    are read. *)
Definition dispatch (method name action : string) : H Response :=
  try_catch
    (if invalid_name name then
       mret (respond 400 (error_body "无效的 counterName (1-100字符)"))
     else if String.eqb method "GET" then handle_get name
     else if String.eqb method "POST" then
       if String.eqb action "increment" then handle_increment name
       else if String.eqb action "reset" then handle_reset name
       else mret (respond 400 (error_body "无效的 action，支持：increment, reset"))
     else mret (respond 405 (error_body "方法不允许")))
    (fun error => mret (server_error error)).

(** A database on which any interleaving of requests finds the table, the
    rows having got their [id]s from the sequence. *)
Definition steady (d : Database) : Prop :=
  db_fault d = None ∧ is_Some (counters d) ∧ ids_drawn d.

(** [tracks n b j s t Q]: whatever the other requests do in between, on a
    steady database that has room, whenever [t] is about to send a statement,
    for what [t] is still to add to the count of [n] and for the [id]s it may
    still draw, the computation [t] ends within [b] statements of its own and
    keeps the database steady. [j] is what it may add to the count of [n] and
    [s] the number of [id]s it may draw; it ends with a result [a] such that
    [Q a j' s'], where [j'] and [s'] are what is left of [j] and [s]. *)
Fixpoint tracks {A} (n : string) (b : nat) (j s : Z) (t : prog A)
    (Q : A -> Z -> Z -> Prop) {struct t} : Prop :=
  match t with
  | Ret a => Q a j s
  | Do st k =>
      match b with
      | O => False
      | S b' =>
          0 ≤ j ∧ 0 ≤ s ∧
          ∀ d, steady d →
               count_or_0 d n + j ≤ INT_MAX →
               counters_seq d + s ≤ INT_MAX + 1 →
            steady (exec_stmt st d).2 ∧
            tracks n b' (j - (count_or_0 (exec_stmt st d).2 n - count_or_0 d n))
                        (s - (counters_seq (exec_stmt st d).2 - counters_seq d))
                        (k (exec_stmt st d).1) Q
      end
  end.

(** An answer with status 200. *)
Definition ok_200 (x : result Response * Process) : Prop :=
  ∃ resp, fst x = Ok resp ∧ statusCode resp = 200.

(** A request that is still to add [j] to the count of [n], drawing at most
    [s] ids, within [b] statements, and to be answered 200. *)
Definition owes (n : string) (t : prog (result Response * Process))
    (jsb : Z * Z * nat) : Prop :=
  tracks n jsb.2 jsb.1.1 jsb.1.2 t (fun x j s => j = 0 ∧ 0 ≤ s ∧ ok_200 x).

Definition answered_200 (t : prog (result Response * Process)) : Prop :=
  ∃ x, t = Ret x ∧ ok_200 x.

(** How often a request is given a step by a schedule. *)
Definition occurrences (i : nat) (schedule : list nat) : nat :=
  length (filter (fun k => k = i) schedule).

(** The statements a request still has, at most, according to a list of
    what the requests owe. *)
Definition budget (k : nat) (jbs : list (Z * Z * nat)) : nat :=
  default 0%nat (snd <$> jbs !! k).

(** The sum of a list of integers. *)
Definition sumZ (l : list Z) : Z := foldr Z.add 0 l.

(** ** Notions that do not depend on what the driver answers *)

(** [always Q t]: whatever the driver answers to each statement, the
    computation [t] ends with a result that satisfies [Q]. *)
Fixpoint always {A} (Q : A -> Prop) (t : prog A) : Prop :=
  match t with
  | Ret a => Q a
  | Do s k => ∀ r, always Q (k r)
  end.

(** [sends P t]: whatever the driver answers, every statement that [t]
    sends satisfies [P]. *)
Fixpoint sends {A} (P : Stmt -> Prop) (t : prog A) : Prop :=
  match t with
  | Ret _ => True
  | Do s k => P s ∧ ∀ r, sends P (k r)
  end.

(** The statuses the handler answers with. *)
Definition known_status (z : Z) : Prop := z = 200 ∨ z = 400 ∨ z = 405 ∨ z = 500.

(** A response of the handler: one of its statuses, under its headers. *)
Definition well_formed_response (x : result Response * Process) : Prop :=
  ∃ resp, fst x = Ok resp ∧ resp_headers resp = headers
          ∧ known_status (statusCode resp).

(** The counter a request is about, when its parameters can be read. *)
Definition target (ev : Event) : option string :=
  match parse_params ev with
  | inr params =>
      match counterName_of params with
      | Ok n => Some n
      | Throw _ => None
      end
  | inl _ => None
  end.

(** The action of a request, when it can be read. *)
Definition requested_action (ev : Event) : option string :=
  match parse_params ev with
  | inr params =>
      match action_of params with
      | Ok a => Some a
      | Throw _ => None
      end
  | inl _ => None
  end.

(** A statement that names no row, or only the row of [n]. *)
Definition about (n : option string) (s : Stmt) : Prop :=
  match s with
  | Connect | SelectOne | CreateTable | CreateIndex => True
  | SelectByName m | InsertZero m | UpdateIncrement m | InsertOne m
  | UpdateReset m => n = Some m
  end.

(** A statement that is not one of the two of [initTable]. *)
Definition no_ddl (s : Stmt) : Prop :=
  match s with
  | CreateTable | CreateIndex => False
  | _ => True
  end.

(** A statement that does not write a count other than the 0 of a new
    row. *)
Definition keeps_counts (s : Stmt) : Prop :=
  match s with
  | UpdateIncrement _ | InsertOne _ | UpdateReset _ => False
  | _ => True
  end.

(** A statement that is not the reset. *)
Definition no_reset (s : Stmt) : Prop :=
  match s with
  | UpdateReset _ => False
  | _ => True
  end.

(** Every row is stored under its own name and has a count that is not
    negative. *)
Definition table_ok (d : Database) : Prop :=
  ∀ n r, rows_of d !! n = Some r → row_name r = n ∧ 0 ≤ row_count r.

Definition put_event (q : list (string * string)) : Event :=
  mkEvent "PUT" (Some q) None.

(** A response of the handler, from a process that has gone through
    [initTable]. *)
Definition settled (x : result Response * Process) : Prop :=
  well_formed_response x ∧ TABLE_INIT_CACHE x.2 = true.

(** An answer with a given status. *)
Definition answers (status : Z) (x : result Response * Process) : Prop :=
  ∃ resp, fst x = Ok resp ∧ statusCode resp = status.

(** The statements a computation sends when it runs alone on a database,
    in the order it sends them. *)
Fixpoint statements {A : Type} (t : prog A) (d : Database) : list Stmt :=
  match t with
  | Ret _ => []
  | Do s k => s :: statements (k (exec_stmt s d).1) (exec_stmt s d).2
  end.

(** The requests in flight, each with the process that serves it, at the
    moment their handlers are called. *)
Definition in_flight (reqs : list (Event * Process)) : Pool :=
  (fun x => handler x.1 x.2) <$> reqs.

End Server.

(* ================================================================== *)
(** * The widget: [counter-widget-optimized.js] *)
(* ================================================================== *)

Module Widget.

Definition CACHE_KEY : string := "netlify_counter_cache".
Definition SESSION_KEY : string := "netlify_counter_session".
Definition CACHE_DURATION : Z := 5 * 60 * 1000.

(** ** Web Storage *)

(** A storage area ([localStorage] or [sessionStorage]). [denied]: the
    browser refuses access to it, every use raises a SecurityError. [full]:
    the quota is used up, [setItem] raises a QuotaExceededError. *)
Record Storage : Type := mkStorage {
  items : gmap string jstext;
  denied : bool;
  full : bool
}.

Definition access_denied : exn := SecurityError "The operation is insecure".
Definition quota_exceeded : exn := QuotaExceededError "The quota has been exceeded".

Definition getItem (k : string) (st : Storage) : result (option jstext) :=
  if denied st then Throw access_denied else Ok (items st !! k).

Definition setItem (k : string) (v : jstext) (st : Storage) : result unit * Storage :=
  if denied st then (Throw access_denied, st)
  else if full st then (Throw quota_exceeded, st)
  else (Ok tt, mkStorage (<[k := v]> (items st)) (denied st) (full st)).

Definition removeItem (k : string) (st : Storage) : result unit * Storage :=
  if denied st then (Throw access_denied, st)
  else (Ok tt, mkStorage (delete k (items st)) (denied st) (full st)).

(** ** The page *)

(** What the element [#netlify-counter] shows. [Counted c] is the markup
    with the [<span id="netlify-counter-number">] inside, [c] being the value
    written into the span. *)
Inductive View : Type :=
| Blank
| Loading            (* '👁️ 加载中...' *)
| Fallback           (* '👁️ 计数: -' *)
| Counted (c : jsval).

(** The part of the document the widget touches: is there an element
    [#netlify-counter], and what it shows. *)
Record Dom : Type := mkDom {
  has_container : bool;
  view : View
}.

(** A request as [fetch] sends it. The counter name travels in the query
    string (percent-encoded and decoded on the way) or in the JSON body. *)
Record Request : Type := mkRequest {
  req_method : string;
  req_query : list (string * string);
  req_body : option jstext
}.

(** What comes back: the promise of [fetch] rejects, or it resolves to a
    response with a status and a body text, whatever the status. *)
Inductive Reply : Type :=
| NetFail (msg : string)
| NetReply (status : Z) (text : option jstext).

(** The browser tab: both storage areas, the clock of [Date.now()], the
    document, the pending [setTimeout] callbacks (each is the auto-increment
    of a counter name, with the time it is due) and the requests sent so
    far. *)
Record Browser : Type := mkBrowser {
  localStorage : Storage;
  sessionStorage : Storage;
  clock : Z;
  dom : Dom;
  timers : list (Z * string);
  sent : list Request
}.

Definition set_local (st : Storage) (b : Browser) : Browser :=
  mkBrowser st (sessionStorage b) (clock b) (dom b) (timers b) (sent b).
Definition set_session (st : Storage) (b : Browser) : Browser :=
  mkBrowser (localStorage b) st (clock b) (dom b) (timers b) (sent b).
Definition set_dom (d : Dom) (b : Browser) : Browser :=
  mkBrowser (localStorage b) (sessionStorage b) (clock b) d (timers b) (sent b).
Definition set_view (v : View) (b : Browser) : Browser :=
  set_dom (mkDom (has_container (dom b)) v) b.
Definition add_timer (delay : Z) (name : string) (b : Browser) : Browser :=
  mkBrowser (localStorage b) (sessionStorage b) (clock b) (dom b)
            (timers b ++ [(clock b + delay, name)]) (sent b).
Definition set_timers (ts : list (Z * string)) (b : Browser) : Browser :=
  mkBrowser (localStorage b) (sessionStorage b) (clock b) (dom b) ts (sent b).
Definition advance (dt : Z) (b : Browser) : Browser :=
  mkBrowser (localStorage b) (sessionStorage b) (clock b + dt) (dom b)
            (timers b) (sent b).
Definition after_request (req : Request) (elapsed : Z) (b : Browser) : Browser :=
  mkBrowser (localStorage b) (sessionStorage b) (clock b + elapsed) (dom b)
            (timers b) (sent b ++ [req]).

(** [page] of the script's query string, else the path with its slashes
    turned into dashes, else ['home']; the counter is [page_<that>]. *)
Fixpoint dashes (s : string) : string :=
  match s with
  | String c s' => String (if Ascii.eqb c "/"%char then "-"%char else c) (dashes s')
  | EmptyString => EmptyString
  end.

Definition or_else (a b : string) : string :=
  if String.eqb a "" then b else a.

Definition pageName (page : option string) (pathname : string) : string :=
  or_else (or_else (default "" page) (dashes pathname)) "home".

Definition counterName (page : option string) (pathname : string) : string :=
  "page_" ++ pageName page pathname.

Section Client.

(** The service behind [API_BASE], seen from the tab: a state of type
    [Srv], and what a request does to it, what reply it gets and how long
    that takes on the tab's clock. *)
Variable Srv : Type.
Variable net : Request -> Srv -> Reply * Z * Srv.

(** ToNumber of a string, an array or an object, which JavaScript computes
    from their text ([None] is NaN). *)
Variable text_number : json -> option Z.

Record World : Type := mkWorld {
  browser : Browser;
  server : Srv
}.

(** A function of the widget: it changes the tab and the service, and
    returns or throws. *)
Definition C (A : Type) : Type := World -> result A * World.

Definition cret {A} (a : A) : C A := fun w => (Ok a, w).
Definition cthrow {A} (e : exn) : C A := fun w => (Throw e, w).
Definition cbind {A B} (m : C A) (f : A -> C B) : C B :=
  fun w => match m w with
           | (Ok a, w') => f a w'
           | (Throw e, w') => (Throw e, w')
           end.
Definition ctry {A} (m : C A) (h : exn -> C A) : C A :=
  fun w => match m w with
           | (Ok a, w') => (Ok a, w')
           | (Throw e, w') => h e w'
           end.

#[local] Instance C_ret : MRet C := @cret.
#[local] Instance C_bind : MBind C := fun A B f m => cbind m f.

Definition lift_result {A} (r : result A) : C A := fun w => (r, w).
Definition get_browser : C Browser := fun w => (Ok (browser w), w).
Definition update_browser (f : Browser -> Browser) : C unit :=
  fun w => (Ok tt, mkWorld (f (browser w)) (server w)).

Definition local_getItem (k : string) : C (option jstext) :=
  fun w => (getItem k (localStorage (browser w)), w).
Definition local_setItem (k : string) (v : jstext) : C unit :=
  fun w => let '(r, st) := setItem k v (localStorage (browser w)) in
           (r, mkWorld (set_local st (browser w)) (server w)).
Definition local_removeItem (k : string) : C unit :=
  fun w => let '(r, st) := removeItem k (localStorage (browser w)) in
           (r, mkWorld (set_local st (browser w)) (server w)).
Definition session_getItem (k : string) : C (option jstext) :=
  fun w => (getItem k (sessionStorage (browser w)), w).
Definition session_setItem (k : string) (v : jstext) : C unit :=
  fun w => let '(r, st) := setItem k v (sessionStorage (browser w)) in
           (r, mkWorld (set_session st (browser w)) (server w)).

Definition Date_now : C Z := fun w => (Ok (clock (browser w)), w).

(** [await fetch(...)]. *)
Definition fetch (req : Request) : C (Z * option jstext) :=
  fun w =>
    let '(reply, elapsed, srv) := net req (server w) in
    let w' := mkWorld (after_request req elapsed (browser w)) srv in
    match reply with
    | NetFail msg => (Throw (NetworkError msg), w')
    | NetReply status text => (Ok (status, text), w')
    end.

(** [await res.json()]. *)
Definition res_json (res : Z * option jstext) : C json :=
  match snd res with
  | Some t => lift_result (JSON_parse t)
  | None => cthrow (SyntaxError "Unexpected end of JSON input")
  end.

(** ToNumber. *)
Definition ToNumber (v : jsval) : option Z :=
  match v with
  | None => None
  | Some JNull => Some 0
  | Some (JBool b) => Some (if b then 1 else 0)
  | Some (JNum z) => Some z
  | Some j => text_number j
  end.

(** [now - timestamp > CACHE_DURATION]; a comparison with NaN is false. *)
Definition isExpired (now : Z) (timestamp : jsval) : bool :=
  match ToNumber timestamp with
  | Some t => CACHE_DURATION <? now - t
  | None => false
  end.

Definition cache_key (key : string) : string := CACHE_KEY ++ "_" ++ key.

(** ** [CacheManager] *)

(** [CacheManager.get]; [null] is [Some JNull], and [data] is [undefined]
    when the stored object has no such property. *)
Definition CacheManager_get (key : string) : C jsval :=
  ctry
    (cached ← local_getItem (cache_key key);
     match cached with
     | None => mret (Some JNull)
     | Some text =>
         if negb (text_truthy text) then mret (Some JNull)
         else
           parsed ← lift_result (JSON_parse text);
           data ← lift_result (get_prop parsed "data");
           timestamp ← lift_result (get_prop parsed "timestamp");
           now ← Date_now;
           if isExpired now timestamp
           then local_removeItem (cache_key key);; mret (Some JNull)
           else mret data
     end)
    (fun _ => mret (Some JNull)).

(** [CacheManager.set]. *)
Definition CacheManager_set (key : string) (data : jsval) : C unit :=
  ctry
    (now ← Date_now;
     local_setItem (cache_key key)
       (JSON_stringify_props [("data", data); ("timestamp", Some (JNum now))]))
    (fun _ => mret tt).

(** [CacheManager.clear]. *)
Definition CacheManager_clear (key : string) : C unit :=
  local_removeItem (cache_key key).

(** ** [SessionManager] *)

(** The array index a property name denotes, if it is one: the decimal
    numeral of a number below 2^32 - 1, without leading zeros. *)
Definition digit_value (c : ascii) : option N :=
  let n := N_of_ascii c in
  if ((48 <=? n) && (n <=? 57))%N then Some (n - 48)%N else None.

Fixpoint digits_value (acc : N) (s : string) : option N :=
  match s with
  | EmptyString => Some acc
  | String c s' =>
      match digit_value c with
      | Some d => digits_value (10 * acc + d)%N s'
      | None => None
      end
  end.

Definition array_index (name : string) : option nat :=
  match name with
  | EmptyString => None
  | String c rest =>
      if Ascii.eqb c "0"%char && negb (String.eqb rest "") then None
      else match digits_value 0%N name with
           | Some n => if (n <? 4294967295)%N then Some (N.to_nat n) else None
           | None => None
           end
  end.

(** [JSON.parse] of the session text, or [{}] when there is none. *)
Definition visited_object (session : option jstext) : result json :=
  match session with
  | Some text => if text_truthy text then JSON_parse text else Ok (JObj [])
  | None => Ok (JObj [])
  end.

(** [visited[name] === true]. Nothing inherited from a prototype is the
    value [true]. *)
Definition is_marked (visited : json) (name : string) : result bool :=
  match visited with
  | JNull => Throw (TypeError "Cannot read properties of null")
  | JObj fields =>
      Ok match assoc name fields with Some (JBool true) => true | _ => false end
  | JArr items =>
      Ok match array_index name with
         | Some i => match items !! i with Some (JBool true) => true | _ => false end
         | None => false
         end
  | _ => Ok false
  end.

(** [visited[name] = true], as [JSON.stringify] sees the outcome. On an
    object the property is set, except that [__proto__] is the prototype
    setter unless it is an own property already. On an array an index sets
    the element (the holes before it read as [null]), [length] is set to
    ToUint32(true) = 1, and any other property stays out of the text. On a
    number, a boolean or a string the assignment throws, the body of a
    class being strict code; [__proto__] apart, whose setter is called and
    does nothing. *)
Definition mark (visited : json) (name : string) : result json :=
  match visited with
  | JNull => Throw (TypeError "Cannot set properties of null")
  | JNum _ | JBool _ | JStr _ =>
      if String.eqb name "__proto__" then Ok visited
      else Throw (TypeError "Cannot create property on a primitive value")
  | JObj fields =>
      Ok (JObj (if String.eqb name "__proto__" && match assoc name fields with Some _ => false | None => true end
                then fields
                else assoc_set name (JBool true) fields))
  | JArr items =>
      Ok (JArr match array_index name with
               | Some i =>
                   if (i <? length items)%nat then <[i := JBool true]> items
                   else items ++ replicate (i - length items) JNull ++ [JBool true]
               | None =>
                   if String.eqb name "length"
                   then match items with [] => [JNull] | x :: _ => [x] end
                   else items
               end)
  end.

(** [SessionManager.hasVisited]. *)
Definition SessionManager_hasVisited (name : string) : C bool :=
  session ← session_getItem SESSION_KEY;
  visited ← lift_result (visited_object session);
  lift_result (is_marked visited name).

(** [SessionManager.markVisited]. *)
Definition SessionManager_markVisited (name : string) : C unit :=
  session ← session_getItem SESSION_KEY;
  visited ← lift_result (visited_object session);
  visited' ← lift_result (mark visited name);
  session_setItem SESSION_KEY (JSON_stringify visited').

(** ** The calls to the service *)

Definition get_request (name : string) : Request :=
  mkRequest "GET" [("counterName", name)] None.

Definition post_request (action name : string) : Request :=
  mkRequest "POST" []
    (Some (JSON_stringify (JObj [("action", JStr action); ("counterName", JStr name)]))).

(** [fetchCounter]; [null] is [JNull]. *)
Definition fetchCounter (name : string) : C json :=
  cached ← CacheManager_get name;
  if truthy_val cached then mret (default JNull cached)
  else
    ctry
      (res ← fetch (get_request name);
       data ← res_json res;
       CacheManager_set name (Some data);;
       mret data)
      (fun _ => mret JNull).

(** [updateCounter]. *)
Definition updateCounter (name action : string) : C json :=
  ctry
    (res ← fetch (post_request action name);
     data ← res_json res;
     CacheManager_clear name;;
     mret data)
    (fun _ => mret JNull).

(** ** [initCounter] and its timer *)

(** [document.getElementById('netlify-counter-number').textContent = c]:
    the span is there when the container shows the counted markup. *)
Definition set_number_text (c : jsval) : C unit :=
  b ← get_browser;
  match has_container (dom b), view (dom b) with
  | true, Counted _ => update_browser (set_view (Counted c))
  | _, _ => cthrow (TypeError "Cannot set properties of null")
  end.

(** The callback given to [setTimeout]. *)
Definition auto_increment (counterName : string) : C unit :=
  updated ← updateCounter counterName "increment";
  if truthy updated then
    count ← lift_result (get_prop updated "count");
    set_number_text count;;
    SessionManager_markVisited counterName
  else mret tt.

(** [initCounter], for the counter name of the page. The style sheet it
    adds to the document is left out. *)
Definition initCounter (counterName : string) : C unit :=
  b ← get_browser;
  if negb (has_container (dom b)) then mret tt
  else
    update_browser (set_view Loading);;
    ctry
      (data ← fetchCounter counterName;
       if negb (truthy data) then update_browser (set_view Fallback)
       else
         count ← lift_result (get_prop data "count");
         update_browser (set_view (Counted count));;
         visited ← SessionManager_hasVisited counterName;
         if negb visited then update_browser (add_timer 1000 counterName)
         else mret tt)
      (fun _ => update_browser (set_view Fallback)).

(** The event loop takes the first pending timer, once it is due, and runs
    its callback. What the callback throws goes nowhere (an unhandled
    rejection); it is returned here to be looked at. *)
Definition fire_timer : C unit :=
  b ← get_browser;
  match timers b with
  | (due, name) :: rest =>
      if due <=? clock b
      then update_browser (set_timers rest);; auto_increment name
      else mret tt
  | [] => mret tt
  end.

(** Time passes in the tab. *)
Definition wait (dt : Z) : C unit := update_browser (advance dt).

(** ** [window.NetlifyCounter] *)

Definition NetlifyCounter_refresh (name : string) : C json :=
  CacheManager_clear name;; fetchCounter name.
Definition NetlifyCounter_get (name : string) : C json := fetchCounter name.
Definition NetlifyCounter_increment (name : string) : C json :=
  updateCounter name "increment".
Definition NetlifyCounter_reset (name : string) : C json :=
  updateCounter name "reset".
Definition NetlifyCounter_clearCache (name : string) : C unit :=
  CacheManager_clear name.

End Client.

Arguments mkWorld {Srv} _ _.
Arguments browser {Srv} _.
Arguments server {Srv} _.

(** ** Notions used in the statements *)

(** The text [CacheManager.set] stores for [data] at the time [timestamp]. *)
Definition cache_entry (data : json) (timestamp : Z) : jstext :=
  JSON_stringify_props [("data", Some data); ("timestamp", Some (JNum timestamp))].

(** What [localStorage] holds for a counter name. *)
Definition cached {Srv} (name : string) (w : World Srv) : option jstext :=
  items (localStorage (browser w)) !! cache_key name.

(** The same world, its cache entry for [name] removed. *)
Definition purged {Srv} (name : string) (w : World Srv) : World Srv :=
  mkWorld (set_local (snd (removeItem (cache_key name) (localStorage (browser w))))
                     (browser w))
          (server w).

(** The world once [req] has been sent and answered: the service in state
    [srv], the clock [elapsed] later. *)
Definition answered {Srv} (req : Request) (elapsed : Z) (srv : Srv) (w : World Srv)
  : World Srv :=
  mkWorld (after_request req elapsed (browser w)) srv.

(** Some time later, the service in some state. *)
Definition later {Srv} (dt : Z) (srv : Srv) (w : World Srv) : World Srv :=
  mkWorld (advance dt (browser w)) srv.

(** A reply whose body is JSON. *)
Definition reply_json (r : Reply) : option json :=
  match r with
  | NetReply _ (Some (Parses j)) => Some j
  | _ => None
  end.

(** The session storage makes [SessionManager] throw when it cannot be
    read, or holds under [SESSION_KEY] a text that is not JSON (and not
    empty) or the JSON [null]. *)
Definition session_broken (st : Storage) : Prop :=
  denied st = true
  ∨ (∃ s, items st !! SESSION_KEY = Some (NoParse s) ∧ s ≠ "")
  ∨ items st !! SESSION_KEY = Some (Parses JNull).

(** A JSON value that is a number, a boolean or a string. *)
Definition is_primitive (j : json) : bool :=
  match j with
  | JNum _ | JBool _ | JStr _ => true
  | _ => false
  end.

(** The session storage holds under [SESSION_KEY] the text of a number, a
    boolean or a string: [hasVisited] reads it as no flag, [markVisited]
    cannot create a property on it. *)
Definition session_primitive (st : Storage) : Prop :=
  ∃ j, items st !! SESSION_KEY = Some (Parses j) ∧ is_primitive j = true.

(** The session storage as [markVisited] leaves it: readable, writable,
    and holding nothing yet or an object. *)
Definition session_sound (st : Storage) : Prop :=
  denied st = false ∧ full st = false
  ∧ (items st !! SESSION_KEY = None
     ∨ ∃ fields, items st !! SESSION_KEY = Some (Parses (JObj fields))).

(** The count span is in the document. *)
Definition has_span (d : Dom) : Prop :=
  has_container d = true ∧ ∃ c, view d = Counted c.

End Widget.

(* ================================================================== *)
(** * The widget in front of the function *)
(* ================================================================== *)

Module EndToEnd.
Import Server Widget.

(** The service is one process of the function and its database. A request
    becomes the event of the handler; the reply carries the handler's status
    and body. The handler catches everything; if it did throw, the platform
    would answer 502 without a body. *)
Definition Service : Type := Process * Database.

Definition event_of (req : Request) : Event :=
  mkEvent (req_method req) (Some (req_query req)) (req_body req).

Definition via_handler (latency : Z) (req : Request) (srv : Service)
  : Reply * Z * Service :=
  match serve (event_of req) (fst srv) (snd srv) with
  | (Ok resp, p, d) => (NetReply (statusCode resp) (resp_body resp), latency, (p, d))
  | (Throw _, p, d) => (NetReply 502 None, latency, (p, d))
  end.

(** A service that cannot be reached. *)
Definition offline {Srv : Type} (req : Request) (srv : Srv) : Reply * Z * Srv :=
  (NetFail "Failed to fetch", 0, srv).

(** The timestamps of the scenarios below are numbers, as those that
    [CacheManager.set] writes are, so that no text is ever to be read as a
    number in them; this is what is passed where the widget expects ToNumber
    of a string, an array or an object. It is not JavaScript's ToNumber of
    these, which reads the string ["1000"] as 1000. *)
Definition no_text_number (j : json) : option Z := None.

(** ** Worlds to run the scenarios in *)

Definition empty_storage : Storage := mkStorage ∅ false false.

(** A storage the browser refuses to give. *)
Definition no_storage : Storage := mkStorage ∅ true false.

(** A tab that has just loaded a page with the container in it. *)
Definition tab (now : Z) : Browser :=
  mkBrowser empty_storage empty_storage now (mkDom true Blank) [] [].

(** A process that has served nothing yet, on a database without the
    table. *)
Definition fresh_service : Service :=
  (mkProcess false false false, mkDb None None 1 "2025-12-14T10:30:00.000Z").

(** The store goes down, or comes back. *)
Definition with_fault (fault : option string) (w : World Service) : World Service :=
  mkWorld (browser w)
          (fst (server w),
           mkDb fault (counters (snd (server w))) (counters_seq (snd (server w)))
                (db_now (snd (server w)))).

(** The store is back and the function is started anew: a process that has
    served nothing yet. *)
Definition cold_start (w : World Service) : World Service :=
  mkWorld (browser w) (mkProcess false false false, snd (server (with_fault None w))).

(** The page is loaded again in the same tab: the document is new, both
    storage areas are kept. *)
Definition reload (w : World Service) : World Service :=
  mkWorld (set_timers [] (set_dom (mkDom true Blank) (browser w))) (server w).

(** The counter of the page [/]. *)
Definition home : string := counterName (Some "home") "/".

(** A tab whose cache holds [data] for [name], stored at [stored_at]. *)
Definition tab_caching (name : string) (data : json) (stored_at now : Z) : Browser :=
  mkBrowser (mkStorage {[ cache_key name := cache_entry data stored_at ]} false false)
            empty_storage now (mkDom true Blank) [] [].

(** A tab that shows a count and whose storage areas are as given. *)
Definition tab_showing (c : Z) (local session : Storage) (now : Z) : Browser :=
  mkBrowser local session now (mkDom true (Counted (Some (JNum c)))) [] [].

(** A counter as the service returns it, its timestamps left out. *)
Definition snapshot (name : string) (c : Z) : json :=
  JObj [("name", JStr name); ("count", JNum c)].

End EndToEnd.

(* ================================================================== *)
(** * Properties of the function *)
(* ================================================================== *)

Module ServerFacts.
Import Server.

(** ** Running the handler's code *)

Lemma run_bind_prog {A B} (m : prog A) (f : A -> prog B) d :
  run (bind_prog m f) d = let '(a, d') := run m d in run (f a) d'.
Proof.
  revert d; induction m as [a | s k IH]; intros d; simpl; [done|].
  destruct (exec_stmt s d) as [r d']. apply IH.
Qed.

Lemma run_bind {A B} (m : H A) (f : A -> H B) p d :
  run ((m ≫= f) p) d =
  match run (m p) d with
  | (Ok a, p', d') => run (f a p') d'
  | (Throw e, p', d') => (Throw e, p', d')
  end.
Proof.
  unfold mbind, H_bind, bind. rewrite run_bind_prog.
  destruct (run (m p) d) as [[[a|e] p'] d']; done.
Qed.

Lemma run_try_catch {A} (m : H A) (h : exn -> H A) p d :
  run (try_catch m h p) d =
  match run (m p) d with
  | (Ok a, p', d') => (Ok a, p', d')
  | (Throw e, p', d') => run (h e p') d'
  end.
Proof.
  unfold try_catch. rewrite run_bind_prog.
  destruct (run (m p) d) as [[[a|e] p'] d']; done.
Qed.

Lemma run_ret {A} (a : A) p d : run ((mret a : H A) p) d = (Ok a, p, d).
Proof. done. Qed.

Lemma run_get_process p d : run (get_process p) d = (Ok p, p, d).
Proof. done. Qed.

Lemma run_modify f p d : run (modify f p) d = (Ok tt, f p, d).
Proof. done. Qed.

Lemma run_lift {A} (r : result A) p d : run (lift r p) d = (r, p, d).
Proof. done. Qed.

Lemma usable_online p : usable (online p).
Proof. by right. Qed.

Lemma usable_warm : usable warm.
Proof. by right. Qed.

Lemma run_ensureConnected p d :
  db_fault d = None -> usable p ->
  run (ensureConnected p) d = (Ok tt, online p, d).
Proof.
  intros Hup Hp. destruct p as [c k i]. unfold ensureConnected, online.
  destruct Hp as [Hp|Hp]; cbn in Hp; subst;
    destruct c || destruct k; simpl; unfold exec_stmt; rewrite Hup; simpl; done.
Qed.

Lemma run_executeQuery q p d :
  db_fault d = None -> usable p ->
  run (executeQuery q p) d = ((exec_stmt q d).1, online p, (exec_stmt q d).2).
Proof.
  intros Hup Hp. unfold executeQuery. rewrite run_bind, run_ensureConnected by done.
  rewrite run_try_catch. simpl. destruct (exec_stmt q d) as [[rows|e] d']; done.
Qed.

Lemma ensure_table_fault d : db_fault (ensure_table d) = db_fault d.
Proof. unfold ensure_table. by destruct (counters d). Qed.

Lemma ensure_table_counters d : counters (ensure_table d) = Some (rows_of d).
Proof.
  unfold ensure_table, rows_of. destruct (counters d) eqn:E; simpl; by rewrite ?E.
Qed.

Lemma ensure_table_rows d : rows_of (ensure_table d) = rows_of d.
Proof. unfold rows_of at 1. by rewrite ensure_table_counters. Qed.

Lemma ensure_table_seq d : counters_seq (ensure_table d) = counters_seq d.
Proof. unfold ensure_table. by destruct (counters d). Qed.

Lemma ensure_table_now d : db_now (ensure_table d) = db_now d.
Proof. unfold ensure_table. by destruct (counters d). Qed.

Lemma run_initTable p d :
  ready p d ->
  run (initTable p) d =
  (Ok tt, if TABLE_INIT_CACHE p then p else warm, ensure_table d).
Proof.
  intros (Hup & Ht & Hp). unfold initTable. rewrite run_bind, run_get_process.
  destruct (TABLE_INIT_CACHE p) eqn:Hi.
  - rewrite run_ret. destruct Ht as [?|[t Ht]]; [congruence|].
    unfold ensure_table. by rewrite Ht.
  - rewrite run_try_catch, run_bind, run_executeQuery by done.
    assert (exec_stmt CreateTable d = (Ok [], ensure_table d)) as ->.
    { unfold exec_stmt, ensure_table. rewrite Hup. by destruct (counters d). }
    cbn [fst snd].
    rewrite run_bind, run_executeQuery
      by (by rewrite ?ensure_table_fault; try apply usable_online).
    assert (exec_stmt CreateIndex (ensure_table d) = (Ok [], ensure_table d)) as ->.
    { unfold exec_stmt, on_table.
      by rewrite ensure_table_fault, Hup, ensure_table_counters. }
    cbn [fst snd]. by rewrite run_modify.
Qed.

Lemma online_after_init p : online (if TABLE_INIT_CACHE p then p else warm) = warm.
Proof. by destruct p as [c k []]. Qed.

Lemma usable_after_init p :
  usable p -> usable (if TABLE_INIT_CACHE p then p else warm).
Proof. intros Hp. destruct (TABLE_INIT_CACHE p); [done|apply usable_warm]. Qed.

Lemma run_handler ev p d params name action :
  ready p d ->
  String.eqb (httpMethod ev) "OPTIONS" = false ->
  parse_params ev = inr params ->
  counterName_of params = Ok name ->
  action_of params = Ok action ->
  run (handler ev p) d =
  run (dispatch (httpMethod ev) name action
         (if TABLE_INIT_CACHE p then p else warm)) (ensure_table d).
Proof.
  intros Hr Ho Hp Hn Ha. unfold handler, dispatch. rewrite Ho, Hp, Hn, Ha.
  rewrite !run_try_catch, run_bind, run_initTable by done.
  by rewrite !run_bind, !run_lift.
Qed.

(** The statements on the rows, on a store that can be reached and has the
    table. *)
Lemma exec_row_stmt d t :
  db_fault d = None -> counters d = Some t ->
  (∀ n, exec_stmt (SelectByName n) d = (Ok (option_list (t !! n)), d))
  ∧ (∀ n, exec_stmt (InsertZero n) d
          = upsert n 0 (fun r => Some (touch (db_now d) r)) d t)
  ∧ (∀ n, exec_stmt (UpdateIncrement n) d =
       match t !! n with
       | Some r =>
           match bump (db_now d) r with
           | Some r' => (Ok [r'], with_table (<[n := r']> t) d)
           | None => (Throw out_of_range, d)
           end
       | None => (Ok [], d)
       end)
  ∧ (∀ n, exec_stmt (InsertOne n) d = upsert n 1 (bump (db_now d)) d t)
  ∧ (∀ n, exec_stmt (UpdateReset n) d =
       match t !! n with
       | Some r => (Ok [zero (db_now d) r], with_table (<[n := zero (db_now d) r]> t) d)
       | None => (Ok [], d)
       end).
Proof.
  intros Hup Ht. repeat split; intros n; unfold exec_stmt, on_table;
    by rewrite Hup, Ht.
Qed.

(** The row [INSERT] creates when no row has the name and one can be
    inserted. *)
Lemma upsert_fresh n c f d :
  rows_of d !! n = None -> can_insert d ->
  upsert n c f d (rows_of d)
  = (Ok [fresh_row d n c], with_table_seq (<[n := fresh_row d n c]> (rows_of d)) d).
Proof.
  intros Hn [Hseq Hid]. unfold upsert.
  rewrite (proj2 (Z.ltb_ge _ _) Hseq), Hn, Hid. done.
Qed.

(** The function's branches go on as a connected process would, whatever
    usable process enters them. *)
Lemma run_query_then {A} q (f : list Row -> H A) p d :
  db_fault d = None -> usable p -> online p = warm ->
  run ((executeQuery q ≫= f) p) d = run ((executeQuery q ≫= f) warm) d.
Proof.
  intros Hup Hp Hw. rewrite !run_bind, !run_executeQuery, Hw
    by (try done; apply usable_warm).
  done.
Qed.

Lemma run_handle_get name p d t :
  usable p -> online p = warm -> db_fault d = None -> counters d = Some t ->
  (t !! name = None -> can_insert d) ->
  run (handle_get name p) d =
  match t !! name with
  | Some r => (Ok (respond 200 (row_json r)), warm, d)
  | None => (Ok (respond 200 (row_json (fresh_row d name 0))), warm,
             with_table_seq (<[name := fresh_row d name 0]> t) d)
  end.
Proof.
  intros Hu Hp Hup Ht Hroom.
  destruct (exec_row_stmt d t Hup Ht) as (Hsel & Hins & _).
  assert (rows_of d = t) as Hrows by (unfold rows_of; by rewrite Ht).
  unfold handle_get. rewrite run_bind, run_executeQuery, Hsel by done.
  rewrite Hp. cbn [fst snd online TABLE_INIT_CACHE warm].
  destruct (t !! name) as [r|] eqn:Hr.
  - change (option_list (Some r)) with [r]. cbv beta iota. by rewrite run_ret.
  - change (option_list None) with (@nil Row). cbv beta iota.
    rewrite run_bind, run_executeQuery, Hins by (try done; apply usable_warm).
    rewrite <- Hrows, upsert_fresh by (rewrite ?Hrows; auto).
    cbn [fst snd]. by rewrite run_ret.
Qed.

Lemma run_handle_increment name p d t :
  usable p -> online p = warm -> db_fault d = None -> counters d = Some t ->
  can_increment d name ->
  run (handle_increment name p) d =
  match t !! name with
  | Some r => (Ok (respond 200 (row_json (bumped (db_now d) r))), warm,
               with_table (<[name := bumped (db_now d) r]> t) d)
  | None => (Ok (respond 200 (row_json (fresh_row d name 1))), warm,
             with_table_seq (<[name := fresh_row d name 1]> t) d)
  end.
Proof.
  intros Hu Hp Hup Ht Hroom.
  destruct (exec_row_stmt d t Hup Ht) as (_ & _ & Hupd & Hins & _).
  assert (rows_of d = t) as Hrows by (unfold rows_of; by rewrite Ht).
  unfold can_increment in Hroom. rewrite Hrows in Hroom.
  unfold handle_increment. rewrite run_bind, run_executeQuery, Hupd by done.
  rewrite Hp. cbn [fst snd online TABLE_INIT_CACHE warm].
  destruct (t !! name) as [r|] eqn:Hr; cbn [fst snd].
  - unfold bump. rewrite (proj2 (Z.leb_gt _ _) Hroom). cbn [fst snd].
    by rewrite run_ret.
  - rewrite run_bind, run_executeQuery, Hins by (try done; apply usable_warm).
    rewrite <- Hrows, upsert_fresh by (rewrite ?Hrows; auto).
    cbn [fst snd]. by rewrite run_ret.
Qed.

Lemma run_handle_reset name p d t :
  usable p -> online p = warm -> db_fault d = None -> counters d = Some t ->
  run (handle_reset name p) d =
  match t !! name with
  | Some r => (Ok (respond 200 (row_json (zero (db_now d) r))), warm,
               with_table (<[name := zero (db_now d) r]> t) d)
  | None => (Ok (respond 200 (JObj [("name", JStr name); ("count", JNum 0)])),
             warm, d)
  end.
Proof.
  intros Hu Hp Hup Ht.
  destruct (exec_row_stmt d t Hup Ht) as (_ & _ & _ & _ & Hreset).
  unfold handle_reset. rewrite run_bind, run_executeQuery, Hreset by done.
  rewrite Hp. cbn [fst snd online TABLE_INIT_CACHE warm].
  destruct (t !! name) as [r|] eqn:Hr; cbn [fst snd]; by rewrite run_ret.
Qed.

(** A request with readable parameters and a valid name, on a store that
    can be reached: the handler runs the branch of its verb and action on
    the table. *)
Lemma serve_valid ev p d params name action :
  ready p d ->
  String.eqb (httpMethod ev) "OPTIONS" = false ->
  parse_params ev = inr params ->
  counterName_of params = Ok name ->
  action_of params = Ok action ->
  invalid_name name = false ->
  serve ev p d =
  if String.eqb (httpMethod ev) "GET" then
    run (try_catch (handle_get name)
           (fun error => mret (server_error error)) warm) (ensure_table d)
  else if String.eqb (httpMethod ev) "POST" then
    if String.eqb action "increment" then
      run (try_catch (handle_increment name)
             (fun error => mret (server_error error)) warm) (ensure_table d)
    else if String.eqb action "reset" then
      run (try_catch (handle_reset name)
             (fun error => mret (server_error error)) warm) (ensure_table d)
    else (Ok (respond 400 (error_body "无效的 action，支持：increment, reset")),
          if TABLE_INIT_CACHE p then p else warm, ensure_table d)
  else (Ok (respond 405 (error_body "方法不允许")),
        if TABLE_INIT_CACHE p then p else warm, ensure_table d).
Proof.
  intros Hr Ho Hp Hn Ha Hv. unfold serve.
  rewrite (run_handler ev p d params name action) by done.
  unfold dispatch. rewrite Hv.
  pose proof (ensure_table_fault d) as Hf. destruct Hr as (Hup & _ & Hu).
  rewrite Hup in Hf.
  pose proof (online_after_init p) as Hw.
  pose proof (usable_after_init p Hu) as Hu'.
  destruct (String.eqb (httpMethod ev) "GET").
  { rewrite !run_try_catch. unfold handle_get. by rewrite run_query_then. }
  destruct (String.eqb (httpMethod ev) "POST");
    [|by rewrite run_try_catch, run_ret].
  destruct (String.eqb action "increment").
  { rewrite !run_try_catch. unfold handle_increment. by rewrite run_query_then. }
  destruct (String.eqb action "reset"); [|by rewrite run_try_catch, run_ret].
  rewrite !run_try_catch. unfold handle_reset. by rewrite run_query_then.
Qed.

(** ** Reading the parameters *)

Lemma assoc_query k (q : list (string * string)) :
  assoc k (prod_map id JStr <$> q) = JStr <$> assoc k q.
Proof.
  induction q as [|[k' v] q IH]; [done|]. cbn. by destruct (String.eqb k k').
Qed.

(** The counter name a query string, or a body with a string or no
    [counterName], stands for. *)
Lemma counterName_of_query q :
  counterName_of (query_object q) =
  Ok match assoc "counterName" q with
     | Some s => if String.eqb s "" then "default" else trim s
     | None => "default"
     end.
Proof.
  unfold counterName_of, query_object, get_prop. rewrite assoc_query.
  destruct (assoc "counterName" q) as [s|]; [|done].
  cbn. by destruct (String.eqb s "").
Qed.

Lemma action_of_query q :
  action_of (query_object q) =
  Ok (toLowerCase match assoc "action" q with
                  | Some s => if String.eqb s "" then "get" else trim s
                  | None => "get"
                  end).
Proof.
  unfold action_of, query_object, get_prop. rewrite assoc_query.
  destruct (assoc "action" q) as [s|]; [|done].
  cbn. by destruct (String.eqb s "").
Qed.

Lemma parse_params_get q : parse_params (get_event q) = inr (query_object q).
Proof. done. Qed.

Lemma parse_params_post b : parse_params (post_event b) = inr b.
Proof. done. Qed.

Lemma invalid_name_spec name :
  invalid_name name = true ↔ name = "" ∨ (100 < String.length name)%nat.
Proof.
  unfold invalid_name. rewrite orb_true_iff, String.eqb_eq, Z.ltb_lt.
  split; (intros [?|?]; [by left|right; lia]).
Qed.

(** ** [trim] *)

Lemma trim_start_clean s : starts_clean (trim_start s).
Proof.
  induction s as [|c s IH]; [done|]. cbn. by destruct (is_space c) eqn:E.
Qed.

Lemma trim_start_id s : starts_clean s -> trim_start s = s.
Proof. destruct s as [|c s]; [done|]. cbn. by intros ->. Qed.

Lemma trim_end_clean s : starts_clean s -> starts_clean (trim_end s).
Proof.
  destruct s as [|c s]; [done|]. cbn. intros Hc.
  destruct (trim_end s); [by rewrite Hc|done].
Qed.

Lemma trim_end_cons c s :
  trim_end (String c s) =
  match trim_end s with
  | EmptyString => if is_space c then EmptyString else String c EmptyString
  | t => String c t
  end.
Proof. done. Qed.

Lemma trim_end_idem s : trim_end (trim_end s) = trim_end s.
Proof.
  induction s as [|c s IH]; [done|]. cbn.
  destruct (trim_end s) as [|c' t] eqn:E.
  - destruct (is_space c) eqn:Ec; [done|]. cbn. by rewrite Ec.
  - by rewrite trim_end_cons, IH.
Qed.

Lemma trim_idem s : trim (trim s) = trim s.
Proof.
  unfold trim.
  rewrite (trim_start_id (trim_end _)) by apply trim_end_clean, trim_start_clean.
  apply trim_end_idem.
Qed.

Lemma trim_nonempty s : trim s ≠ "" -> s ≠ "".
Proof. by intros H ->. Qed.

Example trim_home : trim " home " = "home" ∧ trim "a b" = "a b" ∧ trim "   " = "".
Proof. done. Qed.

Example action_is_normalised :
  action_of (JObj [("action", JStr " Increment ")]) = Ok "increment"
  ∧ action_of (JObj []) = Ok "get"
  ∧ (∃ e, action_of (JObj [("action", JNum 5)]) = Throw e).
Proof. split; [done|]. split; [done|]. by eexists. Qed.

(** ** [initTable] never throws *)

Lemma run_ensureConnected_down p d msg :
  db_fault d = Some msg ->
  ∃ p', run (ensureConnected p) d
        = (Throw (if client p then client_reused else DatabaseError msg), p', d).
Proof.
  intros Hd. destruct p as [c k i]. unfold ensureConnected.
  destruct c, k; simpl; unfold exec_stmt; rewrite Hd; simpl; eauto.
  unfold exec_stmt; rewrite Hd; simpl; eauto.
Qed.

Lemma run_executeQuery_down q p d msg :
  db_fault d = Some msg ->
  ∃ p', run (executeQuery q p) d
        = (Throw (if client p then client_reused else DatabaseError msg), p', d).
Proof.
  intros Hd. unfold executeQuery. rewrite run_bind.
  destruct (run_ensureConnected_down p d msg Hd) as [p' ->]. eauto.
Qed.

Lemma run_ensureConnected_db p d : (run (ensureConnected p) d).2 = d.
Proof.
  destruct p as [c k i]. unfold ensureConnected.
  destruct (db_fault d) eqn:Hd, c, k; simpl; unfold exec_stmt; rewrite Hd; simpl;
    try done; unfold exec_stmt; rewrite Hd; simpl; done.
Qed.

Lemma exec_ddl_rows q d :
  q = CreateTable ∨ q = CreateIndex -> rows_of (exec_stmt q d).2 = rows_of d.
Proof.
  intros Hq. unfold exec_stmt, on_table, rows_of.
  destruct (db_fault d); [done|].
  destruct Hq as [-> | ->]; destruct (counters d) eqn:E; simpl; by rewrite ?E.
Qed.

Lemma run_executeQuery_ddl q p d :
  q = CreateTable ∨ q = CreateIndex ->
  rows_of (run (executeQuery q p) d).2 = rows_of d.
Proof.
  intros Hq. unfold executeQuery. rewrite run_bind.
  pose proof (run_ensureConnected_db p d) as Hdb.
  destruct (run (ensureConnected p) d) as [[[[]|e] p'] d']; cbn in Hdb; subst d';
    [|done].
  rewrite run_try_catch. simpl.
  pose proof (exec_ddl_rows q d Hq) as Hrows.
  by destruct (exec_stmt q d) as [[rows|e] d'].
Qed.

Lemma initTable_total p d :
  ∃ p' d', run (initTable p) d = (Ok tt, p', d') ∧ rows_of d' = rows_of d.
Proof.
  unfold initTable. rewrite run_bind, run_get_process.
  destruct (TABLE_INIT_CACHE p) eqn:Hi; [rewrite run_ret; eauto|].
  rewrite run_try_catch, run_bind.
  pose proof (run_executeQuery_ddl CreateTable p d (or_introl eq_refl)) as H1.
  destruct (run (executeQuery CreateTable p) d) as [[[rows|e] p1] d1];
    cbn [fst snd] in *.
  2:{ rewrite run_modify. eauto. }
  rewrite run_bind.
  pose proof (run_executeQuery_ddl CreateIndex p1 d1 (or_intror eq_refl)) as H2.
  destruct (run (executeQuery CreateIndex p1) d1) as [[[rows'|e] p2] d2];
    cbn [fst snd] in *; rewrite run_modify; eexists _, _; split; try done;
    congruence.
Qed.

(** ** Validation of the name *)

(** The early answer of the handler to a name that fails the check, on
    any database, reachable or not. *)
Lemma serve_invalid ev p d params name action :
  String.eqb (httpMethod ev) "OPTIONS" = false ->
  parse_params ev = inr params ->
  counterName_of params = Ok name ->
  action_of params = Ok action ->
  invalid_name name = true ->
  ∃ p' d',
    serve ev p d
    = (Ok (respond 400 (error_body "无效的 counterName (1-100字符)")), p', d')
    ∧ rows_of d' = rows_of d.
Proof.
  intros Ho Hp Hn Ha Hv. unfold serve, handler. rewrite Ho, Hp, Hn, Ha.
  rewrite run_try_catch, run_bind.
  destruct (initTable_total p d) as (p' & d' & -> & Hrows).
  rewrite run_bind, run_lift. cbv beta iota.
  rewrite run_bind, run_lift. cbv beta iota. rewrite Hv. cbv iota.
  rewrite run_ret. eauto.
Qed.

(** A GET for a valid name, on a store that can be reached. *)
Lemma can_insert_ensure_table d : can_insert d -> can_insert (ensure_table d).
Proof.
  unfold can_insert. by rewrite ensure_table_seq, ensure_table_rows.
Qed.

Lemma serve_get q name p d :
  counterName_of (query_object q) = Ok name ->
  invalid_name name = false ->
  ready p d ->
  (rows_of d !! name = None -> can_insert d) ->
  serve (get_event q) p d =
  match rows_of d !! name with
  | Some r => (Ok (respond 200 (row_json r)), warm, ensure_table d)
  | None => (Ok (respond 200 (row_json (fresh_row d name 0))), warm,
             with_table_seq (<[name := fresh_row d name 0]> (rows_of d)) d)
  end.
Proof.
  intros Hn Hv Hr Hroom.
  rewrite (serve_valid (get_event q) p d _ name _ Hr eq_refl
             (parse_params_get q) Hn (action_of_query q) Hv).
  cbn [get_event httpMethod String.eqb Ascii.eqb Bool.eqb].
  destruct Hr as [Hup _]. rewrite run_try_catch.
  rewrite (run_handle_get name warm (ensure_table d) (rows_of d) usable_warm eq_refl)
    by (rewrite ?ensure_table_fault, ?ensure_table_counters; try done;
        intros Hnone; by apply can_insert_ensure_table, Hroom).
  destruct (rows_of d !! name); [done|].
  unfold fresh_row, with_table_seq.
  by rewrite ensure_table_fault, ensure_table_seq, ensure_table_now.
Qed.

(** ** The claims about the function *)

(** C2 (as amended). For every request other than OPTIONS whose parameters
    are read without error, a counter name that, once defaulted and trimmed,
    is empty or longer than 100 characters is answered 400 with the error
    body of the name check, whatever the state of the store, and no row
    changes. A [counterName] that is empty to begin with never reaches that
    check: it is replaced by ['default'], which passes it. *)
Theorem invalid_name_rejected
    (ev : Event) (p : Process) (d : Database)
    (params : json) (name action : string) :
  String.eqb (httpMethod ev) "OPTIONS" = false ->
  parse_params ev = inr params ->
  counterName_of params = Ok name ->
  action_of params = Ok action ->
  name = "" ∨ (100 < String.length name)%nat ->
  (∃ p' d',
     serve ev p d
     = (Ok (respond 400 (error_body "无效的 counterName (1-100字符)")), p', d')
     ∧ rows_of d' = rows_of d)
  ∧ (∀ q, assoc "counterName" q = Some "" ->
          counterName_of (query_object q) = Ok "default")
  ∧ invalid_name "default" = false.
Proof.
  intros Ho Hp Hn Ha Hv. split; [|split; [|done]].
  - apply (serve_invalid ev p d params name action); try done.
    by apply invalid_name_spec.
  - intros q Hq. by rewrite counterName_of_query, Hq.
Qed.

Lemma invalid_name_rejected_witness :
  (∃ p' d',
     serve (get_event [("counterName", "   ")]) (mkProcess false false false)
           (mkDb None None 1 "t0")
     = (Ok (respond 400 (error_body "无效的 counterName (1-100字符)")), p', d')
     ∧ rows_of d' = rows_of (mkDb None None 1 "t0"))
  ∧ (∀ q, assoc "counterName" q = Some "" ->
          counterName_of (query_object q) = Ok "default")
  ∧ invalid_name "default" = false.
Proof.
  apply (invalid_name_rejected (get_event [("counterName", "   ")])
           (mkProcess false false false) (mkDb None None 1 "t0")
           (query_object [("counterName", "   ")]) "" "get");
    [reflexivity | reflexivity | reflexivity | reflexivity | left; reflexivity].
Defined.

(** C2 (as stated) fails: a GET whose [counterName] parameter is empty is
    answered 200, with the row of the counter ['default'], which it
    creates. *)
Lemma get_with_empty_name_is_served :
  let d := mkDb None None 1 "t0" in
  let r := mkRow 1 "default" 0 "t0" "t0" in
  serve (get_event [("counterName", "")]) (mkProcess false false false) d
  = (Ok (respond 200 (row_json r)), warm,
     mkDb None (Some {[ "default" := r ]}) 2 "t0").
Proof. vm_compute. reflexivity. Qed.

Lemma rows_of_with_table t d : rows_of (with_table t d) = t.
Proof. done. Qed.

Lemma rows_of_with_table_seq t d : rows_of (with_table_seq t d) = t.
Proof. done. Qed.

Lemma ready_warm d : db_fault d = None -> is_Some (counters d) -> ready warm d.
Proof. intros. split; [done|]. split; [by right|apply usable_warm]. Qed.

Lemma ensure_table_id d : is_Some (counters d) -> ensure_table d = d.
Proof. intros [t Ht]. unfold ensure_table. by rewrite Ht. Qed.

(** A GET for a name whose row is there changes nothing and returns it. *)
Lemma serve_get_again q name r d :
  counterName_of (query_object q) = Ok name ->
  invalid_name name = false ->
  db_fault d = None -> is_Some (counters d) ->
  rows_of d !! name = Some r ->
  serve (get_event q) warm d = (Ok (respond 200 (row_json r)), warm, d).
Proof.
  intros Hn Hv Hup Ht Hr.
  rewrite (serve_get q name warm d Hn Hv (ready_warm d Hup Ht)), Hr
    by (intros Hnone; congruence).
  by rewrite ensure_table_id.
Qed.




(** A POST that asks for a reset of a valid name, on a store that can be
    reached. *)
Lemma serve_reset b name p d :
  counterName_of b = Ok name ->
  action_of b = Ok "reset" ->
  invalid_name name = false ->
  ready p d ->
  serve (post_event b) p d =
  match rows_of d !! name with
  | Some r => (Ok (respond 200 (row_json (zero (db_now d) r))), warm,
               with_table (<[name := zero (db_now d) r]> (rows_of d)) d)
  | None => (Ok (respond 200 (JObj [("name", JStr name); ("count", JNum 0)])),
             warm, ensure_table d)
  end.
Proof.
  intros Hn Ha Hv Hr.
  rewrite (serve_valid (post_event b) p d b name "reset" Hr eq_refl
             (parse_params_post b) Hn Ha Hv).
  cbn [post_event httpMethod String.eqb Ascii.eqb Bool.eqb].
  destruct Hr as [Hup _]. rewrite run_try_catch.
  rewrite (run_handle_reset name warm (ensure_table d) (rows_of d) usable_warm eq_refl)
    by (by rewrite ?ensure_table_fault, ?ensure_table_counters).
  destruct (rows_of d !! name); [|done].
  unfold with_table. by rewrite ensure_table_fault, ensure_table_seq, ensure_table_now.
Qed.

(** C6. A reset of a valid name, by a process that can get a connection to
    a store that can be reached: the row that is there gets count 0 and is
    returned; when there is none the answer is the made-up record
    [{name, count: 0}] and no row is created. Either way the count returned
    is 0, and so is the count of the row the next GET of that name returns
    (which creates the row when there is none, the sequence of ids having a
    value left that no row has). *)
Theorem reset_then_get
    (b : json) (q : list (string * string)) (name : string)
    (p : Process) (d : Database) :
  counterName_of b = Ok name ->
  action_of b = Ok "reset" ->
  invalid_name name = false ->
  ready p d ->
  (rows_of d !! name = None -> can_insert d) ->
  counterName_of (query_object q) = Ok name ->
  ∃ answer d',
    serve (post_event b) p d = (Ok (respond 200 answer), warm, d')
    ∧ get_prop answer "count" = Ok (Some (JNum 0))
    ∧ match rows_of d !! name with
      | Some r => answer = row_json (zero (db_now d) r)
                  ∧ rows_of d' = <[name := zero (db_now d) r]> (rows_of d)
      | None => answer = JObj [("name", JStr name); ("count", JNum 0)]
                ∧ rows_of d' = rows_of d
      end
    ∧ ∃ r d'',
        serve (get_event q) warm d' = (Ok (respond 200 (row_json r)), warm, d'')
        ∧ row_count r = 0.
Proof.
  intros Hn Ha Hv Hr Hroom Hq. rewrite (serve_reset b name p d Hn Ha Hv Hr).
  destruct Hr as [Hup _].
  destruct (rows_of d !! name) as [r|] eqn:Hrow.
  - eexists _, _. split; [reflexivity|]. split; [done|]. split; [done|].
    rewrite (serve_get_again q name (zero (db_now d) r)) by
      (try done; by rewrite rows_of_with_table, lookup_insert_eq).
    by eexists _, _.
  - eexists _, _. split; [reflexivity|]. split; [done|].
    split; [by rewrite ensure_table_rows|].
    rewrite (serve_get q name warm (ensure_table d) Hq Hv) by
      (first [ apply ready_warm; by rewrite ?ensure_table_fault, ?ensure_table_counters
             | intros _; by apply can_insert_ensure_table, Hroom ]).
    rewrite ensure_table_rows, Hrow. by eexists _, _.
Qed.

Lemma reset_then_get_witness :
  let b := JObj [("action", JStr "reset"); ("counterName", JStr "home")] in
  let d := mkDb None (Some {[ "home" := mkRow 1 "home" 7 "t0" "t1" ]}) 2 "t2" in
  ∃ answer d',
    serve (post_event b) warm d = (Ok (respond 200 answer), warm, d')
    ∧ get_prop answer "count" = Ok (Some (JNum 0))
    ∧ match rows_of d !! "home" with
      | Some r => answer = row_json (zero (db_now d) r)
                  ∧ rows_of d' = <["home" := zero (db_now d) r]> (rows_of d)
      | None => answer = JObj [("name", JStr "home"); ("count", JNum 0)]
                ∧ rows_of d' = rows_of d
      end
    ∧ ∃ r d'',
        serve (get_event [("counterName", "home")]) warm d'
        = (Ok (respond 200 (row_json r)), warm, d'')
        ∧ row_count r = 0.
Proof.
  apply (reset_then_get
           (JObj [("action", JStr "reset"); ("counterName", JStr "home")])
           [("counterName", "home")] "home" warm
           (mkDb None (Some {[ "home" := mkRow 1 "home" 7 "t0" "t1" ]}) 2 "t2"));
    [reflexivity | reflexivity | reflexivity
    | split; [reflexivity | split; [right; eexists; reflexivity | right; reflexivity]]
    | intros Hnone; vm_compute in Hnone; discriminate Hnone
    | reflexivity].
Defined.

(** ** Defaults and trimming *)

(** The handler reads its event through the verb, the parsed parameters,
    and of these only the name and the action. *)
Lemma handler_reads ev1 ev2 params1 params2 :
  httpMethod ev1 = httpMethod ev2 ->
  parse_params ev1 = inr params1 ->
  parse_params ev2 = inr params2 ->
  counterName_of params1 = counterName_of params2 ->
  action_of params1 = action_of params2 ->
  handler ev1 = handler ev2.
Proof.
  intros Hm H1 H2 Hn Ha. unfold handler. by rewrite Hm, H1, H2, Hn, Ha.
Qed.

Lemma parse_params_query m q b :
  String.eqb m "POST" = false ->
  parse_params (mkEvent m q b) = inr (query_object (default [] q)).
Proof. intros Hm. unfold parse_params. cbn [httpMethod]. by rewrite Hm. Qed.

Lemma parse_params_body q j :
  parse_params (mkEvent "POST" q (Some (Parses j))) = inr j.
Proof. done. Qed.

Lemma trim_default_name n :
  trim n ≠ "" ->
  call_trim (or_string (Some (JStr n)) "default")
  = call_trim (or_string (Some (JStr (trim n))) "default").
Proof.
  intros Hn. pose proof (trim_nonempty n Hn) as Hn'. cbn.
  apply String.eqb_neq in Hn, Hn'. rewrite Hn, Hn'. cbn. by rewrite trim_idem.
Qed.

Lemma counterName_of_given n q :
  trim n ≠ "" ->
  counterName_of (query_object (("counterName", n) :: q)) = Ok (trim n).
Proof.
  intros Hn. rewrite counterName_of_query. cbn.
  pose proof (trim_nonempty n Hn) as Hn'. apply String.eqb_neq in Hn'.
  by rewrite Hn'.
Qed.

Lemma counterName_of_field n fields :
  trim n ≠ "" ->
  counterName_of (JObj (("counterName", JStr n) :: fields)) = Ok (trim n).
Proof.
  intros Hn. unfold counterName_of, get_prop.
  cbn [assoc String.eqb Ascii.eqb Bool.eqb]. cbn.
  pose proof (trim_nonempty n Hn) as Hn'. apply String.eqb_neq in Hn'.
  by rewrite Hn'.
Qed.

(** C9. A request without any [counterName] (no such parameter in the
    query string, no query string at all, no such property in the body) is
    not rejected: the counter it is about is ['default'], it is handled
    exactly as the same request for the counter ['default'], and a GET of
    it returns the row stored under ['default'], which it creates under
    that name when there is none. A name that is given is trimmed before it
    is checked and looked up: the counter a request for [n] is about is
    [trim n], the request is handled exactly as the request for [trim n], and
    a GET of it returns the row stored under [trim n], created under that
    name when there is none; so [" home "] and ["home"] are one counter. The
    GETs are served by a process that can get a connection to a store that
    can be reached, and a row can be inserted where one is missing. *)
Theorem missing_name_is_default
    (m : string) (q : list (string * string)) (b : option jstext)
    (fields : list (string * json)) (n : string)
    (p : Process) (d : Database) :
  String.eqb m "POST" = false ->
  assoc "counterName" q = None ->
  assoc "counterName" fields = None ->
  trim n ≠ "" ->
  invalid_name (trim n) = false ->
  ready p d ->
  (rows_of d !! "default" = None -> can_insert d) ->
  (rows_of d !! trim n = None -> can_insert d) ->
  (handler (mkEvent m (Some q) b)
   = handler (mkEvent m (Some (("counterName", "default") :: q)) b)
   ∧ target (mkEvent m (Some q) b) = Some "default")
  ∧ (handler (mkEvent m None b)
     = handler (mkEvent m (Some [("counterName", "default")]) b)
     ∧ target (mkEvent m None b) = Some "default")
  ∧ (handler (mkEvent "POST" (Some q) (Some (Parses (JObj fields))))
     = handler (mkEvent "POST" (Some q)
                  (Some (Parses (JObj (("counterName", JStr "default") :: fields)))))
     ∧ target (mkEvent "POST" (Some q) (Some (Parses (JObj fields))))
       = Some "default")
  ∧ (∃ r d', serve (mkEvent "GET" None None) p d
             = (Ok (respond 200 (row_json r)), warm, d')
             ∧ rows_of d' !! "default" = Some r
             ∧ (rows_of d !! "default" = None -> r = fresh_row d "default" 0)
             ∧ (∀ r0, rows_of d !! "default" = Some r0 -> r = r0))
  ∧ (handler (mkEvent m (Some (("counterName", n) :: q)) b)
     = handler (mkEvent m (Some (("counterName", trim n) :: q)) b)
     ∧ target (mkEvent m (Some (("counterName", n) :: q)) b) = Some (trim n))
  ∧ (handler (mkEvent "POST" (Some q)
                (Some (Parses (JObj (("counterName", JStr n) :: fields)))))
     = handler (mkEvent "POST" (Some q)
                  (Some (Parses (JObj (("counterName", JStr (trim n)) :: fields)))))
     ∧ target (mkEvent "POST" (Some q)
                 (Some (Parses (JObj (("counterName", JStr n) :: fields)))))
       = Some (trim n))
  ∧ (∃ r d', serve (get_event (("counterName", n) :: q)) p d
             = (Ok (respond 200 (row_json r)), warm, d')
             ∧ rows_of d' !! trim n = Some r
             ∧ (rows_of d !! trim n = None -> r = fresh_row d (trim n) 0)
             ∧ (∀ r0, rows_of d !! trim n = Some r0 -> r = r0))
  ∧ handler (get_event [("counterName", " home ")])
    = handler (get_event [("counterName", "home")]).
Proof.
  intros Hm Hq Hf Hn Hv Hr Hdef Hroom.
  assert (∀ name q', counterName_of (query_object q') = Ok name ->
            invalid_name name = false ->
            (rows_of d !! name = None -> can_insert d) ->
            ∃ r d', serve (get_event q') p d
                    = (Ok (respond 200 (row_json r)), warm, d')
                    ∧ rows_of d' !! name = Some r
                    ∧ (rows_of d !! name = None -> r = fresh_row d name 0)
                    ∧ (∀ r0, rows_of d !! name = Some r0 -> r = r0)) as Hget.
  { intros name q' Hname Hvalid Hcan.
    rewrite (serve_get q' name p d Hname Hvalid Hr Hcan).
    destruct (rows_of d !! name) as [r|] eqn:Hrow.
    - exists r, (ensure_table d). rewrite ensure_table_rows.
      split; [done|]. split; [done|]. split; [done|]. by intros r0 [= ->].
    - eexists _, _. split; [reflexivity|].
      rewrite rows_of_with_table_seq, lookup_insert_eq. done. }
  assert (∀ ev params name, parse_params ev = inr params ->
            counterName_of params = Ok name -> target ev = Some name) as Htarget.
  { intros ev params name Hp Hname. unfold target. by rewrite Hp, Hname. }
  split; [|split; [|split; [|split; [|split; [|split; [|split]]]]]].
  - split.
    + eapply handler_reads; [done|by apply parse_params_query..| |].
      * rewrite !counterName_of_query. cbn. by rewrite Hq.
      * rewrite !action_of_query. by cbn.
    + eapply Htarget; [by apply parse_params_query|].
      rewrite counterName_of_query. cbn. by rewrite Hq.
  - split.
    + eapply handler_reads; [done|by apply parse_params_query..|done|done].
    + eapply Htarget; [by apply parse_params_query|done].
  - split.
    + eapply handler_reads; [done|apply parse_params_body..| |].
      * unfold counterName_of, get_prop. cbn [assoc]. by rewrite Hf.
      * done.
    + eapply Htarget; [apply parse_params_body|].
      unfold counterName_of, get_prop. by rewrite Hf.
  - assert (handler (mkEvent "GET" None None) = handler (get_event [])) as Heq
      by (by eapply handler_reads).
    unfold serve. rewrite Heq. fold (serve (get_event []) p d).
    by apply Hget.
  - split.
    + eapply handler_reads; [done|by apply parse_params_query..| |].
      * rewrite !counterName_of_query. cbn.
        pose proof (trim_nonempty n Hn) as Hn'.
        apply String.eqb_neq in Hn, Hn'. by rewrite Hn, Hn', trim_idem.
      * rewrite !action_of_query. by cbn.
    + eapply Htarget; [by apply parse_params_query|].
      by apply counterName_of_given.
  - split.
    + eapply handler_reads; [done|apply parse_params_body..| |].
      * unfold counterName_of, get_prop. cbn [assoc String.eqb Ascii.eqb Bool.eqb].
        by apply trim_default_name.
      * done.
    + eapply Htarget; [apply parse_params_body|].
      by apply counterName_of_field.
  - apply Hget; [by apply counterName_of_given|done|done].
  - by eapply handler_reads.
Qed.

Lemma missing_name_is_default_witness :
  let p := mkProcess false false false in
  let d := mkDb None (Some {[ "home" := mkRow 1 "home" 7 "t0" "t1" ]}) 2 "t2" in
  let q := [("action", "increment")] in
  let fields := [("action", JStr "increment")] in
  (handler (mkEvent "GET" (Some q) None)
   = handler (mkEvent "GET" (Some (("counterName", "default") :: q)) None)
   ∧ target (mkEvent "GET" (Some q) None) = Some "default")
  ∧ (handler (mkEvent "GET" None None)
     = handler (mkEvent "GET" (Some [("counterName", "default")]) None)
     ∧ target (mkEvent "GET" None None) = Some "default")
  ∧ (handler (mkEvent "POST" (Some q) (Some (Parses (JObj fields))))
     = handler (mkEvent "POST" (Some q)
                  (Some (Parses (JObj (("counterName", JStr "default") :: fields)))))
     ∧ target (mkEvent "POST" (Some q) (Some (Parses (JObj fields))))
       = Some "default")
  ∧ (∃ r d', serve (mkEvent "GET" None None) p d
             = (Ok (respond 200 (row_json r)), warm, d')
             ∧ rows_of d' !! "default" = Some r
             ∧ (rows_of d !! "default" = None -> r = fresh_row d "default" 0)
             ∧ (∀ r0, rows_of d !! "default" = Some r0 -> r = r0))
  ∧ (handler (mkEvent "GET" (Some (("counterName", " home ") :: q)) None)
     = handler (mkEvent "GET" (Some (("counterName", trim " home ") :: q)) None)
     ∧ target (mkEvent "GET" (Some (("counterName", " home ") :: q)) None)
       = Some (trim " home "))
  ∧ (handler (mkEvent "POST" (Some q)
                (Some (Parses (JObj (("counterName", JStr " home ") :: fields)))))
     = handler (mkEvent "POST" (Some q)
                  (Some (Parses (JObj (("counterName", JStr (trim " home "))
                                         :: fields)))))
     ∧ target (mkEvent "POST" (Some q)
                 (Some (Parses (JObj (("counterName", JStr " home ") :: fields)))))
       = Some (trim " home "))
  ∧ (∃ r d', serve (get_event (("counterName", " home ") :: q)) p d
             = (Ok (respond 200 (row_json r)), warm, d')
             ∧ rows_of d' !! trim " home " = Some r
             ∧ (rows_of d !! trim " home " = None
                -> r = fresh_row d (trim " home ") 0)
             ∧ (∀ r0, rows_of d !! trim " home " = Some r0 -> r = r0))
  ∧ handler (get_event [("counterName", " home ")])
    = handler (get_event [("counterName", "home")]).
Proof.
  apply (missing_name_is_default "GET" [("action", "increment")] None
           [("action", JStr "increment")] " home "
           (mkProcess false false false)
           (mkDb None (Some {[ "home" := mkRow 1 "home" 7 "t0" "t1" ]}) 2 "t2"));
    [reflexivity | reflexivity | reflexivity | discriminate | reflexivity
    | split; [reflexivity | split; [left; reflexivity | left; reflexivity]]
    | intros _; split; [vm_compute; discriminate | reflexivity]
    | intros _; split; [vm_compute; discriminate | reflexivity]].
Defined.

End ServerFacts.

(* ================================================================== *)
(** * Requests in flight at the same time *)
(* ================================================================== *)

Module ConcurrencyFacts.
Import Server ServerFacts.

(** ** Rules for [tracks] *)

Lemma tracks_mono {A} n b b' j s (t : prog A) (Q Q' : A -> Z -> Z -> Prop) :
  (b ≤ b')%nat -> (∀ a j s, Q a j s -> Q' a j s) ->
  tracks n b j s t Q -> tracks n b' j s t Q'.
Proof.
  revert b b' j s. induction t as [a|st k IH]; intros b b' j s Hb HQ; cbn.
  - apply HQ.
  - destruct b as [|b]; [done|]. destruct b' as [|b']; [lia|].
    intros (Hj & Hs & Ht). split; [done|]. split; [done|].
    intros d Hd Hc Hq. destruct (Ht d Hd Hc Hq) as [Hst Hk]. split; [done|].
    eapply IH; [|done|exact Hk]. lia.
Qed.

Lemma tracks_bind_prog {A B} n b1 b2 j s (m : prog A) (f : A -> prog B) Q :
  tracks n b1 j s m (fun a j' s' => tracks n b2 j' s' (f a) Q) ->
  tracks n (b1 + b2) j s (bind_prog m f) Q.
Proof.
  revert b1 j s. induction m as [a|st k IH]; intros b1 j s; cbn.
  - intros Hf. eapply tracks_mono; [|done|exact Hf]. lia.
  - destruct b1 as [|b1]; [done|]. cbn.
    intros (Hj & Hs & Ht). split; [done|]. split; [done|].
    intros d Hd Hc Hq. destruct (Ht d Hd Hc Hq) as [Hst Hk]. split; [done|].
    by apply IH.
Qed.

Lemma tracks_bind {A B} n b1 b2 j s (m : H A) (f : A -> H B) p Q :
  tracks n b1 j s (m p)
    (fun x j' s' => match x.1 with
                    | Ok a => tracks n b2 j' s' (f a x.2) Q
                    | Throw e => Q (Throw e, x.2) j' s'
                    end) ->
  tracks n (b1 + b2) j s ((m ≫= f) p) Q.
Proof.
  intros Hm. unfold mbind, H_bind, bind. apply tracks_bind_prog.
  eapply tracks_mono; [|  |exact Hm]; [lia|].
  intros [[a|e] p'] j' s'; cbn; [done|]. intros HQ. by destruct b2.
Qed.

Lemma tracks_try_catch {A} n b1 b2 j s (m : H A) (h : exn -> H A) p Q :
  tracks n b1 j s (m p)
    (fun x j' s' => match x.1 with
                    | Ok a => Q (Ok a, x.2) j' s'
                    | Throw e => tracks n b2 j' s' (h e x.2) Q
                    end) ->
  tracks n (b1 + b2) j s (try_catch m h p) Q.
Proof.
  intros Hm. unfold try_catch. apply tracks_bind_prog.
  eapply tracks_mono; [|  |exact Hm]; [lia|].
  intros [[a|e] p'] j' s'; cbn; [|done]. intros HQ. by destruct b2.
Qed.

(** ** What a statement does to a steady database *)

Lemma id_free d t :
  ids_drawn d -> counters d = Some t -> id_taken t (counters_seq d) = false.
Proof.
  intros Hids Ht. unfold id_taken.
  destruct (existsb _ _) eqn:E; [|done].
  apply existsb_exists in E as ([k r] & Hin & Heq).
  apply list_elem_of_In, elem_of_map_to_list in Hin.
  assert (rows_of d !! k = Some r) as Hr by (unfold rows_of; by rewrite Ht).
  specialize (Hids k r Hr). cbn in Heq. lia.
Qed.

Lemma ids_drawn_insert (t : gmap string Row) d n r :
  ids_drawn d -> row_id r < counters_seq d + 1 ->
  (∀ m r0, t !! m = Some r0 -> m ≠ n -> rows_of d !! m = Some r0) ->
  ∀ m r0, <[n := r]> t !! m = Some r0 -> row_id r0 < counters_seq d + 1.
Proof.
  intros Hids Hr Ht m r0. destruct (decide (m = n)) as [->|Hne].
  - rewrite lookup_insert_eq. by intros [= <-].
  - rewrite lookup_insert_ne by done. intros Hm.
    pose proof (Hids m r0 (Ht m r0 Hm Hne)). lia.
Qed.

Lemma steady_upsert n c f d t :
  db_fault d = None -> counters d = Some t -> ids_drawn d ->
  (∀ r r', f r = Some r' -> row_id r' = row_id r) ->
  steady (upsert n c f d t).2.
Proof.
  intros Hup Ht Hids Hf.
  assert (rows_of d = t) as Hrows by (unfold rows_of; by rewrite Ht).
  assert (∀ t', (∀ m r0, t' !! m = Some r0 -> row_id r0 < counters_seq d + 1) ->
            steady (with_table_seq t' d)) as Hseq.
  { intros t' Ht'. split; [done|]. split; [by eexists|]. intros m r0. apply Ht'. }
  assert (∀ m r0, t !! m = Some r0 -> row_id r0 < counters_seq d + 1) as Hold.
  { intros m r0 Hm. rewrite <- Hrows in Hm. pose proof (Hids m r0 Hm). lia. }
  unfold upsert. destruct (INT_MAX <? counters_seq d).
  { split; [done|]. split; [by eexists|done]. }
  destruct (t !! n) as [r|] eqn:Hr.
  - destruct (f r) as [r'|] eqn:Hfr; cbn [snd]; apply Hseq; [|done].
    apply (ids_drawn_insert t d n r' Hids).
    + rewrite (Hf r r' Hfr). by apply (Hold n).
    + intros m r0 Hm _. by rewrite Hrows.
  - destruct (id_taken t (counters_seq d)); cbn [snd]; apply Hseq; [done|].
    apply (ids_drawn_insert t d n _ Hids); [cbn; lia|].
    intros m r0 Hm _. by rewrite Hrows.
Qed.

Lemma steady_with_table n r r' d t :
  db_fault d = None -> counters d = Some t -> ids_drawn d ->
  t !! n = Some r -> row_id r' = row_id r ->
  steady (with_table (<[n := r']> t) d).
Proof.
  intros Hup Ht Hids Hr Hid.
  assert (rows_of d = t) as Hrows by (unfold rows_of; by rewrite Ht).
  split; [done|]. split; [by eexists|]. intros m r0. cbn.
  destruct (decide (m = n)) as [->|Hne].
  - rewrite lookup_insert_eq. intros [= <-]. rewrite Hid. apply (Hids n).
    by rewrite Hrows.
  - rewrite lookup_insert_ne by done. intros Hm. apply (Hids m). by rewrite Hrows.
Qed.

Lemma steady_exec s d : steady d -> steady (exec_stmt s d).2.
Proof.
  intros Hd. pose proof Hd as (Hup & [t Ht] & Hids).
  unfold exec_stmt, on_table. rewrite Hup, Ht.
  destruct s as [| | | |n|n|n|n|n]; cbn [snd]; try done.
  - apply steady_upsert; try done. by intros r r' [= <-].
  - destruct (t !! n) as [r|] eqn:Hr; [|done].
    unfold bump. destruct (INT_MAX <=? row_count r); [done|].
    by apply (steady_with_table n r).
  - apply steady_upsert; try done. intros r r'. unfold bump.
    destruct (INT_MAX <=? row_count r); [done|]. by intros [= <-].
  - destruct (t !! n) as [r|] eqn:Hr; [|done].
    by apply (steady_with_table n r).
Qed.

Lemma exec_quiet s d :
  steady d -> s = Connect ∨ s = SelectOne ∨ s = CreateTable ∨ s = CreateIndex ->
  exec_stmt s d = (Ok [], d).
Proof.
  intros (Hup & [t Ht] & _) Hs. unfold exec_stmt, on_table. rewrite Hup, Ht.
  by destruct Hs as [->|[->|[->| ->]]].
Qed.

Lemma count_with_table t d n :
  count_or_0 (with_table t d) n = default 0 (row_count <$> t !! n).
Proof. done. Qed.

Lemma count_with_table_seq t d n :
  count_or_0 (with_table_seq t d) n = default 0 (row_count <$> t !! n).
Proof. done. Qed.

(** [UPDATE ... count + 1] where there is room for one more: the row that is
    there is counted up, and nothing else happens. *)
Lemma exec_UpdateIncrement n d :
  steady d -> count_or_0 d n + 1 ≤ INT_MAX ->
  match rows_of d !! n with
  | Some r =>
      (exec_stmt (UpdateIncrement n) d).1 = Ok [bumped (db_now d) r]
      ∧ count_or_0 (exec_stmt (UpdateIncrement n) d).2 n = count_or_0 d n + 1
  | None =>
      (exec_stmt (UpdateIncrement n) d).1 = Ok []
      ∧ (exec_stmt (UpdateIncrement n) d).2 = d
  end
  ∧ counters_seq (exec_stmt (UpdateIncrement n) d).2 = counters_seq d.
Proof.
  intros (Hup & [t Ht] & _) Hroom.
  assert (rows_of d = t) as Hrows by (unfold rows_of; by rewrite Ht).
  unfold count_or_0 in *. rewrite Hrows in *.
  unfold exec_stmt, on_table. rewrite Hup, Ht.
  destruct (t !! n) as [r|] eqn:Hr; [|done]. cbn in Hroom.
  unfold bump. rewrite (proj2 (Z.leb_gt INT_MAX (row_count r))) by lia.
  cbn [fst snd]. split; [|done]. split; [done|].
  change (rows_of (with_table (<[n:=bumped (db_now d) r]> t) d))
    with (<[n:=bumped (db_now d) r]> t).
  by rewrite lookup_insert_eq.
Qed.

(** The upsert of an increment where there is room for one more count and
    one more id: the count of the name goes up by one, one id is drawn. *)
Lemma exec_InsertOne n d :
  steady d -> count_or_0 d n + 1 ≤ INT_MAX -> counters_seq d ≤ INT_MAX ->
  (∃ r, (exec_stmt (InsertOne n) d).1 = Ok [r])
  ∧ count_or_0 (exec_stmt (InsertOne n) d).2 n = count_or_0 d n + 1
  ∧ counters_seq (exec_stmt (InsertOne n) d).2 = counters_seq d + 1.
Proof.
  intros (Hup & [t Ht] & Hids) Hroom Hseq.
  assert (rows_of d = t) as Hrows by (unfold rows_of; by rewrite Ht).
  unfold count_or_0 in *. rewrite Hrows in *.
  unfold exec_stmt, on_table, upsert. rewrite Hup, Ht.
  rewrite (proj2 (Z.ltb_ge INT_MAX (counters_seq d))) by lia.
  destruct (t !! n) as [r|] eqn:Hr; cbn in Hroom.
  - unfold bump. rewrite (proj2 (Z.leb_gt INT_MAX (row_count r))) by lia.
    cbn [fst snd]. split; [by eexists|]. split; [|done].
    change (rows_of (with_table_seq (<[n:=bumped (db_now d) r]> t) d))
      with (<[n:=bumped (db_now d) r]> t).
    by rewrite lookup_insert_eq.
  - rewrite (id_free d t Hids Ht). cbn [fst snd]. split; [by eexists|].
    split; [|done].
    match goal with |- context [with_table_seq (<[n:=?r]> t) d] =>
      change (rows_of (with_table_seq (<[n:=r]> t) d)) with (<[n:=r]> t)
    end.
    by rewrite lookup_insert_eq.
Qed.

(** ** The function's code, tracked *)

Lemma tracks_driver n j s st p (Q : result (list Row) * Process -> Z -> Z -> Prop) :
  0 ≤ j -> 0 ≤ s ->
  (∀ d, steady d ->
        count_or_0 d n + j ≤ INT_MAX -> counters_seq d + s ≤ INT_MAX + 1 ->
     Q ((exec_stmt st d).1, p)
       (j - (count_or_0 (exec_stmt st d).2 n - count_or_0 d n))
       (s - (counters_seq (exec_stmt st d).2 - counters_seq d))) ->
  tracks n 1 j s (driver st p) Q.
Proof.
  intros Hj Hs HQ. unfold driver. cbn. split; [done|]. split; [done|].
  intros d Hd Hc Hq. split; [by apply steady_exec|]. by apply HQ.
Qed.

Lemma tracks_ensureConnected n j s p (Q : result unit * Process -> Z -> Z -> Prop) :
  usable p -> 0 ≤ j -> 0 ≤ s ->
  Q (Ok tt, online p) j s -> tracks n 1 j s (ensureConnected p) Q.
Proof.
  intros Hp Hj Hs HQ. destruct p as [c k i]. unfold ensureConnected, online in *.
  destruct Hp as [Hp|Hp]; cbn in Hp; subst;
    destruct c || destruct k; cbn; (split; [done|]); (split; [done|]);
    intros d Hd _ _; rewrite exec_quiet by (by eauto); cbn;
    rewrite !Z.sub_diag, !Z.sub_0_r; by split.
Qed.

Lemma tracks_executeQuery n j s q p
    (Q : result (list Row) * Process -> Z -> Z -> Prop) :
  usable p -> 0 ≤ j -> 0 ≤ s ->
  (∀ d, steady d ->
        count_or_0 d n + j ≤ INT_MAX -> counters_seq d + s ≤ INT_MAX + 1 ->
     Q ((exec_stmt q d).1, online p)
       (j - (count_or_0 (exec_stmt q d).2 n - count_or_0 d n))
       (s - (counters_seq (exec_stmt q d).2 - counters_seq d))) ->
  tracks n 2 j s (executeQuery q p) Q.
Proof.
  intros Hp Hj Hs HQ. unfold executeQuery. apply (tracks_bind n 1 1).
  apply tracks_ensureConnected; try done. cbn [fst snd].
  apply (tracks_try_catch n 1 0). apply tracks_driver; try done.
  intros d Hd Hc Hq. cbn [fst snd]. specialize (HQ d Hd Hc Hq).
  by destruct (exec_stmt q d) as [[rows|e] d'] eqn:E.
Qed.

Lemma tracks_initTable n j s p (Q : result unit * Process -> Z -> Z -> Prop) :
  usable p -> 0 ≤ j -> 0 ≤ s ->
  Q (Ok tt, if TABLE_INIT_CACHE p then p else warm) j s ->
  tracks n 4 j s (initTable p) Q.
Proof.
  intros Hp Hj Hs HQ. unfold initTable. apply (tracks_bind n 0 4).
  cbn [get_process tracks fst snd].
  destruct (TABLE_INIT_CACHE p) eqn:Hi; [done|].
  apply (tracks_try_catch n 4 0).
  apply (tracks_bind n 2 2). apply tracks_executeQuery; try done.
  intros d Hd _ _.
  rewrite exec_quiet by eauto. cbn [fst snd]. rewrite !Z.sub_diag, !Z.sub_0_r.
  apply (tracks_bind n 2 0). apply tracks_executeQuery;
    [apply usable_online|done|done|].
  intros d' Hd' _ _.
  rewrite exec_quiet by eauto. cbn [fst snd]. rewrite !Z.sub_diag, !Z.sub_0_r. cbn.
  by destruct p as [c k i]; cbn in *; subst i.
Qed.

Lemma tracks_handle_increment n p :
  usable p ->
  tracks n 4 1 1 (handle_increment n p) (fun x j s => j = 0 ∧ 0 ≤ s ∧ ok_200 x).
Proof.
  intros Hp. unfold handle_increment. apply (tracks_bind n 2 2).
  apply tracks_executeQuery; [done|lia|lia|]. intros d Hd Hc Hq. cbn [fst snd].
  destruct (exec_UpdateIncrement n d Hd Hc) as [Hrow Hseq]. rewrite Hseq.
  destruct (rows_of d !! n) as [r|].
  - destruct Hrow as [-> ->]. cbn.
    split; [lia|]. split; [lia|]. by eexists.
  - destruct Hrow as [-> ->]. rewrite !Z.sub_diag, !Z.sub_0_r.
    apply (tracks_bind n 2 0).
    apply tracks_executeQuery; [apply usable_online|lia|lia|].
    intros d' Hd' Hc' Hq'. cbn [fst snd].
    destruct (exec_InsertOne n d' Hd' Hc') as ([r Hr] & Hcount & Hseq');
      [lia|].
    rewrite Hr, Hcount, Hseq'. cbn.
    split; [lia|]. split; [lia|]. by eexists.
Qed.

Lemma tracks_handler b name p :
  counterName_of b = Ok name ->
  action_of b = Ok "increment" ->
  invalid_name name = false ->
  usable p ->
  tracks name 8 1 1 (handler (post_event b) p)
    (fun x j s => j = 0 ∧ 0 ≤ s ∧ ok_200 x).
Proof.
  intros Hn Ha Hv Hp. unfold handler.
  change (String.eqb (httpMethod (post_event b)) "OPTIONS") with false.
  change (String.eqb (httpMethod (post_event b)) "GET") with false.
  change (String.eqb (httpMethod (post_event b)) "POST") with true.
  rewrite parse_params_post, Hn, Ha. cbv iota.
  apply (tracks_try_catch name 8 0). apply (tracks_bind name 4 4).
  apply tracks_initTable; [done|lia|lia|]. cbn [fst snd].
  apply (tracks_bind name 0 4). cbn [lift tracks fst snd].
  apply (tracks_bind name 0 4). cbn [lift tracks fst snd].
  rewrite Hv. change (String.eqb "increment" "increment") with true. cbv iota.
  eapply tracks_mono; [| |apply tracks_handle_increment]; [lia| |].
  - intros [[resp|e] p'] j s (-> & Hs & Hx); cbn [fst snd]; [done|].
    by destruct Hx as [? [? ?]].
  - by apply usable_after_init.
Qed.

(** ** Any interleaving *)

Lemma owes_nonneg n t jsb : owes n t jsb -> 0 ≤ jsb.1.1 ∧ 0 ≤ jsb.1.2.
Proof.
  destruct jsb as [[j s] b]. unfold owes. cbn [fst snd].
  destruct t as [x|st k]; cbn.
  - intros (-> & Hs & _). done.
  - destruct b; [done|]. by intros (Hj & Hs & _).
Qed.

Lemma owes_step n t jsb d :
  steady d -> owes n t jsb ->
  count_or_0 d n + jsb.1.1 ≤ INT_MAX ->
  counters_seq d + jsb.1.2 ≤ INT_MAX + 1 ->
  steady (step_thread t d).2 ∧
  ∃ jsb', owes n (step_thread t d).1 jsb'
          ∧ count_or_0 (step_thread t d).2 n + jsb'.1.1 = count_or_0 d n + jsb.1.1
          ∧ counters_seq (step_thread t d).2 + jsb'.1.2 = counters_seq d + jsb.1.2
          ∧ (jsb'.2 ≤ jsb.2 - 1)%nat.
Proof.
  intros Hd. destruct jsb as [[j s] b]. unfold owes. cbn [fst snd].
  destruct t as [a|st k]; cbn [step_thread tracks].
  - intros HQ _ _. split; [done|]. exists (j, s, 0%nat). cbn.
    split; [done|]. split; [done|]. split; lia.
  - destruct b as [|b]; [done|]. intros (Hj & Hs & Ht) Hc Hq.
    destruct (Ht d Hd Hc Hq) as [Hst Hk].
    destruct (exec_stmt st d) as [r d'] eqn:E. cbn [fst snd] in *.
    split; [done|].
    exists (j - (count_or_0 d' n - count_or_0 d n),
            s - (counters_seq d' - counters_seq d), b). cbn [fst snd].
    split; [done|]. split; [lia|]. split; lia.
Qed.

Lemma sumZ_insert (l : list Z) i x y :
  l !! i = Some x -> sumZ (<[i := y]> l) = sumZ l - x + y.
Proof.
  unfold sumZ. revert i. induction l as [|z l IH]; intros [|i] Hi; try done.
  - injection Hi as ->. cbn. lia.
  - change (<[S i:=y]> (z :: l)) with (z :: <[i:=y]> l). cbn [foldr].
    rewrite (IH i Hi). lia.
Qed.

Lemma sumZ_lookup_le (l : list Z) i x :
  Forall (fun z => 0 ≤ z) l -> l !! i = Some x -> x ≤ sumZ l.
Proof.
  unfold sumZ. intros Hl. revert i.
  induction Hl as [|z l Hz Hl IH]; intros [|i] Hi; try done.
  - injection Hi as ->. cbn.
    assert (0 ≤ foldr Z.add 0 l) by (clear -Hl; induction Hl; cbn; lia). lia.
  - cbn. specialize (IH i Hi). lia.
Qed.

Lemma budget_insert k i jsb (jbs : list (Z * Z * nat)) :
  (i < length jbs)%nat ->
  budget k (<[i := jsb]> jbs) = if decide (k = i) then jsb.2 else budget k jbs.
Proof.
  intros Hi. unfold budget. case_decide as Hk.
  - subst k. by rewrite list_lookup_insert_eq.
  - by rewrite list_lookup_insert_ne.
Qed.

Lemma pool_nonneg n (pool : Pool) jbs :
  Forall2 (owes n) pool jbs ->
  Forall (fun z => 0 ≤ z) ((fun x => x.1.1) <$> jbs)
  ∧ Forall (fun z => 0 ≤ z) ((fun x => x.1.2) <$> jbs).
Proof.
  induction 1 as [|t jsb pool jbs Ho Hall [IH1 IH2]]; cbn; [done|].
  destruct (owes_nonneg n t jsb Ho). split; by constructor.
Qed.

Lemma pool_step n i (pool : Pool) jbs d :
  steady d -> Forall2 (owes n) pool jbs ->
  count_or_0 d n + sumZ ((fun x => x.1.1) <$> jbs) ≤ INT_MAX ->
  counters_seq d + sumZ ((fun x => x.1.2) <$> jbs) ≤ INT_MAX + 1 ->
  steady (step i pool d).2 ∧
  ∃ jbs', Forall2 (owes n) (step i pool d).1 jbs'
          ∧ count_or_0 (step i pool d).2 n + sumZ ((fun x => x.1.1) <$> jbs')
            = count_or_0 d n + sumZ ((fun x => x.1.1) <$> jbs)
          ∧ counters_seq (step i pool d).2 + sumZ ((fun x => x.1.2) <$> jbs')
            = counters_seq d + sumZ ((fun x => x.1.2) <$> jbs)
          ∧ ∀ k, (budget k jbs' ≤ budget k jbs - if decide (k = i) then 1 else 0)%nat.
Proof.
  intros Hd Hall Hc Hq. unfold step.
  destruct (pool !! i) as [t|] eqn:Ht.
  - destruct (Forall2_lookup_l _ _ _ _ _ Hall Ht) as (jsb & Hjsb & Ho).
    destruct (pool_nonneg n pool jbs Hall) as [Hjs Hss].
    assert (jsb.1.1 ≤ sumZ ((fun x => x.1.1) <$> jbs)) as Hj.
    { apply (sumZ_lookup_le _ i); [done|]. by rewrite list_lookup_fmap, Hjsb. }
    assert (jsb.1.2 ≤ sumZ ((fun x => x.1.2) <$> jbs)) as Hs.
    { apply (sumZ_lookup_le _ i); [done|]. by rewrite list_lookup_fmap, Hjsb. }
    destruct (owes_step n t jsb d Hd Ho) as (Hst & jsb' & Ho' & Hsum & Hseq & Hb);
      [lia|lia|].
    destruct (step_thread t d) as [t' d'] eqn:E. cbn [fst snd] in *.
    split; [done|]. exists (<[i := jsb']> jbs).
    split; [by apply Forall2_insert|]. split; [|split].
    + rewrite list_fmap_insert.
      rewrite (sumZ_insert _ i jsb.1.1) by (by rewrite list_lookup_fmap, Hjsb). lia.
    + rewrite list_fmap_insert.
      rewrite (sumZ_insert _ i jsb.1.2) by (by rewrite list_lookup_fmap, Hjsb). lia.
    + intros k. rewrite budget_insert by (by eapply lookup_lt_Some).
      case_decide as Hk; [|lia]. subst k. unfold budget. rewrite Hjsb. cbn. lia.
  - cbn [fst snd]. split; [done|]. exists jbs. split; [done|]. split; [done|].
    split; [done|].
    intros k. case_decide as Hk; [|lia]. subst k. unfold budget.
    apply lookup_ge_None in Ht. rewrite (Forall2_length _ _ _ Hall) in Ht.
    rewrite (proj2 (lookup_ge_None jbs i)) by done.
    cbn. lia.
Qed.

Lemma occurrences_cons k i schedule :
  occurrences k (i :: schedule)
  = ((if decide (k = i) then 1 else 0) + occurrences k schedule)%nat.
Proof.
  unfold occurrences. rewrite filter_cons.
  destruct (decide (i = k)) as [->|Hne].
  - by rewrite decide_True.
  - by rewrite decide_False.
Qed.

Lemma interleave_inv n schedule (pool : Pool) jbs d :
  steady d -> Forall2 (owes n) pool jbs ->
  count_or_0 d n + sumZ ((fun x => x.1.1) <$> jbs) ≤ INT_MAX ->
  counters_seq d + sumZ ((fun x => x.1.2) <$> jbs) ≤ INT_MAX + 1 ->
  steady (interleave schedule pool d).2 ∧
  ∃ jbs', Forall2 (owes n) (interleave schedule pool d).1 jbs'
          ∧ count_or_0 (interleave schedule pool d).2 n
            + sumZ ((fun x => x.1.1) <$> jbs')
            = count_or_0 d n + sumZ ((fun x => x.1.1) <$> jbs)
          ∧ ∀ k, (budget k jbs' ≤ budget k jbs - occurrences k schedule)%nat.
Proof.
  revert pool jbs d.
  induction schedule as [|i rest IH]; intros pool jbs d Hd Hall Hc Hq.
  - cbn. split; [done|]. exists jbs. split; [done|]. split; [done|]. intros k. lia.
  - cbn [interleave].
    destruct (pool_step n i pool jbs d Hd Hall Hc Hq)
      as (Hs & jbs1 & Hall1 & Hsum1 & Hseq1 & Hb1).
    destruct (step i pool d) as [pool1 d1]. cbn [fst snd] in *.
    destruct (IH pool1 jbs1 d1 Hs Hall1) as (Hs2 & jbs2 & Hall2 & Hsum2 & Hb2);
      [lia|lia|].
    split; [done|]. exists jbs2. split; [done|]. split; [lia|].
    intros k. specialize (Hb1 k). specialize (Hb2 k).
    rewrite occurrences_cons. lia.
Qed.

Lemma owes_finished n t jsb :
  owes n t jsb -> finished t = true -> jsb.1.1 = 0 ∧ answered_200 t.
Proof.
  destruct t as [x|st k]; [|done]. unfold owes. cbn. intros (Hj & _ & Hx) _.
  split; [done|]. by exists x.
Qed.

Lemma owes_out_of_budget n t jsb : owes n t jsb -> jsb.2 = 0%nat -> finished t = true.
Proof.
  destruct t as [x|st k]; [done|]. unfold owes. intros Ht Hb. rewrite Hb in Ht. done.
Qed.

Lemma pool_finished n (pool : Pool) jbs :
  Forall2 (owes n) pool jbs -> all_finished pool = true ->
  sumZ ((fun x => x.1.1) <$> jbs) = 0 ∧ Forall answered_200 pool.
Proof.
  unfold all_finished. induction 1 as [|t jsb pool jbs Ho Hall IH]; cbn; [done|].
  intros [Ht Hrest]%andb_true_iff.
  destruct (owes_finished n t jsb Ho Ht) as [Hj Ha].
  destruct (IH Hrest) as [Hsum Hans]. split; [|by constructor].
  unfold sumZ in *. lia.
Qed.

Lemma pool_out_of_budget n (pool : Pool) jbs :
  Forall2 (owes n) pool jbs -> (∀ k, budget k jbs = 0%nat) ->
  all_finished pool = true.
Proof.
  unfold all_finished. induction 1 as [|t jsb pool jbs Ho Hall IH]; cbn; [done|].
  intros Hb. apply andb_true_iff. split.
  - apply (owes_out_of_budget n t jsb Ho). exact (Hb 0%nat).
  - apply IH. intros k. exact (Hb (S k)).
Qed.

Lemma sumZ_ones {A} (N : nat) (f : A -> Z) (x : A) :
  f x = 1 -> sumZ (f <$> replicate N x) = Z.of_nat N.
Proof.
  intros Hx. induction N as [|N IH]; [done|]. unfold sumZ in *.
  cbn [replicate fmap list_fmap foldr]. rewrite Hx.
  change (foldr Z.add 0 (list_fmap A Z f (replicate N x)))
    with (foldr Z.add 0 (f <$> replicate N x)). lia.
Qed.

(** C8. [N] increments of one valid name are in flight at once, each in a
    process of its own that can get a connection, on a store that can be
    reached and has its table, with room in the INTEGER columns for [N] more
    counts and [N] more ids. Whatever the order in which their statements
    reach the database, once all have been answered the count of the name is
    [N] more than before (exactly [N] from a counter just created with 0, or
    not yet there), and every one of them was answered 200. And they all are
    answered: a request runs at most 8 statements, so any schedule that
    gives each at least 8 steps ends with all of them done. Each increment
    is the single statement UPDATE ... count + 1, or else the single upsert,
    never a read followed by a write. *)
Theorem concurrent_increments
    (b : json) (name : string) (procs : list Process)
    (d : Database) (schedule : list nat) :
  counterName_of b = Ok name ->
  action_of b = Ok "increment" ->
  invalid_name name = false ->
  steady d ->
  Forall usable procs ->
  count_or_0 d name + Z.of_nat (length procs) ≤ INT_MAX ->
  counters_seq d + Z.of_nat (length procs) ≤ INT_MAX + 1 ->
  let pool := handler (post_event b) <$> procs in
  let final := interleave schedule pool d in
  (all_finished final.1 = true ->
     count_or_0 final.2 name = count_or_0 d name + Z.of_nat (length procs)
     ∧ Forall answered_200 final.1)
  ∧ ((∀ i, (i < length procs)%nat -> (8 ≤ occurrences i schedule)%nat) ->
     all_finished final.1 = true).
Proof.
  intros Hn Ha Hv Hd Hprocs Hc Hq pool final.
  assert (Forall2 (owes name) pool (replicate (length procs) (1, 1, 8%nat))) as Hall.
  { subst pool. clear Hc Hq.
    induction Hprocs as [|p procs Hp Hprocs IH]; cbn; constructor; [|done].
    unfold owes. cbn [fst snd]. by apply tracks_handler. }
  destruct (interleave_inv name schedule pool _ d Hd Hall)
    as (Hs & jbs & Hfin & Hsum & Hb).
  { by rewrite (sumZ_ones _ (fun x : Z * Z * nat => x.1.1)). }
  { by rewrite (sumZ_ones _ (fun x : Z * Z * nat => x.1.2)). }
  fold final in Hs, Hfin, Hsum.
  rewrite (sumZ_ones _ (fun x : Z * Z * nat => x.1.1)) in Hsum by done. split.
  - intros Hdone. destruct (pool_finished name _ _ Hfin Hdone) as [Hz Hans].
    split; [lia|done].
  - intros Hfair. apply (pool_out_of_budget name _ jbs Hfin). intros k.
    specialize (Hb k). unfold budget at 2 in Hb.
    destruct (decide (k < length procs)%nat) as [Hk|Hk].
    + specialize (Hfair k Hk). rewrite lookup_replicate_2 in Hb by done. cbn in Hb. lia.
    + rewrite (proj1 (lookup_replicate_None (length procs) (1, 1, 8%nat) k)) in Hb by lia.
      cbn in Hb. lia.
Qed.

Lemma concurrent_increments_witness :
  let b := JObj [("action", JStr "increment"); ("counterName", JStr "home")] in
  let d := mkDb None (Some {[ "home" := mkRow 1 "home" 0 "t0" "t0" ]}) 2 "t1" in
  let procs := [mkProcess false false false; warm; mkProcess false false false] in
  let schedule := [0; 1; 2; 2; 1; 0; 0; 0; 1; 2; 1; 2; 0; 1; 2; 0; 1; 2;
                   2; 2; 2; 1; 1; 1; 0; 0; 0]%nat in
  let pool := handler (post_event b) <$> procs in
  let final := interleave schedule pool d in
  (all_finished final.1 = true ->
     count_or_0 final.2 "home" = count_or_0 d "home" + Z.of_nat (length procs)
     ∧ Forall answered_200 final.1)
  ∧ ((∀ i, (i < length procs)%nat -> (8 ≤ occurrences i schedule)%nat) ->
     all_finished final.1 = true).
Proof.
  apply (concurrent_increments
           (JObj [("action", JStr "increment"); ("counterName", JStr "home")])
           "home");
    [reflexivity | reflexivity | reflexivity
    | split; [reflexivity | split; [eexists; reflexivity|]]
    | constructor; [left; reflexivity|];
      constructor; [right; reflexivity|];
      constructor; [left; reflexivity|constructor]
    | vm_compute; discriminate
    | vm_compute; discriminate].
  intros n r Hr. unfold rows_of in Hr. simpl in Hr.
  apply lookup_singleton_Some in Hr as [<- <-]. simpl. lia.
Defined.

(** Three increments of a counter that is not there yet, their statements
    interleaved: the first two both find no row to update, then both
    upsert. *)
Example three_increments_interleaved :
  let d := mkDb None (Some ∅) 1 "t0" in
  let final := interleave [0; 1; 0; 1; 0; 1; 1; 0; 2; 2; 2; 2]%nat
                 (handler (increment_event "home") <$> [warm; warm; warm]) d in
  all_finished final.1 = true ∧ count_of final.2 "home" = Some 3.
Proof. vm_compute. done. Qed.

End ConcurrencyFacts.

(* ================================================================== *)
(** * Properties of the widget *)
(* ================================================================== *)

Module WidgetFacts.
Import Widget.

Section ClientFacts.
Context {Srv : Type} (net : Request -> Srv -> Reply * Z * Srv)
        (text_number : json -> option Z).

Abbreviation CacheManager_get := (CacheManager_get Srv text_number).
Abbreviation CacheManager_set := (CacheManager_set Srv).
Abbreviation CacheManager_clear := (CacheManager_clear Srv).
Abbreviation fetchCounter := (fetchCounter Srv net text_number).
Abbreviation updateCounter := (updateCounter Srv net).
Abbreviation SessionManager_hasVisited := (SessionManager_hasVisited Srv).
Abbreviation SessionManager_markVisited := (SessionManager_markVisited Srv).
Abbreviation auto_increment := (auto_increment Srv net).
Abbreviation initCounter := (initCounter Srv net text_number).

Lemma CacheManager_get_ok key (w : World Srv) : ∃ v w', CacheManager_get key w = (Ok v, w').
Proof.
  unfold Widget.CacheManager_get, ctry, mbind, C_bind, cbind, local_getItem, getItem.
  destruct (denied (localStorage (browser w))); [by eexists _, _|].
  destruct (items (localStorage (browser w)) !! cache_key key) as [text|]; [|by eexists _, _].
  destruct (text_truthy text); cbn [negb]; [|by eexists _, _].
  unfold lift_result.
  destruct (JSON_parse text) as [parsed|e]; [|by eexists _, _].
  destruct (get_prop parsed "data") as [data|e]; [|by eexists _, _].
  destruct (get_prop parsed "timestamp") as [ts|e]; [|by eexists _, _].
  unfold Date_now.
  destruct (isExpired text_number (clock (browser w)) ts); [|by eexists _, _].
  unfold local_removeItem.
  destruct (removeItem (cache_key key) (localStorage (browser w))) as [[[]|e] st];
    by eexists _, _.
Qed.

Example cache_key_home : cache_key "home" = "netlify_counter_cache_home".
Proof. done. Qed.

Example counterName_of_page :
  counterName (Some "home") "/" = "page_home"
  ∧ counterName None "/blog/post" = "page_-blog-post".
Proof. done. Qed.

Lemma set_local_same (b : Browser) : set_local (localStorage b) b = b.
Proof. by destruct b. Qed.

Lemma world_eta (w : World Srv) : mkWorld (browser w) (server w) = w.
Proof. by destruct w. Qed.

(** [CacheManager.get] on the three states of an entry. *)
Lemma get_absent name (w : World Srv) :
  cached name w = None -> CacheManager_get name w = (Ok (Some JNull), w).
Proof.
  unfold cached, Widget.CacheManager_get, ctry, mbind, C_bind, cbind,
    local_getItem, getItem.
  intros ->. by destruct (denied (localStorage (browser w))).
Qed.

Lemma get_denied name (w : World Srv) :
  denied (localStorage (browser w)) = true ->
  CacheManager_get name w = (Ok (Some JNull), w).
Proof.
  unfold Widget.CacheManager_get, ctry, mbind, C_bind, cbind, local_getItem, getItem.
  by intros ->.
Qed.

Lemma get_young name data ts (w : World Srv) :
  denied (localStorage (browser w)) = false ->
  cached name w = Some (cache_entry data ts) ->
  clock (browser w) - ts ≤ CACHE_DURATION ->
  CacheManager_get name w = (Ok (Some data), w).
Proof.
  unfold cached, Widget.CacheManager_get, ctry, mbind, C_bind, cbind,
    local_getItem, getItem.
  intros -> -> Hage. cbn. unfold isExpired. cbn.
  by rewrite (proj2 (Z.ltb_ge _ _) Hage).
Qed.

Lemma get_old name data ts (w : World Srv) :
  denied (localStorage (browser w)) = false ->
  cached name w = Some (cache_entry data ts) ->
  CACHE_DURATION < clock (browser w) - ts ->
  CacheManager_get name w = (Ok (Some JNull), purged name w).
Proof.
  unfold cached, Widget.CacheManager_get, ctry, mbind, C_bind, cbind,
    local_getItem, getItem.
  intros Hacc -> Hage. rewrite Hacc. cbn. unfold isExpired. cbn.
  rewrite (proj2 (Z.ltb_lt _ _) Hage).
  unfold local_removeItem, purged, removeItem. by rewrite Hacc.
Qed.

(** [CacheManager.get] returns, and leaves the world as it is or without
    the entry. *)
Lemma get_frame key (w : World Srv) :
  (∃ v, CacheManager_get key w = (Ok v, w))
  ∨ CacheManager_get key w = (Ok (Some JNull), purged key w).
Proof.
  unfold Widget.CacheManager_get, ctry, mbind, C_bind, cbind, local_getItem, getItem.
  destruct (denied (localStorage (browser w))) eqn:Hacc; [left; by eexists|].
  destruct (items (localStorage (browser w)) !! cache_key key) as [text|];
    [|left; by eexists].
  destruct (text_truthy text); cbn [negb]; [|left; by eexists].
  unfold lift_result.
  destruct (JSON_parse text) as [parsed|e]; [|left; by eexists].
  destruct (get_prop parsed "data") as [data|e]; [|left; by eexists].
  destruct (get_prop parsed "timestamp") as [ts|e]; [|left; by eexists].
  unfold Date_now.
  destruct (isExpired text_number (clock (browser w)) ts); [|left; by eexists].
  right. unfold local_removeItem, purged, removeItem. by rewrite Hacc.
Qed.

Lemma set_ok key data (w : World Srv) :
  ∃ w', CacheManager_set key data w = (Ok tt, w')
        ∧ server w' = server w
        ∧ sent (browser w') = sent (browser w)
        ∧ clock (browser w') = clock (browser w)
        ∧ sessionStorage (browser w') = sessionStorage (browser w)
        ∧ cached key w' =
            if denied (localStorage (browser w)) || full (localStorage (browser w))
            then cached key w
            else Some (JSON_stringify_props
                         [("data", data); ("timestamp", Some (JNum (clock (browser w))))]).
Proof.
  unfold Widget.CacheManager_set, ctry, mbind, C_bind, cbind, Date_now,
    local_setItem, setItem, cached.
  destruct (denied (localStorage (browser w))); cbn.
  { rewrite set_local_same, world_eta. by eexists. }
  destruct (full (localStorage (browser w))); cbn.
  { rewrite set_local_same, world_eta. by eexists. }
  eexists. split; [done|]. cbn. by rewrite lookup_insert_eq.
Qed.


Lemma res_json_reply status text (w : World Srv) :
  res_json Srv (status, text) w
  = (match reply_json (NetReply status text) with
     | Some d => Ok d
     | None => Throw (SyntaxError match text with
                                  | Some _ => "Unexpected token in JSON"
                                  | None => "Unexpected end of JSON input"
                                  end)
     end, w).
Proof. by destruct text as [[j|s]|]. Qed.

(** [fetchCounter] when the cache has a value to give. *)
Lemma fetchCounter_hit name d (w w0 : World Srv) :
  CacheManager_get name w = (Ok (Some d), w0) -> truthy d = true ->
  fetchCounter name w = (Ok d, w0).
Proof.
  intros Hget Ht. unfold Widget.fetchCounter, mbind, C_bind, cbind.
  rewrite Hget. cbn. by rewrite Ht.
Qed.

(** [fetchCounter] when it has not: one GET, and the body stored if it
    is JSON. *)
Lemma fetchCounter_miss name v (w w0 : World Srv) reply elapsed srv :
  CacheManager_get name w = (Ok v, w0) -> truthy_val v = false ->
  net (get_request name) (server w0) = (reply, elapsed, srv) ->
  fetchCounter name w =
  match reply_json reply with
  | Some d => (Ok d, (CacheManager_set name (Some d)
                        (answered (get_request name) elapsed srv w0)).2)
  | None => (Ok JNull, answered (get_request name) elapsed srv w0)
  end.
Proof.
  intros Hget Hv Hnet. unfold Widget.fetchCounter, mbind, C_bind, cbind.
  rewrite Hget, Hv. unfold ctry, fetch. rewrite Hnet.
  destruct reply as [msg|status text]; [done|].
  rewrite res_json_reply.
  destruct (reply_json (NetReply status text)) as [d|]; [|done].
  destruct (set_ok name (Some d) (answered (get_request name) elapsed srv w0))
    as (w' & Hset & _).
  unfold answered in *. by rewrite Hset.
Qed.

(** [updateCounter]: one POST; the entry is removed when the body is JSON;
    [null] when it is not, or when the entry cannot be removed. *)
Lemma updateCounter_eval name action (w : World Srv) reply elapsed srv :
  net (post_request action name) (server w) = (reply, elapsed, srv) ->
  updateCounter name action w =
  let w1 := answered (post_request action name) elapsed srv w in
  match reply_json reply with
  | Some d => if denied (localStorage (browser w)) then (Ok JNull, w1)
              else (Ok d, purged name w1)
  | None => (Ok JNull, w1)
  end.
Proof.
  intros Hnet. unfold Widget.updateCounter, ctry, mbind, C_bind, cbind, fetch.
  rewrite Hnet. cbv zeta.
  destruct reply as [msg|status text]; [done|].
  rewrite res_json_reply.
  destruct (reply_json (NetReply status text)) as [d|]; [|done].
  unfold Widget.CacheManager_clear, local_removeItem, purged, answered, removeItem.
  cbn [browser server localStorage after_request].
  destruct (denied (localStorage (browser w))) eqn:Hacc; cbn.
  - by destruct w as [[] ?].
  - done.
Qed.


Lemma cache_key_inj k1 k2 : cache_key k1 = cache_key k2 -> k1 = k2.
Proof. unfold cache_key, CACHE_KEY. cbn. by intros [= H]. Qed.

Lemma cache_entry_inj d1 t1 d2 t2 :
  cache_entry d1 t1 = cache_entry d2 t2 -> d1 = d2 ∧ t1 = t2.
Proof. unfold cache_entry, JSON_stringify_props. cbn. by intros [= -> ->]. Qed.

Lemma snoc_ne {A} (l : list A) x : (l ++ [x])%list ≠ l.
Proof.
  intros H. apply (f_equal length) in H. rewrite length_app in H. cbn in H. lia.
Qed.

Lemma purged_cached name (w : World Srv) :
  denied (localStorage (browser w)) = false -> cached name (purged name w) = None.
Proof.
  intros Hacc. unfold cached, purged, removeItem. rewrite Hacc. cbn.
  apply lookup_delete_eq.
Qed.

Lemma purged_frame name (w : World Srv) :
  server (purged name w) = server w
  ∧ sent (browser (purged name w)) = sent (browser w)
  ∧ clock (browser (purged name w)) = clock (browser w)
  ∧ denied (localStorage (browser (purged name w))) = denied (localStorage (browser w))
  ∧ full (localStorage (browser (purged name w))) = full (localStorage (browser w))
  ∧ sessionStorage (browser (purged name w)) = sessionStorage (browser w)
  ∧ dom (browser (purged name w)) = dom (browser w).
Proof.
  unfold purged, removeItem. by destruct (denied (localStorage (browser w))) eqn:E.
Qed.

(** What [CacheManager.get] leaves of the world. *)
Lemma get_world key v (w w0 : World Srv) :
  CacheManager_get key w = (Ok v, w0) ->
  server w0 = server w
  ∧ sent (browser w0) = sent (browser w)
  ∧ clock (browser w0) = clock (browser w)
  ∧ denied (localStorage (browser w0)) = denied (localStorage (browser w))
  ∧ full (localStorage (browser w0)) = full (localStorage (browser w))
  ∧ sessionStorage (browser w0) = sessionStorage (browser w)
  ∧ dom (browser w0) = dom (browser w).
Proof.
  intros Hget. destruct (get_frame key w) as [[v' H]|H]; rewrite H in Hget;
    injection Hget as _ <-; [done|apply purged_frame].
Qed.

(** C7 (as amended). With [localStorage] readable: an entry older than the
    5-minute TTL is treated as absent and removed by the access that finds
    it (nothing sweeps entries otherwise); an entry not older than the TTL
    (its age may be exactly the TTL) is left alone and, when its value is
    truthy, returned by [fetchCounter] without a request. For a cache that
    has no entry or one written by [CacheManager.set], [fetchCounter] sends
    no request exactly when there is an entry with a truthy value that is not
    older than the TTL. Otherwise it sends the GET: a JSON body is returned
    and stored under the time of the answer when the storage takes it, and
    without a JSON body (the transport failed, or the body does not parse)
    the result is [null] and the storage is as the access left it, an
    unexpired entry included. The access to one name never touches the entry
    of another, expired or not. *)
Theorem fetchCounter_cache_policy (name : string) (w : World Srv) :
  denied (localStorage (browser w)) = false ->
  (∀ data ts, cached name w = Some (cache_entry data ts) ->
     CACHE_DURATION < clock (browser w) - ts ->
     CacheManager_get name w = (Ok (Some JNull), purged name w)
     ∧ cached name (purged name w) = None)
  ∧ (∀ data ts, cached name w = Some (cache_entry data ts) ->
       clock (browser w) - ts ≤ CACHE_DURATION ->
       CacheManager_get name w = (Ok (Some data), w)
       ∧ (truthy data = true -> fetchCounter name w = (Ok data, w)))
  ∧ ((cached name w = None ∨ ∃ data ts, cached name w = Some (cache_entry data ts)) ->
       (sent (browser (fetchCounter name w).2) = sent (browser w)
        ↔ ∃ data ts, cached name w = Some (cache_entry data ts)
                     ∧ truthy data = true
                     ∧ clock (browser w) - ts ≤ CACHE_DURATION))
  ∧ (∀ v w0 reply elapsed srv,
       CacheManager_get name w = (Ok v, w0) -> truthy_val v = false ->
       net (get_request name) (server w0) = (reply, elapsed, srv) ->
       ∃ w1, fetchCounter name w = (Ok (default JNull (reply_json reply)), w1)
             ∧ sent (browser w1) = (sent (browser w) ++ [get_request name])%list
             ∧ server w1 = srv
             ∧ match reply_json reply with
               | Some d =>
                   cached name w1
                   = if full (localStorage (browser w)) then cached name w0
                     else Some (cache_entry d (clock (browser w) + elapsed))
               | None => localStorage (browser w1) = localStorage (browser w0)
               end)
  ∧ (∀ other, other ≠ name ->
       cached name (CacheManager_get other w).2 = cached name w).
Proof.
  intros Hacc.
  assert (∀ v w0 reply elapsed srv,
       CacheManager_get name w = (Ok v, w0) -> truthy_val v = false ->
       net (get_request name) (server w0) = (reply, elapsed, srv) ->
       ∃ w1, fetchCounter name w = (Ok (default JNull (reply_json reply)), w1)
             ∧ sent (browser w1) = (sent (browser w) ++ [get_request name])%list
             ∧ server w1 = srv
             ∧ match reply_json reply with
               | Some d =>
                   cached name w1
                   = if full (localStorage (browser w)) then cached name w0
                     else Some (cache_entry d (clock (browser w) + elapsed))
               | None => localStorage (browser w1) = localStorage (browser w0)
               end) as Hmiss.
  { intros v w0 reply elapsed srv Hget Hv Hnet.
    rewrite (fetchCounter_miss name v w w0 reply elapsed srv Hget Hv Hnet).
    destruct (get_world name v w w0 Hget) as (_ & Hsent & Hclock & Hden & Hfull & _).
    destruct (reply_json reply) as [d|].
    - destruct (set_ok name (Some d) (answered (get_request name) elapsed srv w0))
        as (w1 & Hset & Hsrv & Hsent1 & _ & _ & Hc).
      rewrite Hset. exists w1. split; [done|].
      split; [by rewrite Hsent1; cbn; rewrite Hsent|]. split; [done|].
      rewrite Hc. cbn [answered browser after_request localStorage clock].
      rewrite Hden, Hacc, Hfull, Hclock. cbn [orb].
      by destruct (full (localStorage (browser w))).
    - eexists. split; [done|]. cbn. by rewrite Hsent. }
  split; [|split; [|split; [|split; [exact Hmiss|]]]].
  4:{ intros other Hne.
      destruct (get_frame other w) as [[v Hg]|Hg]; rewrite Hg; [done|].
      unfold cached, purged, removeItem. rewrite Hacc. cbn.
      apply lookup_delete_ne. by intros ?%cache_key_inj. }
  - intros data ts Hc Hage. split; [by apply (get_old name data ts)|].
    by apply purged_cached.
  - intros data ts Hc Hage.
    pose proof (get_young name data ts w Hacc Hc Hage) as Hget.
    split; [done|]. intros Ht. by apply (fetchCounter_hit name data w w).
  - intros Hwf.
    assert (∀ v w0, CacheManager_get name w = (Ok v, w0) -> truthy_val v = false ->
                    sent (browser (fetchCounter name w).2) ≠ sent (browser w)) as Hno.
    { intros v w0 Hget Hv.
      destruct (net (get_request name) (server w0)) as [[reply elapsed] srv] eqn:Hnet.
      destruct (Hmiss v w0 reply elapsed srv Hget Hv Hnet) as (w1 & Hf & Hs & _).
      rewrite Hf. cbn [snd]. rewrite Hs. apply snoc_ne. }
    destruct Hwf as [Hnone|(data & ts & Hc)].
    + split.
      * intros Hsent. by destruct (Hno _ _ (get_absent name w Hnone) eq_refl).
      * intros (data & ts & Hc & _). by rewrite Hnone in Hc.
    + destruct (Z_le_gt_dec (clock (browser w) - ts) CACHE_DURATION) as [Hage|Hage].
      * pose proof (get_young name data ts w Hacc Hc Hage) as Hget.
        destruct (truthy data) eqn:Ht.
        -- rewrite (fetchCounter_hit name data w w Hget Ht). split; [|done].
           intros _. by exists data, ts.
        -- split.
           ++ intros Hsent. by destruct (Hno _ _ Hget Ht).
           ++ intros (data' & ts' & Hc' & Ht' & _). rewrite Hc in Hc'.
              assert (cache_entry data ts = cache_entry data' ts') as Heq
                by congruence.
              apply cache_entry_inj in Heq as [-> _]. congruence.
      * split.
        -- intros Hsent.
           by destruct (Hno _ _ (get_old name data ts w Hacc Hc ltac:(lia)) eq_refl).
        -- intros (data' & ts' & Hc' & _ & Hage'). rewrite Hc in Hc'.
           assert (cache_entry data ts = cache_entry data' ts') as Heq
             by congruence.
           apply cache_entry_inj in Heq as [_ ->]. lia.
Qed.


Lemma later_frame dt srv' (w : World Srv) name :
  cached name (later dt srv' w) = cached name w
  ∧ denied (localStorage (browser (later dt srv' w))) = denied (localStorage (browser w))
  ∧ clock (browser (later dt srv' w)) = clock (browser w) + dt
  ∧ sent (browser (later dt srv' w)) = sent (browser w).
Proof. done. Qed.

(** C1 (as amended). With [localStorage] readable and writable: a truthy
    value that [fetchCounter] has fetched from the service is returned again,
    without a request, by every call made up to 5 minutes after it was
    stored. An [updateCounter] whose reply has a JSON body removes the entry
    and stores nothing in its place, so the next [fetchCounter], however soon
    it comes, sends a GET to the service. An [updateCounter] that got no JSON
    body returns [null] and leaves the entry. *)
Theorem cache_reuse_and_invalidation (name action : string) (w : World Srv) :
  denied (localStorage (browser w)) = false ->
  full (localStorage (browser w)) = false ->
  (∀ v w0 reply elapsed srv d,
     CacheManager_get name w = (Ok v, w0) -> truthy_val v = false ->
     net (get_request name) (server w0) = (reply, elapsed, srv) ->
     reply_json reply = Some d -> truthy d = true ->
     ∃ w1, fetchCounter name w = (Ok d, w1)
           ∧ ∀ dt srv', dt ≤ CACHE_DURATION ->
               fetchCounter name (later dt srv' w1) = (Ok d, later dt srv' w1))
  ∧ (∀ reply elapsed srv d,
       net (post_request action name) (server w) = (reply, elapsed, srv) ->
       reply_json reply = Some d ->
       ∃ w1, updateCounter name action w = (Ok d, w1)
             ∧ cached name w1 = None
             ∧ ∀ dt srv',
                 sent (browser (fetchCounter name (later dt srv' w1)).2)
                 = (sent (browser w1) ++ [get_request name])%list)
  ∧ (∀ reply elapsed srv,
       net (post_request action name) (server w) = (reply, elapsed, srv) ->
       reply_json reply = None ->
       ∃ w1, updateCounter name action w = (Ok JNull, w1)
             ∧ cached name w1 = cached name w).
Proof.
  intros Hacc Hfull. split; [|split].
  - intros v w0 reply elapsed srv d Hget Hv Hnet Hd Ht.
    rewrite (fetchCounter_miss name v w w0 reply elapsed srv Hget Hv Hnet), Hd.
    destruct (get_world name v w w0 Hget) as (_ & _ & Hclock & Hden & Hfull0 & _).
    destruct (set_ok name (Some d) (answered (get_request name) elapsed srv w0))
      as (w1 & Hset & _ & _ & Hclock1 & _ & Hc).
    rewrite Hset. exists w1. split; [done|]. intros dt srv' Hdt.
    cbn [answered browser after_request localStorage clock] in Hc, Hclock1.
    rewrite Hden, Hacc, Hfull0, Hfull in Hc. cbn [orb] in Hc.
    assert (denied (localStorage (browser w1)) = false) as Hacc1.
    { revert Hset. unfold Widget.CacheManager_set, ctry, mbind, C_bind, cbind,
        Date_now, local_setItem, setItem, answered.
      cbn [browser after_request localStorage]. rewrite Hden, Hacc, Hfull0, Hfull.
      by intros [= <-]. }
    apply (fetchCounter_hit name d _ _); [|done].
    apply (get_young name d (clock (browser w0) + elapsed)); [done|done|].
    cbn [later browser advance clock]. rewrite Hclock1. lia.
  - intros reply elapsed srv d Hnet Hd.
    rewrite (updateCounter_eval name action w reply elapsed srv Hnet). cbv zeta.
    rewrite Hd, Hacc. eexists. split; [reflexivity|].
    set (w1 := purged name (answered (post_request action name) elapsed srv w)).
    assert (cached name w1 = None) as Hc by (by apply purged_cached).
    split; [done|]. intros dt srv'.
    destruct (net (get_request name) (server (later dt srv' w1)))
      as [[reply' elapsed'] srv''] eqn:Hnet'.
    rewrite (fetchCounter_miss name (Some JNull) (later dt srv' w1) (later dt srv' w1)
               reply' elapsed' srv''
               (get_absent name (later dt srv' w1) Hc) eq_refl Hnet').
    destruct (reply_json reply') as [d'|]; [|done].
    destruct (set_ok name (Some d')
                (answered (get_request name) elapsed' srv'' (later dt srv' w1)))
      as (w2 & Hset & _ & Hsent & _).
    by rewrite Hset.
  - intros reply elapsed srv Hnet Hd.
    rewrite (updateCounter_eval name action w reply elapsed srv Hnet). cbv zeta.
    rewrite Hd. by eexists.
Qed.


(** What [fetchCounter] and [updateCounter] return. A reply with a JSON
    body is returned as it is, whatever its status: by [fetchCounter] when
    the cache had nothing to give, and by [updateCounter], which then
    removes the cache entry, when [localStorage] can be used. The error
    bodies of the function are truthy objects without a [count]. [null]
    comes back when the transport failed or the body is not JSON, when the
    body is the JSON [null], and, from [updateCounter], when [localStorage]
    cannot be used: the one case in which a reply that was parsed is lost,
    [CacheManager.clear] being without the [try] that [get] and [set]
    have. *)
Lemma replies_returned_whatever_the_status (name action : string) (w : World Srv) :
  (∀ v w0 status d elapsed srv,
     CacheManager_get name w = (Ok v, w0) -> truthy_val v = false ->
     net (get_request name) (server w0)
     = (NetReply status (Some (Parses d)), elapsed, srv) ->
     (fetchCounter name w).1 = Ok d)
  ∧ (∀ status d elapsed srv,
       net (post_request action name) (server w)
       = (NetReply status (Some (Parses d)), elapsed, srv) ->
       denied (localStorage (browser w)) = false ->
       ∃ w1, updateCounter name action w = (Ok d, w1) ∧ cached name w1 = None)
  ∧ (∀ msg, truthy (Server.error_body msg) = true
            ∧ get_prop (Server.error_body msg) "count" = Ok None)
  ∧ (∀ e, ∃ j, Server.resp_body (Server.server_error e) = Some (Parses j)
               ∧ truthy j = true ∧ get_prop j "count" = Ok None)
  ∧ ((fetchCounter name w).1 = Ok JNull ->
       ∃ v w0, CacheManager_get name w = (Ok v, w0) ∧ truthy_val v = false
               ∧ (reply_json (net (get_request name) (server w0)).1.1 = None
                  ∨ reply_json (net (get_request name) (server w0)).1.1 = Some JNull))
  ∧ ((updateCounter name action w).1 = Ok JNull ->
       reply_json (net (post_request action name) (server w)).1.1 = None
       ∨ reply_json (net (post_request action name) (server w)).1.1 = Some JNull
       ∨ denied (localStorage (browser w)) = true).
Proof.
  split; [|split; [|split; [|split; [|split]]]].
  - intros v w0 status d elapsed srv Hget Hv Hnet.
    by rewrite (fetchCounter_miss name v w w0 _ _ _ Hget Hv Hnet).
  - intros status d elapsed srv Hnet Hacc.
    rewrite (updateCounter_eval name action w _ _ _ Hnet). cbv zeta.
    cbn [reply_json]. rewrite Hacc. eexists. split; [done|]. by apply purged_cached.
  - done.
  - intros e. by eexists.
  - destruct (get_frame name w) as [[v Hget]|Hget].
    + destruct (truthy_val v) eqn:Hv.
      * destruct v as [d|]; [|done].
        rewrite (fetchCounter_hit name d w w Hget Hv). cbn. intros [= ->]. done.
      * intros Hnull. exists v, w. split; [done|]. split; [done|].
        destruct (net (get_request name) (server w)) as [[reply elapsed] srv] eqn:Hnet.
        rewrite (fetchCounter_miss name v w w _ _ _ Hget Hv Hnet) in Hnull.
        cbn [fst]. destruct (reply_json reply) as [d|]; [|by left].
        right. cbn in Hnull. congruence.
    + intros Hnull. exists (Some JNull), (purged name w). split; [done|]. split; [done|].
      destruct (net (get_request name) (server (purged name w)))
        as [[reply elapsed] srv] eqn:Hnet.
      rewrite (fetchCounter_miss name _ w _ _ _ _ Hget eq_refl Hnet) in Hnull.
      cbn [fst]. destruct (reply_json reply) as [d|]; [|by left].
      right. cbn in Hnull. congruence.
  - destruct (net (post_request action name) (server w)) as [[reply elapsed] srv] eqn:Hnet.
    rewrite (updateCounter_eval name action w _ _ _ Hnet). cbv zeta. cbn [fst].
    destruct (reply_json reply) as [d|]; [|by left].
    destruct (denied (localStorage (browser w))); [by right; right|].
    cbn. intros [= ->]. by right; left.
Qed.


Lemma fetchCounter_ok name (w : World Srv) : ∃ j w', fetchCounter name w = (Ok j, w').
Proof.
  destruct (CacheManager_get_ok name w) as (v & w0 & Hget).
  destruct (truthy_val v) eqn:Hv.
  - destruct v as [d|]; [|done]. rewrite (fetchCounter_hit name d w w0 Hget Hv). eauto.
  - destruct (net (get_request name) (server w0)) as [[reply elapsed] srv] eqn:Hnet.
    rewrite (fetchCounter_miss name v w w0 _ _ _ Hget Hv Hnet).
    destruct (reply_json reply); eauto.
Qed.

Lemma updateCounter_ok name action (w : World Srv) :
  ∃ j w', updateCounter name action w = (Ok j, w').
Proof.
  destruct (net (post_request action name) (server w)) as [[reply elapsed] srv] eqn:Hnet.
  rewrite (updateCounter_eval name action w _ _ _ Hnet). cbv zeta.
  destruct (reply_json reply); [|eauto].
  destruct (denied (localStorage (browser w))); eauto.
Qed.

Lemma hasVisited_throws name (w : World Srv) :
  (∃ e, (SessionManager_hasVisited name w).1 = Throw e)
  ↔ session_broken (sessionStorage (browser w)).
Proof.
  unfold Widget.SessionManager_hasVisited, mbind, C_bind, cbind, session_getItem,
    getItem, session_broken, lift_result.
  destruct (denied (sessionStorage (browser w))) eqn:Hden.
  { cbn. split; [by left|]. intros _. by eexists. }
  destruct (items (sessionStorage (browser w)) !! SESSION_KEY) as [[j|s]|] eqn:Hit; cbn.
  - destruct j; cbn; naive_solver.
  - destruct (String.eqb_spec s "") as [->|Hs]; cbn; naive_solver.
  - naive_solver.
Qed.


Lemma mark_throws visited name :
  (∃ e, mark visited name = Throw e)
  ↔ visited = JNull ∨ (is_primitive visited = true ∧ name ≠ "__proto__").
Proof.
  destruct visited; cbn; try naive_solver;
    destruct (String.eqb_spec name "__proto__"); naive_solver.
Qed.

Lemma markVisited_throws name (w : World Srv) :
  (∃ e, (SessionManager_markVisited name w).1 = Throw e)
  ↔ session_broken (sessionStorage (browser w))
    ∨ (session_primitive (sessionStorage (browser w)) ∧ name ≠ "__proto__")
    ∨ full (sessionStorage (browser w)) = true.
Proof.
  unfold Widget.SessionManager_markVisited, mbind, C_bind, cbind, session_getItem,
    session_setItem, setItem, getItem, session_broken, session_primitive,
    lift_result.
  destruct (denied (sessionStorage (browser w))) eqn:Hden.
  { cbn. split; [by left; left|]. intros _. by eexists. }
  destruct (full (sessionStorage (browser w))) eqn:Hfull;
  destruct (items (sessionStorage (browser w)) !! SESSION_KEY) as [[j|s]|] eqn:Hit; cbn.
  - destruct j; cbn; try naive_solver;
      destruct (String.eqb_spec name "__proto__"); cbn; naive_solver.
  - destruct (String.eqb_spec s "") as [->|Hs]; cbn; naive_solver.
  - naive_solver.
  - destruct j; cbn; try naive_solver;
      destruct (String.eqb_spec name "__proto__"); cbn; naive_solver.
  - destruct (String.eqb_spec s "") as [->|Hs]; cbn; naive_solver.
  - naive_solver.
Qed.

(** [initCounter] has a handler around all it does with the helpers. *)
Lemma initCounter_ok name (w : World Srv) : ∃ w', initCounter name w = (Ok tt, w').
Proof.
  unfold Widget.initCounter, mbind, C_bind, cbind, get_browser.
  destruct (has_container (dom (browser w))); cbn [negb]; [|by eexists].
  unfold update_browser at 1. unfold ctry.
  match goal with |- context [fetchCounter name ?w0] =>
    destruct (fetchCounter_ok name w0) as (j & w1 & ->)
  end.
  destruct (truthy j); cbn [negb]; [|by eexists].
  unfold lift_result. destruct (get_prop j "count") as [c|e]; [|by eexists].
  unfold update_browser at 1.
  match goal with |- context [SessionManager_hasVisited name ?w2] =>
    destruct (SessionManager_hasVisited name w2) as [[[]|e] w3]
  end; by eexists.
Qed.

(** C4 (as amended). [CacheManager.get], [CacheManager.set], [fetchCounter]
    and [updateCounter] return whatever the storage holds or does and
    whatever the network does: a storage that cannot be read gives [null]
    and is left alone, a transport failure gives [null]. The two operations
    of [SessionManager] have no handler of their own: they throw exactly
    when the session storage cannot be read or holds a text that is not JSON
    or the JSON [null], and [markVisited] also when the storage is full or
    holds the text of a number, a boolean or a string, on which no property
    can be created (for the name [__proto__] none is, and nothing is
    thrown). [initCounter], which calls [hasVisited] inside its own handler,
    returns all the same. *)
Theorem cache_and_fetch_never_throw
    (key name action : string) (data : jsval) (w : World Srv) :
  (∃ v w', CacheManager_get key w = (Ok v, w'))
  ∧ (∃ w', CacheManager_set key data w = (Ok tt, w'))
  ∧ (∃ j w', fetchCounter name w = (Ok j, w'))
  ∧ (∃ j w', updateCounter name action w = (Ok j, w'))
  ∧ (denied (localStorage (browser w)) = true ->
       CacheManager_get key w = (Ok (Some JNull), w)
       ∧ CacheManager_set key data w = (Ok tt, w))
  ∧ (∀ msg elapsed srv,
       net (post_request action name) (server w) = (NetFail msg, elapsed, srv) ->
       (updateCounter name action w).1 = Ok JNull)
  ∧ (∀ v w0 msg elapsed srv,
       CacheManager_get name w = (Ok v, w0) -> truthy_val v = false ->
       net (get_request name) (server w0) = (NetFail msg, elapsed, srv) ->
       (fetchCounter name w).1 = Ok JNull)
  ∧ ((∃ e, (SessionManager_hasVisited name w).1 = Throw e)
     ↔ session_broken (sessionStorage (browser w)))
  ∧ ((∃ e, (SessionManager_markVisited name w).1 = Throw e)
     ↔ session_broken (sessionStorage (browser w))
       ∨ (session_primitive (sessionStorage (browser w)) ∧ name ≠ "__proto__")
       ∨ full (sessionStorage (browser w)) = true)
  ∧ (∃ w', initCounter name w = (Ok tt, w')).
Proof.
  split; [apply CacheManager_get_ok|].
  split; [destruct (set_ok key data w) as (w' & H & _); eauto|].
  split; [apply fetchCounter_ok|].
  split; [apply updateCounter_ok|].
  split.
  { intros Hden. split; [by apply get_denied|].
    unfold Widget.CacheManager_set, ctry, mbind, C_bind, cbind, Date_now,
      local_setItem, setItem.
    rewrite Hden. cbn. by rewrite set_local_same, world_eta. }
  split.
  { intros msg elapsed srv Hnet.
    by rewrite (updateCounter_eval name action w _ _ _ Hnet). }
  split.
  { intros v w0 msg elapsed srv Hget Hv Hnet.
    by rewrite (fetchCounter_miss name v w w0 _ _ _ Hget Hv Hnet). }
  split; [apply hasVisited_throws|].
  split; [apply markVisited_throws|apply initCounter_ok].
Qed.


Lemma assoc_set_eq {A} k (v : A) l : assoc k (assoc_set k v l) = Some v.
Proof.
  induction l as [|[k' v'] l IH]; cbn.
  - by rewrite String.eqb_refl.
  - destruct (String.eqb k k') eqn:E; cbn; by rewrite ?String.eqb_refl, ?E.
Qed.

Lemma mark_object fields name :
  name ≠ "__proto__" ->
  ∃ fields', mark (JObj fields) name = Ok (JObj fields')
             ∧ is_marked (JObj fields') name = Ok true.
Proof.
  intros Hn. apply String.eqb_neq in Hn. cbn. rewrite Hn. cbn.
  eexists. split; [done|]. cbn. by rewrite assoc_set_eq.
Qed.

(** On a sound session storage [markVisited] sets the flag. *)
Lemma markVisited_sets name (w : World Srv) :
  session_sound (sessionStorage (browser w)) -> name ≠ "__proto__" ->
  ∃ w', SessionManager_markVisited name w = (Ok tt, w')
        ∧ (SessionManager_hasVisited name w').1 = Ok true
        ∧ dom (browser w') = dom (browser w)
        ∧ localStorage (browser w') = localStorage (browser w)
        ∧ sent (browser w') = sent (browser w).
Proof.
  intros (Hden & Hfull & Hit) Hn.
  unfold Widget.SessionManager_markVisited, Widget.SessionManager_hasVisited,
    mbind, C_bind, cbind, session_getItem, session_setItem, setItem, getItem,
    lift_result.
  rewrite Hden, Hfull.
  assert (∃ fields, visited_object (items (sessionStorage (browser w)) !! SESSION_KEY)
                    = Ok (JObj fields)) as [fields ->].
  { destruct Hit as [->|[fields ->]]; by eexists. }
  destruct (mark_object fields name Hn) as (fields' & -> & Hm).
  eexists. split; [done|]. cbn -[is_marked].
  rewrite ?Hden, lookup_insert_eq. cbn -[is_marked]. by rewrite Hm.
Qed.

(** What the timer's callback does, with [localStorage] usable. Its guard
    [if (updated)] looks at the body of the reply only, never at the status:
    when the reply to the increment has a truthy JSON body, be it the row or
    an error body, the span gets the [count] property of that body and
    [markVisited] sets the session flag; if the span is gone the callback
    throws before [markVisited]. When the reply has no JSON body (transport
    failure, unparsable body) or a falsy one, the callback does nothing
    more: [markVisited] is not called and the session storage is as it
    was. *)
Lemma auto_increment_marks_on_truthy_reply
    (name : string) (w : World Srv) (reply : Reply) (elapsed : Z) (srv : Srv) :
  net (post_request "increment" name) (server w) = (reply, elapsed, srv) ->
  denied (localStorage (browser w)) = false ->
  name ≠ "__proto__" ->
  let w1 := answered (post_request "increment" name) elapsed srv w in
  (∀ d, reply_json reply = Some d -> truthy d = true ->
        has_span (dom (browser w)) ->
        session_sound (sessionStorage (browser w)) ->
        ∃ w2 c, auto_increment name w = (Ok tt, w2)
                ∧ get_prop d "count" = Ok c
                ∧ view (dom (browser w2)) = Counted c
                ∧ (SessionManager_hasVisited name w2).1 = Ok true)
  ∧ (∀ d, reply_json reply = Some d -> truthy d = true ->
          ¬ has_span (dom (browser w)) ->
          ∃ e, auto_increment name w = (Throw e, purged name w1))
  ∧ (∀ d, reply_json reply = Some d -> truthy d = false ->
          auto_increment name w = (Ok tt, purged name w1))
  ∧ (reply_json reply = None -> auto_increment name w = (Ok tt, w1))
  ∧ sessionStorage (browser (purged name w1)) = sessionStorage (browser w)
  ∧ sessionStorage (browser w1) = sessionStorage (browser w).
Proof.
  intros Hnet Hacc Hn w1.
  pose proof (updateCounter_eval name "increment" w reply elapsed srv Hnet) as Hup.
  cbv zeta in Hup. fold w1 in Hup. rewrite Hacc in Hup.
  destruct (purged_frame name w1) as (_ & _ & _ & _ & _ & Hsess & Hdom).
  split; [|split; [|split; [|split; [|split]]]]; try done.
  - intros d Hd Ht (Hcont & c0 & Hview) Hsound.
    rewrite Hd in Hup.
    unfold Widget.auto_increment, mbind, C_bind, cbind. rewrite Hup, Ht.
    assert (∃ c, get_prop d "count" = Ok c) as [c Hc].
    { destruct d; cbn; eauto. done. }
    unfold lift_result. rewrite Hc.
    unfold set_number_text, mbind, C_bind, cbind, get_browser.
    rewrite Hdom. cbn [w1 answered browser after_request dom].
    rewrite Hcont, Hview. unfold update_browser.
    match goal with |- context [SessionManager_markVisited name ?w'] =>
      destruct (markVisited_sets name w') as (w2 & Hmark & Hvis & Hdom2 & _)
    end;
      [change (session_sound (sessionStorage (browser (purged name w1))));
       by rewrite Hsess|done|].
    rewrite Hmark. exists w2, c. split; [done|]. split; [done|]. split; [|done].
    rewrite Hdom2. done.
  - intros d Hd Ht Hspan. rewrite Hd in Hup.
    unfold Widget.auto_increment, mbind, C_bind, cbind. rewrite Hup, Ht.
    assert (∃ c, get_prop d "count" = Ok c) as [c Hc].
    { destruct d; cbn; eauto. done. }
    unfold lift_result. rewrite Hc.
    unfold set_number_text, mbind, C_bind, cbind, get_browser.
    rewrite Hdom. cbn [w1 answered browser after_request dom].
    destruct (has_container (dom (browser w))) eqn:Hcont; [|by eexists].
    destruct (view (dom (browser w))) eqn:Hview; try by eexists.
    destruct Hspan. split; [done|]. by eexists.
  - intros d Hd Ht. rewrite Hd in Hup.
    unfold Widget.auto_increment, mbind, C_bind, cbind. by rewrite Hup, Ht.
  - intros Hd. rewrite Hd in Hup.
    unfold Widget.auto_increment, mbind, C_bind, cbind. by rewrite Hup.
Qed.

End ClientFacts.

End WidgetFacts.

(* ================================================================== *)
(** * Scenarios *)
(* ================================================================== *)

Module Scenarios.
Import Server Widget EndToEnd WidgetFacts.

Abbreviation fetchCounter := (fetchCounter Service (via_handler 20) no_text_number).
Abbreviation updateCounter := (updateCounter Service (via_handler 20)).
Abbreviation initCounter := (initCounter Service (via_handler 20) no_text_number).
Abbreviation fire_timer := (fire_timer Service (via_handler 20)).
Abbreviation auto_increment := (auto_increment Service (via_handler 20)).

(** The end-to-end scenario of the specification, as the code runs it. The
    name is not there: the GET returns count 0 and the widget caches it; the
    increment returns count 1 and empties the cache; so the GET that follows
    40 ms after the first one finds no entry and is sent to the service,
    which is where its count 1 comes from. *)
Lemma get_after_increment_goes_to_the_service :
  let w0 := mkWorld (tab 1000) fresh_service in
  let s1 := fetchCounter "home" w0 in
  let s2 := updateCounter "home" "increment" s1.2 in
  let s3 := fetchCounter "home" s2.2 in
  (∃ d, s1.1 = Ok d ∧ get_prop d "count" = Ok (Some (JNum 0)))
  ∧ cached "home" s1.2
    = Some (cache_entry
              (row_json (mkRow 1 "home" 0 "2025-12-14T10:30:00.000Z"
                           "2025-12-14T10:30:00.000Z")) 1020)
  ∧ (∃ d, s2.1 = Ok d ∧ get_prop d "count" = Ok (Some (JNum 1)))
  ∧ cached "home" s2.2 = None
  ∧ clock (browser s2.2) - 1020 = 20
  ∧ sent (browser s3.2)
    = [get_request "home"; post_request "increment" "home"; get_request "home"]
  ∧ (∃ d, s3.1 = Ok d ∧ get_prop d "count" = Ok (Some (JNum 1))).
Proof. vm_compute. repeat split; try done; by eexists. Qed.

Lemma cache_reuse_and_invalidation_witness :
  ∃ w1, updateCounter "home" "increment" (mkWorld (tab 1000) fresh_service)
        = (Ok (row_json (mkRow 1 "home" 1 "2025-12-14T10:30:00.000Z"
                           "2025-12-14T10:30:00.000Z")), w1)
        ∧ cached "home" w1 = None
        ∧ ∀ dt srv',
            sent (browser (fetchCounter "home" (later dt srv' w1)).2)
            = (sent (browser w1) ++ [get_request "home"])%list.
Proof.
  eapply (proj1 (proj2 (cache_reuse_and_invalidation (via_handler 20) no_text_number
                          "home" "increment" (mkWorld (tab 1000) fresh_service)
                          eq_refl eq_refl)));
    [vm_compute; reflexivity | reflexivity].
Defined.

(** An entry stored exactly 5 minutes ago is not younger than the TTL, and
    yet it is what [fetchCounter] returns, with the service out of reach. *)
Lemma entry_as_old_as_the_ttl_is_served :
  let w := mkWorld (tab_caching "home" (snapshot "home" 7) 1000 301000) tt in
  clock (browser w) - 1000 = CACHE_DURATION
  ∧ Widget.fetchCounter unit offline no_text_number "home" w
    = (Ok (snapshot "home" 7), w).
Proof. vm_compute. done. Qed.

Lemma fetchCounter_cache_policy_witness :
  Widget.fetchCounter unit offline no_text_number "home"
    (mkWorld (tab_caching "home" (snapshot "home" 7) 1000 2000) tt)
  = (Ok (snapshot "home" 7), mkWorld (tab_caching "home" (snapshot "home" 7) 1000 2000) tt).
Proof.
  apply (proj1 (proj2 (fetchCounter_cache_policy offline no_text_number "home"
                         (mkWorld (tab_caching "home" (snapshot "home" 7) 1000 2000) tt)
                         eq_refl)) (snapshot "home" 7) 1000);
    [reflexivity | vm_compute; discriminate | reflexivity].
Defined.

(** C10. The code at the input on which it departs from the claim:
    [localStorage] cannot be used. The increment reaches the service, the
    count goes from nothing to 1 and the reply is a 200 with that row; but
    [CacheManager.clear], which lacks the [try] of [get] and [set], throws
    inside [updateCounter], which returns [null] where the claim has the
    parsed body returned: there was neither a transport failure nor a body
    that does not parse. *)
Lemma storage_failure_yields_null :
  let w := mkWorld (tab_showing 0 no_storage empty_storage 1000) fresh_service in
  let reply := (via_handler 20 (post_request "increment" "home") (server w)).1.1 in
  let s := updateCounter "home" "increment" w in
  reply = NetReply 200 (Some (Parses (row_json
            (mkRow 1 "home" 1 "2025-12-14T10:30:00.000Z" "2025-12-14T10:30:00.000Z"))))
  ∧ s.1 = Ok JNull
  ∧ count_of (snd (server s.2)) "home" = Some 1.
Proof. vm_compute. done. Qed.

(** The operations without a handler throw: [hasVisited] and [markVisited]
    on a session storage that cannot be read, or that holds a text which is
    not JSON, [markVisited] on one that is full or holds a number, and
    [CacheManager.clear] on a [localStorage] that cannot be used. *)
Lemma storage_failures_are_thrown :
  let refused := mkWorld (tab_showing 0 no_storage no_storage 1000) tt in
  let garbled :=
    mkWorld (tab_showing 0 empty_storage
               (mkStorage {[ SESSION_KEY := NoParse "{oops" ]} false false) 1000) tt in
  let crowded :=
    mkWorld (tab_showing 0 empty_storage (mkStorage ∅ false true) 1000) tt in
  let numbered :=
    mkWorld (tab_showing 0 empty_storage
               (mkStorage {[ SESSION_KEY := Parses (JNum 5) ]} false false) 1000) tt in
  (SessionManager_hasVisited unit home refused).1 = Throw access_denied
  ∧ (SessionManager_markVisited unit home refused).1 = Throw access_denied
  ∧ (SessionManager_hasVisited unit home garbled).1
    = Throw (SyntaxError "Unexpected token in JSON")
  ∧ (SessionManager_markVisited unit home crowded).1 = Throw quota_exceeded
  ∧ (SessionManager_hasVisited unit home numbered).1 = Ok false
  ∧ (∃ msg, (SessionManager_markVisited unit home numbered).1
            = Throw (TypeError msg))
  ∧ (CacheManager_clear unit home refused).1 = Throw access_denied.
Proof. vm_compute. repeat split; try done. by eexists. Qed.

(** C3. The code at the input on which it departs from the claim: an
    increment that fails with an error body. The page is shown with count 0
    and the timer is set; then the store goes down. The increment is
    answered 500 with an error body: nothing is counted, yet the guard
    [if (updated)] lets the error object through, the callback writes its
    missing [count] into the span and calls [markVisited]. The store comes
    back, the function is started anew, and the page is loaded again in the
    same tab: the count is still 0, no timer is set, the increment is not
    tried again. *)
Lemma failed_increment_marks_the_visit :
  let w0 := mkWorld (tab 1000) fresh_service in
  let loaded := (initCounter home w0).2 in
  let down := (wait Service 1000 (with_fault (Some "connection refused") loaded)).2 in
  let reply := (via_handler 20 (post_request "increment" home) (server down)).1.1 in
  let fired := fire_timer down in
  let again := (initCounter home (reload (cold_start fired.2))).2 in
  timers (browser loaded) = [(2020, home)]
  ∧ view (dom (browser loaded)) = Counted (Some (JNum 0))
  ∧ reply = NetReply 500 (Some (Parses (JObj [("error", JStr "服务器错误");
                                               ("message", JStr (message client_reused))])))
  ∧ fired.1 = Ok tt
  ∧ view (dom (browser fired.2)) = Counted None
  ∧ (SessionManager_hasVisited Service home fired.2).1 = Ok true
  ∧ count_of (snd (server fired.2)) home = Some 0
  ∧ timers (browser again) = []
  ∧ view (dom (browser again)) = Counted (Some (JNum 0))
  ∧ sent (browser again)
    = [get_request home; post_request "increment" home; get_request home]
  ∧ count_of (snd (server again)) home = Some 0.
Proof. vm_compute. done. Qed.

Lemma auto_increment_witness :
  ∃ w2 c,
    auto_increment home
      (mkWorld (tab_showing 0 empty_storage empty_storage 1000) fresh_service)
    = (Ok tt, w2)
    ∧ get_prop (row_json (mkRow 1 home 1 "2025-12-14T10:30:00.000Z"
                            "2025-12-14T10:30:00.000Z")) "count" = Ok c
    ∧ view (dom (browser w2)) = Counted c
    ∧ (SessionManager_hasVisited Service home w2).1 = Ok true.
Proof.
  pose (w := mkWorld (tab_showing 0 empty_storage empty_storage 1000) fresh_service).
  pose (x := via_handler 20 (post_request "increment" home) (server w)).
  assert (home ≠ "__proto__") as Hname by discriminate.
  apply (proj1 (auto_increment_marks_on_truthy_reply (via_handler 20) home w
                  x.1.1 x.1.2 x.2 eq_refl eq_refl Hname));
    [reflexivity | reflexivity
    | split; [reflexivity | eexists; reflexivity]
    | split; [reflexivity | split; [reflexivity | left; reflexivity]]].
Defined.

End Scenarios.

(* ================================================================== *)
(** * More on the function: what every request does and never does *)
(* ================================================================== *)

Module RequestFacts.
Import Server ServerFacts.

Lemma always_mono {A} (Q Q' : A -> Prop) (t : prog A) :
  (∀ a, Q a -> Q' a) -> always Q t -> always Q' t.
Proof.
  intros HQ. induction t as [a|s k IH]; cbn; [apply HQ|].
  intros Hk r. by apply IH.
Qed.

Lemma always_bind_prog {A B} (m : prog A) (f : A -> prog B) Q :
  always (fun a => always Q (f a)) m -> always Q (bind_prog m f).
Proof.
  induction m as [a|s k IH]; cbn; [done|]. intros Hk r. by apply IH.
Qed.

Lemma always_bind {A B} (m : H A) (f : A -> H B) p Q :
  always (fun x => match x.1 with
                   | Ok a => always Q (f a x.2)
                   | Throw e => Q (Throw e, x.2)
                   end) (m p) ->
  always Q ((m ≫= f) p).
Proof.
  intros Hm. unfold mbind, H_bind, bind. apply always_bind_prog.
  eapply always_mono; [|exact Hm]. by intros [[a|e] p'].
Qed.

Lemma always_try_catch {A} (m : H A) (h : exn -> H A) p Q :
  always (fun x => match x.1 with
                   | Ok a => Q (Ok a, x.2)
                   | Throw e => always Q (h e x.2)
                   end) (m p) ->
  always Q (try_catch m h p).
Proof.
  intros Hm. unfold try_catch. apply always_bind_prog.
  eapply always_mono; [|exact Hm]. by intros [[a|e] p'].
Qed.

Lemma always_run {A} (Q : A -> Prop) (t : prog A) d :
  always Q t -> Q (run t d).1.
Proof.
  revert d. induction t as [a|s k IH]; intros d; cbn; [done|].
  intros Hk. destruct (exec_stmt s d) as [r d']. by apply IH.
Qed.

Lemma sends_mono {A} (P P' : Stmt -> Prop) (t : prog A) :
  (∀ s, P s -> P' s) -> sends P t -> sends P' t.
Proof.
  intros HP. induction t as [a|s k IH]; cbn; [done|].
  intros [Hs Hk]. split; [by apply HP|]. intros r. by apply IH.
Qed.

Lemma sends_bind_prog {A B} (m : prog A) (f : A -> prog B) P :
  sends P m -> (∀ a, sends P (f a)) -> sends P (bind_prog m f).
Proof.
  intros Hm Hf. induction m as [a|s k IH]; cbn; [apply Hf|].
  destruct Hm as [Hs Hk]. split; [done|]. intros r. by apply IH.
Qed.

Lemma sends_bind {A B} (m : H A) (f : A -> H B) p P :
  sends P (m p) -> (∀ a p', sends P (f a p')) -> sends P ((m ≫= f) p).
Proof.
  intros Hm Hf. unfold mbind, H_bind, bind. apply sends_bind_prog; [done|].
  by intros [[a|e] p'].
Qed.

Lemma sends_try_catch {A} (m : H A) (h : exn -> H A) p P :
  sends P (m p) -> (∀ e p', sends P (h e p')) -> sends P (try_catch m h p).
Proof.
  intros Hm Hh. unfold try_catch. apply sends_bind_prog; [done|].
  by intros [[a|e] p'].
Qed.

(** What every statement of a computation keeps, its run keeps. *)
Lemma sends_run {A} (P : Stmt -> Prop) (I : Database -> Database -> Prop)
    (t : prog A) d :
  (∀ d0, I d0 d0) ->
  (∀ s d0 d1, P s -> I d0 d1 -> I d0 (exec_stmt s d1).2) ->
  sends P t -> I d (run t d).2.
Proof.
  intros Hrefl Hstep. 
  assert (∀ d1, sends P t -> I d d1 -> I d (run t d1).2) as Hgen.
  { induction t as [a|s k IH]; intros d1; cbn; [done|].
    intros [Hs Hk] HI. pose proof (Hstep s d d1 Hs HI) as HI'.
    destruct (exec_stmt s d1) as [r d']. by apply IH. }
  intros Hs. by apply Hgen.
Qed.

Lemma sends_driver s p P : P s -> sends P (driver s p).
Proof. intros Hs. by split. Qed.

Lemma sends_ensureConnected p P :
  P Connect -> P SelectOne -> sends P (ensureConnected p).
Proof.
  intros Hc Hs. unfold ensureConnected.
  apply sends_bind; [done|]. intros p0 p1. apply sends_bind.
  - destruct (connected p0 && client p0); [|done].
    apply sends_try_catch.
    + apply sends_bind; [by apply sends_driver|done].
    + intros e p2. by apply sends_bind.
  - intros [] p2; [done|]. apply sends_bind; [done|]. intros p3 p4.
    apply sends_bind; [by destruct (client p3)|]. intros _ p5.
    apply sends_try_catch; [|done].
    apply sends_bind; [by apply sends_driver|done].
Qed.

Lemma sends_executeQuery q p P :
  P Connect -> P SelectOne -> P q -> sends P (executeQuery q p).
Proof.
  intros Hc Hs Hq. unfold executeQuery.
  apply sends_bind; [by apply sends_ensureConnected|]. intros _ p'.
  apply sends_try_catch; [by apply sends_driver|done].
Qed.

Lemma sends_initTable p P :
  P Connect -> P SelectOne ->
  (TABLE_INIT_CACHE p = false -> P CreateTable ∧ P CreateIndex) ->
  sends P (initTable p).
Proof.
  intros Hc Hs Hddl. unfold initTable.
  unfold mbind at 1, H_bind at 1, bind at 1. cbn [get_process bind_prog].
  destruct (TABLE_INIT_CACHE p) eqn:Hi; [done|]. destruct (Hddl eq_refl) as [Ht Hx].
  apply sends_try_catch; [|done].
  apply sends_bind; [by apply sends_executeQuery|]. intros _ p1.
  apply sends_bind; [by apply sends_executeQuery|done].
Qed.

Lemma sends_handle_get n p P :
  P Connect -> P SelectOne -> P (SelectByName n) -> P (InsertZero n) ->
  sends P (handle_get n p).
Proof.
  intros Hc Hs H1 H2. unfold handle_get.
  apply sends_bind; [by apply sends_executeQuery|]. intros [|r rows] p'; [|done].
  apply sends_bind; [by apply sends_executeQuery|done].
Qed.

Lemma sends_handle_increment n p P :
  P Connect -> P SelectOne -> P (UpdateIncrement n) -> P (InsertOne n) ->
  sends P (handle_increment n p).
Proof.
  intros Hc Hs H1 H2. unfold handle_increment.
  apply sends_bind; [by apply sends_executeQuery|]. intros [|r rows] p'; [|done].
  apply sends_bind; [by apply sends_executeQuery|done].
Qed.

Lemma sends_handle_reset n p P :
  P Connect -> P SelectOne -> P (UpdateReset n) -> sends P (handle_reset n p).
Proof.
  intros Hc Hs H1. unfold handle_reset.
  apply sends_bind; [by apply sends_executeQuery|done].
Qed.

Lemma sends_bind_lift {A B} (r : result A) (f : A -> H B) p P :
  (∀ a, r = Ok a -> sends P (f a p)) -> sends P ((lift r ≫= f) p).
Proof. destruct r as [a|e]; cbn; [|done]. intros Hf. by apply Hf. Qed.

(** The statements of a request, by its verb, its target and its action. *)
Lemma sends_handler ev p (P : Stmt -> Prop) :
  P Connect -> P SelectOne ->
  (String.eqb (httpMethod ev) "OPTIONS" = false -> TABLE_INIT_CACHE p = false ->
     P CreateTable ∧ P CreateIndex) ->
  (∀ n, target ev = Some n -> String.eqb (httpMethod ev) "GET" = true ->
     P (SelectByName n) ∧ P (InsertZero n)) ->
  (∀ n, target ev = Some n -> String.eqb (httpMethod ev) "POST" = true ->
     requested_action ev = Some "increment" ->
     P (UpdateIncrement n) ∧ P (InsertOne n)) ->
  (∀ n, target ev = Some n -> String.eqb (httpMethod ev) "POST" = true ->
     requested_action ev = Some "reset" -> P (UpdateReset n)) ->
  sends P (handler ev p).
Proof.
  intros Hc Hs Hddl Hget Hinc Hreset. unfold handler.
  apply sends_try_catch; [|done].
  destruct (String.eqb (httpMethod ev) "OPTIONS") eqn:Ho; [done|].
  apply sends_bind; [apply sends_initTable; auto|]. intros _ p1.
  unfold target, requested_action in *.
  destruct (parse_params ev) as [bad|params]; [done|].
  apply sends_bind_lift. intros n Hn. apply sends_bind_lift. intros a Ha.
  rewrite Hn in *. rewrite Ha in *.
  destruct (invalid_name n); [done|].
  destruct (String.eqb (httpMethod ev) "GET") eqn:Hg.
  { destruct (Hget n eq_refl eq_refl). by apply sends_handle_get. }
  destruct (String.eqb (httpMethod ev) "POST") eqn:Hp; [|done].
  destruct (String.eqb_spec a "increment") as [->|Hi].
  { destruct (Hinc n eq_refl eq_refl eq_refl). by apply sends_handle_increment. }
  destruct (String.eqb_spec a "reset") as [->|Hr]; [|done].
  apply sends_handle_reset; auto.
Qed.

Lemma always_driver s p (Q : result (list Row) * Process -> Prop) :
  (∀ r, Q (r, p)) -> always Q (driver s p).
Proof. intros HQ r. apply HQ. Qed.

(** [ensureConnected] and [executeQuery] leave [TABLE_INIT_CACHE] alone. *)
Lemma always_ensureConnected p (Q : result unit * Process -> Prop) :
  (∀ r p', TABLE_INIT_CACHE p' = TABLE_INIT_CACHE p -> Q (r, p')) ->
  always Q (ensureConnected p).
Proof.
  intros HQ. destruct p as [c k i]. unfold ensureConnected.
  destruct c, k; cbn; intros [rows|e]; cbn; try (by apply HQ);
    intros [rows'|e']; cbn; by apply HQ.
Qed.

Lemma always_executeQuery q p (Q : result (list Row) * Process -> Prop) :
  (∀ r p', TABLE_INIT_CACHE p' = TABLE_INIT_CACHE p -> Q (r, p')) ->
  always Q (executeQuery q p).
Proof.
  intros HQ. unfold executeQuery. apply always_bind.
  apply always_ensureConnected. intros [[]|e] p' Hp'; cbn [fst snd]; [|by apply HQ].
  apply always_try_catch. apply always_driver. intros [rows|e]; cbn; by apply HQ.
Qed.

(** [initTable] returns, with the flag set. *)
Lemma always_initTable p (Q : result unit * Process -> Prop) :
  (∀ p', TABLE_INIT_CACHE p' = true -> Q (Ok tt, p')) ->
  always Q (initTable p).
Proof.
  intros HQ. unfold initTable.
  unfold mbind at 1, H_bind at 1, bind at 1. cbn [get_process bind_prog].
  destruct (TABLE_INIT_CACHE p) eqn:Hi; [by apply HQ|].
  apply always_try_catch. apply always_bind. apply always_executeQuery.
  intros [rows|e] p1 _; cbn [fst snd]; [|by apply HQ].
  apply always_bind. apply always_executeQuery.
  intros [rows'|e'] p2 _; cbn [fst snd]; by apply HQ.
Qed.

Lemma settled_respond st b p :
  known_status st -> TABLE_INIT_CACHE p = true -> settled (Ok (respond st b), p).
Proof. intros Hst Hp. split; [|done]. by eexists. Qed.

Lemma settled_first_row rows p :
  TABLE_INIT_CACHE p = true -> settled (Ok (first_row_response rows), p).
Proof. intros Hp. split; [|done]. eexists. split; [done|]. split; [done|]. by left. Qed.

Lemma settled_or_thrown_mono (x : result Response * Process) :
  match x.1 with
  | Ok a => settled (Ok a, x.2)
  | Throw e => TABLE_INIT_CACHE x.2 = true
  end ->
  match x.1 with
  | Ok a => settled (Ok a, x.2)
  | Throw e => always settled ((mret (server_error e) : H Response) x.2)
  end.
Proof.
  destruct x as [[a|e] p]; cbn; [done|]. intros Hp.
  apply settled_respond; [|done]. unfold known_status. auto.
Qed.

Lemma always_lift_bind {A B} (r : result A) (f : A -> H B) p Q :
  match r with Ok a => always Q (f a p) | Throw e => Q (Throw e, p) end ->
  always Q ((lift r ≫= f) p).
Proof. by destruct r. Qed.

Lemma always_handle_get n p :
  TABLE_INIT_CACHE p = true ->
  always (fun x => match x.1 with
                   | Ok a => settled (Ok a, x.2)
                   | Throw e => TABLE_INIT_CACHE x.2 = true
                   end) (handle_get n p).
Proof.
  intros Hp. unfold handle_get. apply always_bind. apply always_executeQuery.
  intros [[|r rows]|e] p1 Hp1; cbn [fst snd]; [| |congruence].
  - apply always_bind. apply always_executeQuery.
    intros [rows|e] p2 Hp2; cbn [fst snd]; [|congruence].
    cbn. apply settled_first_row. congruence.
  - cbn. apply settled_respond; [by left|congruence].
Qed.

Lemma always_handle_increment n p :
  TABLE_INIT_CACHE p = true ->
  always (fun x => match x.1 with
                   | Ok a => settled (Ok a, x.2)
                   | Throw e => TABLE_INIT_CACHE x.2 = true
                   end) (handle_increment n p).
Proof.
  intros Hp. unfold handle_increment. apply always_bind. apply always_executeQuery.
  intros [[|r rows]|e] p1 Hp1; cbn [fst snd]; [| |congruence].
  - apply always_bind. apply always_executeQuery.
    intros [rows|e] p2 Hp2; cbn [fst snd]; [|congruence].
    cbn. apply settled_first_row. congruence.
  - cbn. apply settled_respond; [by left|congruence].
Qed.

Lemma always_handle_reset n p :
  TABLE_INIT_CACHE p = true ->
  always (fun x => match x.1 with
                   | Ok a => settled (Ok a, x.2)
                   | Throw e => TABLE_INIT_CACHE x.2 = true
                   end) (handle_reset n p).
Proof.
  intros Hp. unfold handle_reset. apply always_bind. apply always_executeQuery.
  intros [rows|e] p1 Hp1; cbn [fst snd]; [|congruence].
  cbn. apply settled_respond; [by left|congruence].
Qed.

Lemma always_handler_body ev p :
  String.eqb (httpMethod ev) "OPTIONS" = false ->
  always settled (handler ev p).
Proof.
  intros Ho. unfold handler. rewrite Ho.
  apply always_try_catch.
  eapply always_mono; [apply settled_or_thrown_mono|].
  apply always_bind. apply always_initTable. intros p1 Hp1. cbn [fst snd].
  destruct (parse_params ev) as [bad|params] eqn:Hpar.
  { cbn. unfold parse_params in Hpar.
    destruct (String.eqb (httpMethod ev) "POST"); [|done].
    destruct (JSON_parse _); [done|]. injection Hpar as <-.
    apply settled_respond; [|done]. unfold known_status; auto. }
  apply always_lift_bind. destruct (counterName_of params) as [n|e]; [|done].
  apply always_lift_bind. destruct (action_of params) as [a|e]; [|done].
  destruct (invalid_name n).
  { cbn. apply settled_respond; [|done]. unfold known_status; auto. }
  destruct (String.eqb (httpMethod ev) "GET"); [by apply always_handle_get|].
  destruct (String.eqb (httpMethod ev) "POST").
  - destruct (String.eqb a "increment"); [by apply always_handle_increment|].
    destruct (String.eqb a "reset"); [by apply always_handle_reset|].
    cbn. apply settled_respond; [|done]. unfold known_status; auto.
  - cbn. apply settled_respond; [|done]. unfold known_status; auto.
Qed.

Lemma handler_options ev p :
  String.eqb (httpMethod ev) "OPTIONS" = true ->
  handler ev p = Ret (Ok (mkResponse 200 headers None), p).
Proof. intros Ho. unfold handler. by rewrite Ho. Qed.

(** The row under [m] after a statement, on any database: the row that was
    there, or the one the statement on [m] has made of it or has created. *)
Lemma exec_lookup s d m :
  rows_of (exec_stmt s d).2 !! m = rows_of d !! m
  ∨ ∃ new, rows_of (exec_stmt s d).2 !! m = Some new
      ∧ match rows_of d !! m with
        | Some r =>
            (s = InsertZero m ∧ new = touch (db_now d) r)
            ∨ ((s = UpdateIncrement m ∨ s = InsertOne m)
               ∧ new = bumped (db_now d) r)
            ∨ (s = UpdateReset m ∧ new = zero (db_now d) r)
        | None =>
            (s = InsertZero m ∧ new = fresh_row d m 0)
            ∨ (s = InsertOne m ∧ new = fresh_row d m 1)
        end.
Proof.
  destruct d as [[msg|] [t|] q now]; unfold exec_stmt, on_table, rows_of;
    cbn [db_fault counters default snd id]; try (by left); try (left; by destruct s).
  destruct s as [| | | |n|n|n|n|n]; try (by left);
    (destruct (decide (n = m)) as [->|Hne];
     [destruct (t !! m) as [r|] eqn:Hr|]);
    unfold upsert, bump; cbn [counters_seq db_now];
    repeat case_match; simplify_eq; cbn [snd with_table with_table_seq counters
      default id db_fault counters_seq db_now];
    rewrite ?lookup_insert_eq, ?lookup_insert_ne, ?Hr by done;
    try (by left); right; eexists; (split; [reflexivity|]); naive_solver.
Qed.

Lemma exec_keeps_counts s d m :
  keeps_counts s -> count_or_0 (exec_stmt s d).2 m = count_or_0 d m.
Proof.
  intros Hs. unfold count_or_0.
  destruct (exec_lookup s d m) as [->|(new & -> & Hnew)]; [done|].
  destruct (rows_of d !! m) as [r|]; destruct s; cbn in Hs; naive_solver.
Qed.

Lemma exec_no_reset s d m :
  no_reset s -> count_or_0 d m ≤ count_or_0 (exec_stmt s d).2 m.
Proof.
  intros Hs. unfold count_or_0.
  destruct (exec_lookup s d m) as [->|(new & -> & Hnew)]; [done|].
  destruct (rows_of d !! m) as [r|]; cbn.
  - destruct Hnew as [[-> ->]|[[_ ->]|[-> ->]]]; cbn in *; try done; lia.
  - destruct Hnew as [[-> ->]|[-> ->]]; cbn; lia.
Qed.

Lemma exec_about s d n m :
  about n s -> n ≠ Some m -> rows_of (exec_stmt s d).2 !! m = rows_of d !! m.
Proof.
  intros Hs Hn.
  destruct (exec_lookup s d m) as [->|(new & _ & Hnew)]; [done|].
  destruct (rows_of d !! m) as [r|]; naive_solver.
Qed.

Lemma exec_table_ok s d : table_ok d -> table_ok (exec_stmt s d).2.
Proof.
  intros Hd m r.
  destruct (exec_lookup s d m) as [->|(new & -> & Hnew)]; [apply Hd|].
  intros [= <-]. destruct (rows_of d !! m) as [r0|] eqn:Hr.
  - destruct (Hd m r0 Hr) as [Hname Hcount].
    destruct Hnew as [[_ ->]|[[_ ->]|[_ ->]]]; cbn; split; try done; lia.
  - destruct Hnew as [[_ ->]|[_ ->]]; cbn; split; try done; lia.
Qed.

(** No statement removes a row, or changes the id, the name or the creation
    time of one. *)
Lemma exec_keeps_rows s d m r :
  rows_of d !! m = Some r ->
  ∃ r', rows_of (exec_stmt s d).2 !! m = Some r'
        ∧ row_id r' = row_id r ∧ row_name r' = row_name r
        ∧ row_created_at r' = row_created_at r.
Proof.
  intros Hr.
  destruct (exec_lookup s d m) as [->|(new & -> & Hnew)]; [by eexists|].
  rewrite Hr in Hnew. exists new. split; [done|].
  by destruct Hnew as [[_ ->]|[[_ ->]|[_ ->]]].
Qed.

(** What the statements of the requests in flight keep, any interleaving of
    them keeps. *)
Lemma sends_step (P : Stmt -> Prop) i (pool : Pool) d :
  Forall (sends P) pool -> Forall (sends P) (step i pool d).1.
Proof.
  intros Hpool. unfold step. destruct (pool !! i) as [t|] eqn:Ht; [|done].
  pose proof (Forall_lookup_1 _ _ _ _ Hpool Ht) as Hs.
  destruct t as [a|s k]; cbn.
  - by apply Forall_insert.
  - destruct (exec_stmt s d) as [r d']. cbn. apply Forall_insert; [done|].
    by destruct Hs.
Qed.

Lemma sends_interleave (P : Stmt -> Prop) (I : Database -> Database -> Prop)
    schedule (pool : Pool) d :
  (∀ d0, I d0 d0) ->
  (∀ s d0 d1, P s -> I d0 d1 -> I d0 (exec_stmt s d1).2) ->
  Forall (sends P) pool -> I d (interleave schedule pool d).2.
Proof.
  intros Hrefl Hstep.
  assert (∀ (pool : Pool) d1, Forall (sends P) pool -> I d d1 ->
            I d (interleave schedule pool d1).2) as Hgen.
  { induction schedule as [|i rest IH]; intros pl d1 Hpl HI; cbn; [done|].
    pose proof (sends_step P i pl d1 Hpl) as Hpl'.
    assert (I d (step i pl d1).2) as HI'.
    { unfold step. destruct (pl !! i) as [t|] eqn:Ht; [|exact HI].
      pose proof (Forall_lookup_1 _ _ _ _ Hpl Ht) as Hs.
      destruct t as [a|s k]; cbn; [exact HI|].
      destruct Hs as [Hs _]. pose proof (Hstep s d d1 Hs HI).
      by destruct (exec_stmt s d1). }
    destruct (step i pl d1) as [pl' d']. by apply IH. }
  intros Hpool. by apply Hgen.
Qed.

Lemma always_step (Q : result Response * Process -> Prop) i (pool : Pool) d :
  Forall (always Q) pool ->
  Forall (always Q)
    (match pool !! i with
     | Some t => <[i := (step_thread t d).1]> pool
     | None => pool
     end).
Proof.
  intros Hpool. destruct (pool !! i) as [t|] eqn:Ht; [|done].
  pose proof (Forall_lookup_1 _ _ _ _ Hpool Ht) as Hs.
  apply Forall_insert; [done|]. destruct t as [a|s k]; cbn; [done|].
  destruct (exec_stmt s d) as [r d']. apply Hs.
Qed.

Lemma always_interleave (Q : result Response * Process -> Prop)
    schedule (pool : Pool) d :
  Forall (always Q) pool -> Forall (always Q) (interleave schedule pool d).1.
Proof.
  revert pool d. induction schedule as [|i rest IH]; intros pool d Hpool; cbn; [done|].
  pose proof (always_step Q i pool d Hpool) as Hs.
  unfold step. destruct (pool !! i) as [t|] eqn:Ht.
  - destruct (step_thread t d) as [t' d'] eqn:Hst. cbn in Hs. by apply IH.
  - by apply IH.
Qed.

Lemma always_handler ev p : always well_formed_response (handler ev p).
Proof.
  destruct (String.eqb (httpMethod ev) "OPTIONS") eqn:Ho.
  - rewrite (handler_options ev p Ho). cbn. eexists. split; [done|].
    split; [done|]. by left.
  - eapply always_mono; [|by apply always_handler_body]. by intros x [Hx _].
Qed.

Lemma sends_anything {A} (t : prog A) : sends (fun _ => True) t.
Proof. induction t as [a|s k IH]; cbn; [done|]. by split. Qed.

(** X1. The handler answers every request: whatever the event, the state
    of the process and the answers of the driver, it returns (it never
    throws) a response under the fixed CORS headers whose status is 200,
    400, 405 or 500. The same holds of a request served alone on any
    database and of every request that has finished under any interleaving
    of any requests. *)
Theorem every_request_is_answered :
  (∀ ev p, always well_formed_response (handler ev p))
  ∧ (∀ ev p d, well_formed_response (serve ev p d).1)
  ∧ (∀ reqs schedule d i x,
       (interleave schedule (in_flight reqs) d).1 !! i = Some (Ret x) ->
       well_formed_response x).
Proof.
  split; [apply always_handler|]. split.
  - intros ev p d. apply (always_run well_formed_response (handler ev p) d),
      always_handler.
  - intros reqs schedule d i x Hx.
    assert (Forall (always well_formed_response) (in_flight reqs)) as Hpool.
    { unfold in_flight. apply Forall_fmap, Forall_forall. intros [ev p] _.
      apply always_handler. }
    pose proof (always_interleave _ schedule _ d Hpool) as Hall.
    apply (Forall_lookup_1 _ _ _ _ Hall Hx).
Qed.

(** X2. The table is initialised at most once per process. A request other
    than OPTIONS leaves [TABLE_INIT_CACHE] set whatever the driver answered,
    also when the statements of [initTable] failed, and the process that
    served it never sends CREATE TABLE or CREATE INDEX again. A process with
    the flag set keeps it and sends neither statement. An OPTIONS request is
    answered 200 without a body before [initTable]: nothing is sent and the
    process is as it was. *)
Theorem table_is_initialised_once (ev : Event) (p : Process) :
  (String.eqb (httpMethod ev) "OPTIONS" = false ->
     always (fun x => TABLE_INIT_CACHE x.2 = true) (handler ev p)
     ∧ ∀ d ev', sends no_ddl (handler ev' (serve ev p d).1.2))
  ∧ (TABLE_INIT_CACHE p = true ->
     always (fun x => TABLE_INIT_CACHE x.2 = true) (handler ev p)
     ∧ sends no_ddl (handler ev p))
  ∧ (String.eqb (httpMethod ev) "OPTIONS" = true ->
     handler ev p = Ret (Ok (mkResponse 200 headers None), p)).
Proof.
  assert (∀ ev0 p0, TABLE_INIT_CACHE p0 = true -> sends no_ddl (handler ev0 p0))
    as Hquiet.
  { intros ev0 p0 Hp0. apply sends_handler; try done. congruence. }
  split; [|split; [|apply handler_options]].
  - intros Ho.
    assert (always (fun x => TABLE_INIT_CACHE x.2 = true) (handler ev p)) as Hset.
    { eapply always_mono; [|by apply always_handler_body]. by intros x [_ Hx]. }
    split; [done|]. intros d ev'. apply Hquiet.
    apply (always_run (fun x => TABLE_INIT_CACHE x.2 = true) (handler ev p) d Hset).
  - intros Hp. split; [|by apply Hquiet].
    destruct (String.eqb (httpMethod ev) "OPTIONS") eqn:Ho.
    + by rewrite (handler_options ev p Ho).
    + eapply always_mono; [|by apply always_handler_body]. by intros x [_ Hx].
Qed.

Lemma sends_in_flight (P : Stmt -> Prop) reqs :
  Forall (fun x => sends P (handler x.1 x.2)) reqs ->
  Forall (sends P) (in_flight reqs).
Proof. intros Hr. unfold in_flight. by apply Forall_fmap. Qed.

Lemma get_keeps_counts ev p :
  httpMethod ev = "GET" -> sends keeps_counts (handler ev p).
Proof.
  intros Hm. apply sends_handler; try done; rewrite Hm; intros n _; done.
Qed.

(** X3. A GET changes no count, whatever its parameters (an [action] in the
    query string is not acted on), the process and the database: under
    every name the count, read as 0 where there is no row, is what it was.
    The same holds of any interleaving of any number of GETs. *)
Theorem get_changes_no_count
    (ev : Event) (p : Process) (reqs : list (Event * Process)) :
  httpMethod ev = "GET" ->
  Forall (fun x => httpMethod x.1 = "GET") reqs ->
  (∀ d m, count_or_0 (serve ev p d).2 m = count_or_0 d m)
  ∧ (∀ schedule d m,
       count_or_0 (interleave schedule (in_flight reqs) d).2 m = count_or_0 d m).
Proof.
  intros Hm Hreqs. split.
  - intros d m.
    apply (sends_run keeps_counts (fun d0 d1 => count_or_0 d1 m = count_or_0 d0 m)).
    + done.
    + intros s d0 d1 Hs <-. by apply exec_keeps_counts.
    + by apply get_keeps_counts.
  - intros schedule d m.
    apply (sends_interleave keeps_counts
             (fun d0 d1 => count_or_0 d1 m = count_or_0 d0 m)).
    + done.
    + intros s d0 d1 Hs <-. by apply exec_keeps_counts.
    + apply sends_in_flight. eapply Forall_impl; [exact Hreqs|].
      intros [ev' p'] Hx. by apply get_keeps_counts.
Qed.

Lemma get_changes_no_count_witness :
  let ev := mkEvent "GET" (Some [("counterName", "home"); ("action", "increment")])
              None in
  let p := mkProcess false false false in
  (∀ d m, count_or_0 (serve ev p d).2 m = count_or_0 d m)
  ∧ (∀ schedule d m,
       count_or_0 (interleave schedule (in_flight [(ev, p); (ev, warm)]) d).2 m
       = count_or_0 d m).
Proof.
  apply (get_changes_no_count
           (mkEvent "GET" (Some [("counterName", "home"); ("action", "increment")])
              None)
           (mkProcess false false false)); [reflexivity|].
  repeat constructor.
Defined.

Lemma not_reset_no_reset ev p :
  String.eqb (httpMethod ev) "POST" = false
  ∨ requested_action ev ≠ Some "reset" ->
  sends no_reset (handler ev p).
Proof.
  intros Hne. apply sends_handler; try done.
  intros n _ Hp Ha. destruct Hne; congruence.
Qed.

(** X4. Only a reset lowers a count: a request that is not a POST, or whose
    action is not [reset], leaves the count under every name at least what
    it was, on any database; so does any interleaving of such requests. *)
Theorem only_a_reset_lowers_a_count
    (ev : Event) (p : Process) (reqs : list (Event * Process)) :
  String.eqb (httpMethod ev) "POST" = false
  ∨ requested_action ev ≠ Some "reset" ->
  Forall (fun x => String.eqb (httpMethod x.1) "POST" = false
                   ∨ requested_action x.1 ≠ Some "reset") reqs ->
  (∀ d m, count_or_0 d m ≤ count_or_0 (serve ev p d).2 m)
  ∧ (∀ schedule d m,
       count_or_0 d m ≤ count_or_0 (interleave schedule (in_flight reqs) d).2 m).
Proof.
  intros Hm Hreqs. split.
  - intros d m.
    apply (sends_run no_reset (fun d0 d1 => count_or_0 d0 m ≤ count_or_0 d1 m)).
    + done.
    + intros s d0 d1 Hs Hle. pose proof (exec_no_reset s d1 m Hs). lia.
    + by apply not_reset_no_reset.
  - intros schedule d m.
    apply (sends_interleave no_reset
             (fun d0 d1 => count_or_0 d0 m ≤ count_or_0 d1 m)).
    + done.
    + intros s d0 d1 Hs Hle. pose proof (exec_no_reset s d1 m Hs). lia.
    + apply sends_in_flight. eapply Forall_impl; [exact Hreqs|].
      intros [ev' p'] Hx. by apply not_reset_no_reset.
Qed.

Lemma only_a_reset_lowers_a_count_witness :
  let ev := increment_event "home" in
  let p := mkProcess false false false in
  (∀ d m, count_or_0 d m ≤ count_or_0 (serve ev p d).2 m)
  ∧ (∀ schedule d m,
       count_or_0 d m
       ≤ count_or_0 (interleave schedule
                       (in_flight [(ev, p); (get_event [], warm)]) d).2 m).
Proof.
  apply (only_a_reset_lowers_a_count (increment_event "home")
           (mkProcess false false false)).
  - right. vm_compute. discriminate.
  - constructor; [right; vm_compute; discriminate|].
    constructor; [left; reflexivity|constructor].
Defined.

Lemma handler_about ev p : sends (about (target ev)) (handler ev p).
Proof. apply sends_handler; try done; intros n Hn; rewrite Hn; done. Qed.

(** X5. A request changes at most the row of the counter it names: the row
    under any other name is what it was, on any database, and a request
    whose parameters cannot be read changes no row. The same holds of any
    interleaving of requests none of which names that counter. *)
Theorem request_touches_only_its_counter
    (ev : Event) (p : Process) (reqs : list (Event * Process)) (m : string) :
  target ev ≠ Some m ->
  Forall (fun x => target x.1 ≠ Some m) reqs ->
  (∀ d, rows_of (serve ev p d).2 !! m = rows_of d !! m)
  ∧ (∀ schedule d,
       rows_of (interleave schedule (in_flight reqs) d).2 !! m = rows_of d !! m).
Proof.
  intros Hm Hreqs. split.
  - intros d.
    apply (sends_run (about (target ev))
             (fun d0 d1 => rows_of d1 !! m = rows_of d0 !! m)).
    + done.
    + intros s d0 d1 Hs <-. by apply (exec_about s d1 (target ev)).
    + apply handler_about.
  - intros schedule d.
    apply (sends_interleave (fun s => ∃ n, n ≠ Some m ∧ about n s)
             (fun d0 d1 => rows_of d1 !! m = rows_of d0 !! m)).
    + done.
    + intros s d0 d1 (n & Hn & Hs) <-. by apply (exec_about s d1 n).
    + apply sends_in_flight. eapply Forall_impl; [exact Hreqs|].
      intros [ev' p'] Hx. eapply sends_mono; [|apply handler_about].
      intros s Hs. by exists (target ev').
Qed.

Lemma request_touches_only_its_counter_witness :
  let ev := increment_event "home" in
  (∀ d, rows_of (serve ev warm d).2 !! "about" = rows_of d !! "about")
  ∧ (∀ schedule d,
       rows_of (interleave schedule
                  (in_flight [(ev, warm); (get_event [], warm)]) d).2 !! "about"
       = rows_of d !! "about").
Proof.
  apply (request_touches_only_its_counter (increment_event "home") warm).
  - vm_compute. discriminate.
  - constructor; [vm_compute; discriminate|].
    constructor; [vm_compute; discriminate|constructor].
Defined.

(** X6. No request removes a row, or changes the id, the name or the
    creation time of one: a row that is there before a request, or before
    any interleaving of any requests, is there after it with the same
    [id], [name] and [created_at]. *)
Theorem rows_are_never_removed
    (ev : Event) (p : Process) (reqs : list (Event * Process))
    (d : Database) (m : string) (r : Row) :
  rows_of d !! m = Some r ->
  (∃ r', rows_of (serve ev p d).2 !! m = Some r'
         ∧ row_id r' = row_id r ∧ row_name r' = row_name r
         ∧ row_created_at r' = row_created_at r)
  ∧ (∀ schedule,
       ∃ r', rows_of (interleave schedule (in_flight reqs) d).2 !! m = Some r'
             ∧ row_id r' = row_id r ∧ row_name r' = row_name r
             ∧ row_created_at r' = row_created_at r).
Proof.
  intros Hr.
  pose (I := fun d0 d1 : Database =>
    ∀ r0, rows_of d0 !! m = Some r0 ->
      ∃ r', rows_of d1 !! m = Some r'
            ∧ row_id r' = row_id r0 ∧ row_name r' = row_name r0
            ∧ row_created_at r' = row_created_at r0).
  assert (∀ d0, I d0 d0) as Hrefl by (intros d0 r0 H0; by exists r0).
  assert (∀ s d0 d1, True -> I d0 d1 -> I d0 (exec_stmt s d1).2) as Hstep.
  { intros s d0 d1 _ HI r0 H0. destruct (HI r0 H0) as (r1 & H1 & Hid & Hn & Hc).
    destruct (exec_keeps_rows s d1 m r1 H1) as (r2 & H2 & Hid' & Hn' & Hc').
    exists r2. split; [done|]. split; [congruence|]. split; congruence. }
  split.
  - apply (sends_run (fun _ => True) I (handler ev p) d Hrefl Hstep); [|done].
    apply sends_anything.
  - intros schedule.
    apply (sends_interleave (fun _ => True) I schedule (in_flight reqs) d
             Hrefl Hstep); [|done].
    apply Forall_forall. intros t _. apply sends_anything.
Qed.

Lemma rows_are_never_removed_witness :
  let d := mkDb None (Some {[ "home" := mkRow 1 "home" 7 "t0" "t1" ]}) 2 "t2" in
  let reset := post_event (JObj [("action", JStr "reset");
                                 ("counterName", JStr "home")]) in
  let r := mkRow 1 "home" 7 "t0" "t1" in
  (∃ r', rows_of (serve reset warm d).2 !! "home" = Some r'
         ∧ row_id r' = row_id r ∧ row_name r' = row_name r
         ∧ row_created_at r' = row_created_at r)
  ∧ (∀ schedule,
       ∃ r', rows_of (interleave schedule
                        (in_flight [(reset, warm); (increment_event "home", warm)])
                        d).2 !! "home" = Some r'
             ∧ row_id r' = row_id r ∧ row_name r' = row_name r
             ∧ row_created_at r' = row_created_at r).
Proof.
  apply (rows_are_never_removed
           (post_event (JObj [("action", JStr "reset");
                              ("counterName", JStr "home")])) warm
           [(post_event (JObj [("action", JStr "reset");
                               ("counterName", JStr "home")]), warm);
            (increment_event "home", warm)]
           (mkDb None (Some {[ "home" := mkRow 1 "home" 7 "t0" "t1" ]}) 2 "t2")
           "home" (mkRow 1 "home" 7 "t0" "t1")).
  reflexivity.
Defined.

(** X7. On a table whose rows are stored under their own names with counts
    that are not negative, every request, and every interleaving of any
    requests, leaves such a table: the function never produces a negative
    count. *)
Theorem counts_are_never_negative
    (ev : Event) (p : Process) (reqs : list (Event * Process)) (d : Database) :
  table_ok d ->
  table_ok (serve ev p d).2
  ∧ (∀ schedule, table_ok (interleave schedule (in_flight reqs) d).2).
Proof.
  intros Hd.
  pose (I := fun d0 d1 : Database => table_ok d0 -> table_ok d1).
  assert (∀ d0, I d0 d0) as Hrefl by (by intros d0 H0).
  assert (∀ s d0 d1, True -> I d0 d1 -> I d0 (exec_stmt s d1).2) as Hstep.
  { intros s d0 d1 _ HI H0. by apply exec_table_ok, HI. }
  split.
  - apply (sends_run (fun _ => True) I (handler ev p) d Hrefl Hstep); [|done].
    apply sends_anything.
  - intros schedule.
    apply (sends_interleave (fun _ => True) I schedule (in_flight reqs) d
             Hrefl Hstep); [|done].
    apply Forall_forall. intros t _. apply sends_anything.
Qed.

Lemma counts_are_never_negative_witness :
  let d := mkDb None (Some {[ "home" := mkRow 1 "home" 7 "t0" "t1" ]}) 2 "t2" in
  let reset := post_event (JObj [("action", JStr "reset");
                                 ("counterName", JStr "home")]) in
  table_ok (serve reset warm d).2
  ∧ (∀ schedule,
       table_ok (interleave schedule
                   (in_flight [(reset, warm); (increment_event "home", warm)])
                   d).2).
Proof.
  apply (counts_are_never_negative
           (post_event (JObj [("action", JStr "reset");
                              ("counterName", JStr "home")])) warm
           [(post_event (JObj [("action", JStr "reset");
                               ("counterName", JStr "home")]), warm);
            (increment_event "home", warm)]
           (mkDb None (Some {[ "home" := mkRow 1 "home" 7 "t0" "t1" ]}) 2 "t2")).
  intros n r Hr. unfold rows_of in Hr. simpl in Hr.
  apply lookup_singleton_Some in Hr as [<- <-].
  split; [reflexivity|]. simpl. lia.
Defined.

Lemma run_initTable_down p d msg :
  db_fault d = Some msg -> ∃ p', run (initTable p) d = (Ok tt, p', d).
Proof.
  intros Hd. unfold initTable. rewrite run_bind, run_get_process.
  destruct (TABLE_INIT_CACHE p) eqn:Hi; [rewrite run_ret; eauto|].
  rewrite run_try_catch, run_bind.
  destruct (run_executeQuery_down CreateTable p d msg Hd) as [p' ->].
  rewrite run_modify. eauto.
Qed.

Lemma run_unchanged_down {A} (t : prog A) d msg :
  db_fault d = Some msg -> (run t d).2 = d.
Proof.
  intros Hd. induction t as [a|s k IH]; cbn; [done|].
  unfold exec_stmt. rewrite Hd. apply IH.
Qed.

(** X8. When the store cannot be reached the database is left as it is,
    and a request that needs it (a GET, or a POST with action [increment] or
    [reset], for a name that passes the check) is answered 500, the failure
    of [initTable] having been swallowed on the way. *)
Theorem unreachable_store_is_a_server_error
    (ev : Event) (p : Process) (d : Database) (msg : string) :
  db_fault d = Some msg ->
  (serve ev p d).2 = d
  ∧ (∀ n a,
       target ev = Some n -> invalid_name n = false ->
       requested_action ev = Some a ->
       String.eqb (httpMethod ev) "GET" = true
       ∨ (String.eqb (httpMethod ev) "POST" = true
          ∧ (a = "increment" ∨ a = "reset")) ->
       answers 500 (serve ev p d).1).
Proof.
  intros Hd. split; [by apply (run_unchanged_down _ d msg)|].
  intros n a Hn Hv Ha Hm. unfold serve, handler.
  assert (String.eqb (httpMethod ev) "OPTIONS" = false) as ->.
  { destruct Hm as [Hm|[Hm _]]; apply String.eqb_eq in Hm; by rewrite Hm. }
  unfold target, requested_action in *.
  destruct (parse_params ev) as [bad|params]; [done|].
  destruct (counterName_of params) as [n'|]; [|done]. injection Hn as ->.
  destruct (action_of params) as [a'|]; [|done]. injection Ha as ->.
  rewrite run_try_catch, run_bind.
  destruct (run_initTable_down p d msg Hd) as [p1 ->].
  rewrite run_bind, run_lift. cbv beta iota.
  rewrite run_bind, run_lift. cbv beta iota. rewrite Hv. cbv iota.
  assert (∀ q (f : list Row -> H Response) p0,
            ∃ e p', run ((executeQuery q ≫= f) p0) d = (Throw e, p', d)) as Hq.
  { intros q f p0. rewrite run_bind.
    destruct (run_executeQuery_down q p0 d msg Hd) as [p' ->]. eauto. }
  assert (∀ (m : H Response),
            (∃ e p', run (m p1) d = (Throw e, p', d)) ->
            answers 500
              (let '(r, p', d') := run (m p1) d in
               match r with
               | Ok a => (Ok a, p', d')
               | Throw e => run ((mret (server_error e) : H Response) p') d'
               end).1) as Hfail.
  { intros m (e & p' & ->). rewrite run_ret. by eexists. }
  destruct Hm as [->|[-> Hact]].
  - apply Hfail, Hq.
  - destruct (String.eqb (httpMethod ev) "GET"); [apply Hfail, Hq|].
    destruct Hact as [->| ->]; apply Hfail, Hq.
Qed.

Lemma unreachable_store_is_a_server_error_witness :
  let d := mkDb (Some "connection refused")
             (Some {[ "home" := mkRow 1 "home" 7 "t0" "t1" ]}) 2 "t2" in
  let ev := increment_event "home" in
  (serve ev warm d).2 = d
  ∧ (∀ n a,
       target ev = Some n -> invalid_name n = false ->
       requested_action ev = Some a ->
       String.eqb (httpMethod ev) "GET" = true
       ∨ (String.eqb (httpMethod ev) "POST" = true
          ∧ (a = "increment" ∨ a = "reset")) ->
       answers 500 (serve ev warm d).1).
Proof.
  apply (unreachable_store_is_a_server_error (increment_event "home") warm
           (mkDb (Some "connection refused")
              (Some {[ "home" := mkRow 1 "home" 7 "t0" "t1" ]}) 2 "t2")
           "connection refused").
  reflexivity.
Defined.

(** X9. A POST whose body is not empty and is not JSON is answered 400
    with the error of the body check, whatever the driver answers and
    whatever the query string holds. *)
Theorem malformed_body_is_rejected
    (q : option (list (string * string))) (s : string) (p : Process) :
  s ≠ "" ->
  always (fun x => x.1 = Ok (respond 400 (error_body "请求体格式错误")))
    (handler (mkEvent "POST" q (Some (NoParse s))) p).
Proof.
  intros Hs. unfold handler. cbn [httpMethod String.eqb Ascii.eqb Bool.eqb].
  apply always_try_catch, always_bind, always_initTable. intros p1 _.
  cbn [fst snd]. unfold parse_params.
  cbn [httpMethod body String.eqb Ascii.eqb Bool.eqb text_truthy].
  apply String.eqb_neq in Hs. rewrite Hs. by cbn.
Qed.

Lemma malformed_body_is_rejected_witness :
  always (fun x => x.1 = Ok (respond 400 (error_body "请求体格式错误")))
    (handler (mkEvent "POST" None (Some (NoParse "counterName=home")))
       (mkProcess false false false)).
Proof.
  apply (malformed_body_is_rejected None "counterName=home"
           (mkProcess false false false)).
  vm_compute. discriminate.
Defined.

(** X10. A POST for a valid name whose action, once defaulted, trimmed and
    put in lower case, is neither [increment] nor [reset] is answered 400
    with the error of the action check, whatever the driver answers. This
    is the case of a POST without an action, for which the default [get]
    is not supported, and the query string of a POST is not read. *)
Theorem unsupported_action_is_rejected
    (ev : Event) (p : Process) (n a : string) :
  httpMethod ev = "POST" ->
  target ev = Some n -> invalid_name n = false ->
  requested_action ev = Some a ->
  a ≠ "increment" -> a ≠ "reset" ->
  always (fun x => x.1 = Ok (respond 400
                      (error_body "无效的 action，支持：increment, reset")))
    (handler ev p).
Proof.
  intros Hm Hn Hv Ha Hi Hr. unfold handler. rewrite Hm.
  cbn [String.eqb Ascii.eqb Bool.eqb].
  apply always_try_catch, always_bind, always_initTable. intros p1 _.
  cbn [fst snd]. unfold target, requested_action in *.
  destruct (parse_params ev) as [bad|params]; [done|].
  destruct (counterName_of params) as [n'|]; [|done]. injection Hn as ->.
  destruct (action_of params) as [a'|]; [|done]. injection Ha as ->.
  apply String.eqb_neq in Hi, Hr.
  apply always_lift_bind. cbv iota. apply always_lift_bind. cbv iota.
  by rewrite Hv, Hi, Hr.
Qed.

Lemma unsupported_action_is_rejected_witness :
  always (fun x => x.1 = Ok (respond 400
                      (error_body "无效的 action，支持：increment, reset")))
    (handler (mkEvent "POST" (Some [("action", "increment")]) None) warm).
Proof.
  apply (unsupported_action_is_rejected
           (mkEvent "POST" (Some [("action", "increment")]) None) warm
           "default" "get");
    [reflexivity | reflexivity | reflexivity | reflexivity
    | vm_compute; discriminate | vm_compute; discriminate].
Defined.

(** X11. A request whose verb is none of OPTIONS, GET and POST (the
    comparison is exact, so a lower-case [get] is such a verb), for
    parameters that can be read and a name that passes the check, is
    answered 405, whatever the driver answers. *)
Theorem other_verbs_are_not_allowed
    (ev : Event) (p : Process) (n a : string) :
  String.eqb (httpMethod ev) "OPTIONS" = false ->
  String.eqb (httpMethod ev) "GET" = false ->
  String.eqb (httpMethod ev) "POST" = false ->
  target ev = Some n -> invalid_name n = false ->
  requested_action ev = Some a ->
  always (fun x => x.1 = Ok (respond 405 (error_body "方法不允许")))
    (handler ev p).
Proof.
  intros Ho Hg Hp Hn Hv Ha. unfold handler. rewrite Ho.
  apply always_try_catch, always_bind, always_initTable. intros p1 _.
  cbn [fst snd]. unfold target, requested_action in *.
  destruct (parse_params ev) as [bad|params]; [done|].
  destruct (counterName_of params) as [n'|]; [|done]. injection Hn as ->.
  destruct (action_of params) as [a'|]; [|done]. injection Ha as ->.
  apply always_lift_bind. cbv iota. apply always_lift_bind. cbv iota.
  by rewrite Hv, Hg, Hp.
Qed.

Lemma other_verbs_are_not_allowed_witness :
  always (fun x => x.1 = Ok (respond 405 (error_body "方法不允许")))
    (handler (put_event [("counterName", "home")]) warm).
Proof.
  apply (other_verbs_are_not_allowed (put_event [("counterName", "home")]) warm
           "home" "get"); reflexivity.
Defined.

(** X12. A POST whose JSON body is [null], or is an object whose
    [counterName] or [action] is a truthy value that is not a string, is
    answered 500 and not 400: [.trim()] throws a TypeError, which only the
    handler's outer [catch] handles. *)
Theorem non_string_parameter_is_a_server_error
    (q : option (list (string * string))) (j v : json) (k : string)
    (p : Process) :
  j = JNull
  ∨ ((k = "counterName" ∨ k = "action")
     ∧ get_prop j k = Ok (Some v) ∧ truthy v = true ∧ ∀ s, v ≠ JStr s) ->
  always (answers 500) (handler (mkEvent "POST" q (Some (Parses j))) p).
Proof.
  intros Hj. unfold handler. cbn [httpMethod String.eqb Ascii.eqb Bool.eqb].
  apply always_try_catch, always_bind, always_initTable. intros p1 _.
  cbn [fst snd]. unfold parse_params.
  cbn [httpMethod body String.eqb Ascii.eqb Bool.eqb text_truthy JSON_parse].
  assert ((∃ e, counterName_of j = Throw e)
          ∨ (∃ e, action_of j = Throw e)) as Hthrow.
  { destruct Hj as [->|([->| ->] & Hg & Ht & Hv)].
    - left. by eexists.
    - left. unfold counterName_of. rewrite Hg. unfold or_string. rewrite Ht.
      destruct v; try (by eexists). by destruct (Hv s).
    - right. unfold action_of. rewrite Hg. unfold or_string. rewrite Ht.
      destruct v; try (by eexists). by destruct (Hv s). }
  destruct Hthrow as [[e ->]|[e He]].
  - cbn. by eexists.
  - destruct (counterName_of j) as [n|e']; [|cbn; by eexists].
    rewrite He. cbn. by eexists.
Qed.

Lemma non_string_parameter_is_a_server_error_witness :
  always (answers 500)
    (handler (mkEvent "POST" None (Some (Parses (JObj [("counterName", JNum 7)]))))
       warm).
Proof.
  apply (non_string_parameter_is_a_server_error None
           (JObj [("counterName", JNum 7)]) (JNum 7) "counterName" warm).
  right. split; [left; reflexivity|]. split; [reflexivity|].
  split; [reflexivity|]. intros s. discriminate.
Defined.

Lemma can_increment_ensure_table d name :
  can_increment d name -> can_increment (ensure_table d) name.
Proof.
  unfold can_increment. rewrite ensure_table_rows.
  destruct (rows_of d !! name); [done|apply can_insert_ensure_table].
Qed.

Lemma serve_increment b name p d :
  counterName_of b = Ok name ->
  action_of b = Ok "increment" ->
  invalid_name name = false ->
  ready p d ->
  can_increment d name ->
  serve (post_event b) p d =
  match rows_of d !! name with
  | Some r => (Ok (respond 200 (row_json (bumped (db_now d) r))), warm,
               with_table (<[name := bumped (db_now d) r]> (rows_of d)) d)
  | None => (Ok (respond 200 (row_json (fresh_row d name 1))), warm,
             with_table_seq (<[name := fresh_row d name 1]> (rows_of d)) d)
  end.
Proof.
  intros Hn Ha Hv Hr Hroom.
  rewrite (serve_valid (post_event b) p d b name "increment" Hr eq_refl
             (parse_params_post b) Hn Ha Hv).
  cbn [post_event httpMethod String.eqb Ascii.eqb Bool.eqb].
  destruct Hr as [Hup _]. rewrite run_try_catch.
  rewrite (run_handle_increment name warm (ensure_table d) (rows_of d)
             usable_warm eq_refl)
    by (rewrite ?ensure_table_fault, ?ensure_table_counters; try done;
        by apply can_increment_ensure_table).
  unfold with_table, with_table_seq, fresh_row.
  destruct (rows_of d !! name);
    by rewrite ensure_table_fault, ensure_table_seq, ensure_table_now.
Qed.

(** X13. An increment of a valid name, by a process that can get a
    connection to a store that can be reached, with room left (the count of
    the row below 2147483647 or, when the row is to be created, a value left
    in the sequence of ids that no row has), is answered 200 with the row of
    that name, whose count is one more than before (1 when the row is
    created); only that row changes, and the GET of that name that follows
    returns the same row and changes nothing. *)
Theorem increment_then_get
    (b : json) (q : list (string * string)) (name : string)
    (p : Process) (d : Database) :
  counterName_of b = Ok name ->
  action_of b = Ok "increment" ->
  invalid_name name = false ->
  ready p d ->
  can_increment d name ->
  counterName_of (query_object q) = Ok name ->
  ∃ r d',
    serve (post_event b) p d = (Ok (respond 200 (row_json r)), warm, d')
    ∧ row_count r = count_or_0 d name + 1
    ∧ rows_of d' = <[name := r]> (rows_of d)
    ∧ serve (get_event q) warm d' = (Ok (respond 200 (row_json r)), warm, d').
Proof.
  intros Hn Ha Hv Hr Hroom Hq.
  rewrite (serve_increment b name p d Hn Ha Hv Hr Hroom).
  destruct Hr as [Hup _]. unfold count_or_0.
  destruct (rows_of d !! name) as [r|] eqn:Hrow; cbn [fmap option_fmap option_map default].
  - eexists _, _. split; [reflexivity|]. split; [done|]. split; [done|].
    apply (serve_get_again q name); try done.
    by rewrite rows_of_with_table, lookup_insert_eq.
  - eexists _, _. split; [reflexivity|]. split; [done|]. split; [done|].
    apply (serve_get_again q name); try done.
    by rewrite rows_of_with_table_seq, lookup_insert_eq.
Qed.

Lemma increment_then_get_witness :
  let b := JObj [("action", JStr " Increment "); ("counterName", JStr "home")] in
  let d := mkDb None (Some {[ "home" := mkRow 1 "home" 7 "t0" "t1" ]}) 2 "t2" in
  ∃ r d',
    serve (post_event b) warm d = (Ok (respond 200 (row_json r)), warm, d')
    ∧ row_count r = count_or_0 d "home" + 1
    ∧ rows_of d' = <["home" := r]> (rows_of d)
    ∧ serve (get_event [("counterName", "home")]) warm d'
      = (Ok (respond 200 (row_json r)), warm, d').
Proof.
  apply (increment_then_get
           (JObj [("action", JStr " Increment "); ("counterName", JStr "home")])
           [("counterName", "home")] "home" warm
           (mkDb None (Some {[ "home" := mkRow 1 "home" 7 "t0" "t1" ]}) 2 "t2"));
    [reflexivity | reflexivity | reflexivity
    | split; [reflexivity | split; [right; eexists; reflexivity
                                   | right; reflexivity]]
    | vm_compute; reflexivity | reflexivity].
Defined.

Lemma statements_bind_prog {A B} (m : prog A) (f : A -> prog B) d :
  statements (bind_prog m f) d
  = (statements m d ++ statements (f (run m d).1) (run m d).2)%list.
Proof.
  revert d. induction m as [a|s k IH]; intros d; cbn; [done|].
  destruct (exec_stmt s d) as [r d']. cbn. by rewrite IH.
Qed.

Lemma statements_ensureConnected p d :
  statements (ensureConnected p) d
  = match db_fault d with
    | None => [if connected p && client p then SelectOne else Connect]
    | Some _ => if connected p && client p then [SelectOne; Connect] else [Connect]
    end.
Proof.
  destruct d as [[msg|] t n now], p as [[] [] i]; by simpl.
Qed.

Lemma statements_query q p d :
  statements (try_catch (driver q) (fun err => throw err) p) d = [q].
Proof. cbn. by destruct (exec_stmt q d) as [[rows|e] d']. Qed.

(** X14. [executeQuery] sends its query only on a connection it has just
    checked. With the store in reach, a process that is connected sends
    [SELECT 1] and then the query, a process without a client calls
    [connect()] and then sends the query; both end up connected, with the
    result of the query. With the store out of reach the query is never
    sent: the probe and the connection attempt fail, the error is thrown to
    the caller (that of the store for a process without a client, that of
    the driver, which refuses a second [connect()], for a process that has
    one), and the process is left not connected. A process that has a
    client and is not connected calls [connect()] on that client, which the
    driver refuses: the query is never sent and the process stays as it is,
    whether or not the store can be reached. *)
Theorem queries_wait_for_the_connection (q : Stmt) (p : Process) (d : Database) :
  (db_fault d = None -> client p = connected p ->
     statements (executeQuery q p) d = [if connected p then SelectOne else Connect; q]
     ∧ (run (executeQuery q p) d).1.1 = (exec_stmt q d).1
     ∧ client (run (executeQuery q p) d).1.2 = true
     ∧ connected (run (executeQuery q p) d).1.2 = true)
  ∧ (∀ msg, db_fault d = Some msg ->
       statements (executeQuery q p) d
       = (if connected p && client p then [SelectOne; Connect] else [Connect])
       ∧ (run (executeQuery q p) d).1.1
         = Throw (if client p then client_reused else DatabaseError msg)
       ∧ ((connected p = true -> client p = true) ->
          connected (run (executeQuery q p) d).1.2 = false))
  ∧ (client p = true -> connected p = false ->
       statements (executeQuery q p) d = [Connect]
       ∧ run (executeQuery q p) d = (Throw client_reused, p, d)).
Proof.
  split; [|split].
  - intros Hup Hp.
    assert (usable p) as Hu.
    { unfold usable. rewrite Hp. destruct (connected p); auto. }
    split; [|by rewrite run_executeQuery].
    replace (if connected p then SelectOne else Connect)
      with (if connected p && client p then SelectOne else Connect)
      by (rewrite Hp; by destruct (connected p)).
    unfold executeQuery, mbind, H_bind, bind.
    rewrite statements_bind_prog, statements_ensureConnected, Hup,
      run_ensureConnected by done.
    cbn [fst snd]. fold (try_catch (driver q) (fun err => throw err) (online p)).
    by rewrite statements_query.
  - intros msg Hd.
    assert (∃ p', run (ensureConnected p) d
                  = (Throw (if client p then client_reused else DatabaseError msg),
                     p', d)
                  ∧ ((connected p = true -> client p = true) ->
                     connected p' = false)) as (p' & Hrun & Hp').
    { destruct d as [f t n now]. cbn in Hd. subst f.
      destruct p as [[] [] i]; simpl; eexists; (split; [reflexivity|]);
        simpl; intros Hc; try done. by discriminate Hc. }
    unfold executeQuery, mbind, H_bind, bind.
    rewrite statements_bind_prog, statements_ensureConnected, Hd, Hrun.
    rewrite run_bind_prog, Hrun. cbn [fst snd statements run].
    split; [by rewrite app_nil_r|done].
  - intros Hc Hk. destruct p as [c k i]. cbn in Hc, Hk. subst c k.
    destruct d as [[msg|] t n now]; by simpl.
Qed.

Lemma statements_bind {A B} (m : H A) (f : A -> H B) p d :
  statements ((m ≫= f) p) d
  = (statements (m p) d
     ++ match run (m p) d with
        | (Ok a, p', d') => statements (f a p') d'
        | (Throw _, _, _) => []
        end)%list.
Proof.
  unfold mbind, H_bind, bind. rewrite statements_bind_prog.
  by destruct (run (m p) d) as [[[a|e] p'] d'].
Qed.

Lemma statements_executeQuery q p d :
  db_fault d = None -> usable p ->
  statements (executeQuery q p) d
  = [if connected p && client p then SelectOne else Connect; q].
Proof.
  intros Hup Hu. unfold executeQuery, mbind, H_bind, bind.
  rewrite statements_bind_prog, statements_ensureConnected, Hup,
    run_ensureConnected by done.
  cbn [fst snd]. fold (try_catch (driver q) (fun err => throw err) (online p)).
  by rewrite statements_query.
Qed.

(** X22. The count is an INTEGER column. An increment of a counter whose
    count is 2147483647, by a process that can get a connection to a store
    that can be reached, is refused by the database: the UPDATE fails, the
    upsert is not tried, the answer is 500 with the database's message, and
    the database is as it was. *)
Theorem increment_stops_at_the_limit
    (b : json) (name : string) (p : Process) (d : Database) (r : Row) :
  counterName_of b = Ok name ->
  action_of b = Ok "increment" ->
  invalid_name name = false ->
  ready p d ->
  rows_of d !! name = Some r ->
  row_count r = INT_MAX ->
  serve (post_event b) p d = (Ok (server_error out_of_range), warm, d)
  ∧ statements (handle_increment name warm) d = [SelectOne; UpdateIncrement name].
Proof.
  intros Hn Ha Hv Hr Hrow Hmax.
  assert (∃ t, counters d = Some t ∧ t !! name = Some r) as (t & Ht & Htr).
  { unfold rows_of in Hrow. destruct (counters d) as [t|]; [by exists t|done]. }
  assert (ensure_table d = d) as Hd by (apply ensure_table_id; by rewrite Ht).
  pose proof Hr as (Hup & _).
  destruct (exec_row_stmt d t Hup Ht) as (_ & _ & Hupd & _).
  assert (exec_stmt (UpdateIncrement name) d = (Throw out_of_range, d)) as Hex.
  { rewrite Hupd, Htr. unfold bump. rewrite Hmax. done. }
  split.
  - rewrite (serve_valid (post_event b) p d b name "increment" Hr eq_refl
               (parse_params_post b) Hn Ha Hv).
    cbn [post_event httpMethod String.eqb Ascii.eqb Bool.eqb].
    rewrite Hd, run_try_catch. unfold handle_increment.
    rewrite run_bind, run_executeQuery, Hex by (try done; apply usable_warm).
    done.
  - unfold handle_increment.
    rewrite statements_bind, statements_executeQuery, run_executeQuery, Hex
      by (try done; apply usable_warm).
    done.
Qed.

Lemma increment_stops_at_the_limit_witness :
  let d := mkDb None (Some {[ "home" := mkRow 1 "home" 2147483647 "t0" "t1" ]})
             2 "t2" in
  serve (increment_event "home") warm d = (Ok (server_error out_of_range), warm, d)
  ∧ statements (handle_increment "home" warm) d = [SelectOne; UpdateIncrement "home"].
Proof.
  apply (increment_stops_at_the_limit
           (JObj [("action", JStr "increment"); ("counterName", JStr "home")])
           "home" warm
           (mkDb None (Some {[ "home" := mkRow 1 "home" 2147483647 "t0" "t1" ]})
              2 "t2")
           (mkRow 1 "home" 2147483647 "t0" "t1"));
    [reflexivity | reflexivity | reflexivity
    | split; [reflexivity | split; [right; eexists; reflexivity
                                   | right; reflexivity]]
    | reflexivity | reflexivity].
Defined.

Lemma run_executeQuery_stuck q p d :
  client p = true -> connected p = false ->
  run (executeQuery q p) d = (Throw client_reused, p, d).
Proof.
  intros Hc Hk. destruct p as [c k i]. cbn in Hc, Hk. subst c k.
  destruct d as [[msg|] t n now]; by simpl.
Qed.

Lemma run_initTable_stuck p d :
  client p = true -> connected p = false ->
  run (initTable p) d = (Ok tt, set_table_init true p, d).
Proof.
  intros Hc Hk. unfold initTable. rewrite run_bind, run_get_process.
  destruct (TABLE_INIT_CACHE p) eqn:Hi.
  - rewrite run_ret. destruct p as [c k i]. cbn in Hi. by subst i.
  - by rewrite run_try_catch, run_bind, run_executeQuery_stuck, run_modify.
Qed.

(** X23. A connection that was lost is not made again. A process that has
    a client and is not connected (its [connect()] failed, or its probe
    did) calls [connect()] on that same client, which the driver refuses:
    every request that needs the database (a GET, or a POST with action
    [increment] or [reset], for a name that passes the check) is answered
    500 with the driver's message, whether or not the store can be reached;
    the database is as it was, and the process is left in the same state, so
    that the next request fares the same. *)
Theorem lost_connection_is_not_restored
    (ev : Event) (p : Process) (d : Database) (n a : string) :
  client p = true -> connected p = false ->
  target ev = Some n -> invalid_name n = false ->
  requested_action ev = Some a ->
  String.eqb (httpMethod ev) "GET" = true
  ∨ (String.eqb (httpMethod ev) "POST" = true ∧ (a = "increment" ∨ a = "reset")) ->
  serve ev p d = (Ok (server_error client_reused), set_table_init true p, d)
  ∧ client (set_table_init true p) = true
  ∧ connected (set_table_init true p) = false.
Proof.
  intros Hc Hk Hn Hv Ha Hm.
  assert (String.eqb (httpMethod ev) "OPTIONS" = false) as Ho.
  { destruct Hm as [Hm|[Hm _]]; apply String.eqb_eq in Hm; by rewrite Hm. }
  unfold target, requested_action in *.
  destruct (parse_params ev) as [bad|params] eqn:Hp; [done|].
  destruct (counterName_of params) as [n'|] eqn:Hn'; [|done]. injection Hn as ->.
  destruct (action_of params) as [a'|] eqn:Ha'; [|done]. injection Ha as ->.
  split; [|done].
  unfold serve, handler. rewrite Ho, Hp, Hn', Ha'.
  rewrite run_try_catch, run_bind, run_initTable_stuck by done.
  rewrite run_bind, run_lift. cbv beta iota.
  rewrite run_bind, run_lift. cbv beta iota. rewrite Hv. cbv iota.
  assert (∀ q (f : list Row -> H Response),
            run ((executeQuery q ≫= f) (set_table_init true p)) d
            = (Throw client_reused, set_table_init true p, d)) as Hq.
  { intros q f. by rewrite run_bind, run_executeQuery_stuck. }
  destruct Hm as [->|[-> Hact]].
  - unfold handle_get. by rewrite Hq, run_ret.
  - destruct (String.eqb (httpMethod ev) "GET").
    + unfold handle_get. by rewrite Hq, run_ret.
    + destruct Hact as [->| ->]; cbn [String.eqb Ascii.eqb Bool.eqb];
        unfold handle_increment, handle_reset; by rewrite Hq, run_ret.
Qed.

Lemma lost_connection_is_not_restored_witness :
  let down := mkDb (Some "connection refused")
                (Some {[ "home" := mkRow 1 "home" 7 "t0" "t1" ]}) 2 "t2" in
  let up := mkDb None (Some {[ "home" := mkRow 1 "home" 7 "t0" "t1" ]}) 2 "t2" in
  let ev := get_event [("counterName", "home")] in
  let p := (serve ev (mkProcess false false false) down).1.2 in
  serve ev p up = (Ok (server_error client_reused), set_table_init true p, up)
  ∧ client (set_table_init true p) = true
  ∧ connected (set_table_init true p) = false.
Proof.
  apply (lost_connection_is_not_restored
           (get_event [("counterName", "home")])
           (serve (get_event [("counterName", "home")]) (mkProcess false false false)
              (mkDb (Some "connection refused")
                 (Some {[ "home" := mkRow 1 "home" 7 "t0" "t1" ]}) 2 "t2")).1.2
           (mkDb None (Some {[ "home" := mkRow 1 "home" 7 "t0" "t1" ]}) 2 "t2")
           "home" "get");
    [reflexivity | reflexivity | reflexivity | reflexivity | reflexivity
    | left; reflexivity].
Defined.

End RequestFacts.

(* ================================================================== *)
(** * More on the widget *)
(* ================================================================== *)

Module TabFacts.
Import Server Widget EndToEnd ServerFacts WidgetFacts.

Section Tab.
Context {Srv : Type} (net : Request -> Srv -> Reply * Z * Srv)
        (text_number : json -> option Z).

Abbreviation CacheManager_get := (CacheManager_get Srv text_number).
Abbreviation CacheManager_set := (CacheManager_set Srv).
Abbreviation CacheManager_clear := (CacheManager_clear Srv).
Abbreviation fetchCounter := (fetchCounter Srv net text_number).
Abbreviation updateCounter := (updateCounter Srv net).
Abbreviation SessionManager_hasVisited := (SessionManager_hasVisited Srv).
Abbreviation SessionManager_markVisited := (SessionManager_markVisited Srv).
Abbreviation initCounter := (initCounter Srv net text_number).
Abbreviation NetlifyCounter_refresh := (NetlifyCounter_refresh Srv net text_number).

Lemma assoc_set_ne {A} k k' (v : A) l :
  k' ≠ k -> assoc k' (assoc_set k v l) = assoc k' l.
Proof.
  intros Hne. induction l as [|[k0 v0] l IH]; cbn.
  - by rewrite (proj2 (String.eqb_neq k' k) Hne).
  - destruct (String.eqb_spec k k0) as [->|Hk]; cbn.
    + by rewrite (proj2 (String.eqb_neq k' k0) Hne).
    + by rewrite IH.
Qed.

(** [hasVisited] reads the session storage and nothing else, and changes
    nothing. *)
Lemma hasVisited_reads name (w : World Srv) :
  SessionManager_hasVisited name w
  = (match getItem SESSION_KEY (sessionStorage (browser w)) with
     | Ok session =>
         match visited_object session with
         | Ok visited => is_marked visited name
         | Throw e => Throw e
         end
     | Throw e => Throw e
     end, w).
Proof.
  unfold Widget.SessionManager_hasVisited, mbind, C_bind, cbind, session_getItem,
    lift_result.
  destruct (getItem SESSION_KEY (sessionStorage (browser w))) as [session|e]; [|done].
  by destruct (visited_object session).
Qed.

(** X15. The session flags are kept per counter name. On a session storage
    that can be used and holds nothing yet or an object, [markVisited] of a
    name other than [__proto__] returns, after which [hasVisited] of that
    name is [true], [hasVisited] of every other name is what it was, and the
    storage can be used again in the same way. While the storage holds
    nothing, [hasVisited] is [false] for every name. *)
Theorem visits_are_flagged_per_name (a : string) (w : World Srv) :
  session_sound (sessionStorage (browser w)) ->
  a ≠ "__proto__" ->
  ∃ w',
    SessionManager_markVisited a w = (Ok tt, w')
    ∧ SessionManager_hasVisited a w' = (Ok true, w')
    ∧ (∀ b, b ≠ a ->
         (SessionManager_hasVisited b w').1 = (SessionManager_hasVisited b w).1)
    ∧ session_sound (sessionStorage (browser w'))
    ∧ (items (sessionStorage (browser w)) !! SESSION_KEY = None ->
       ∀ b, SessionManager_hasVisited b w = (Ok false, w)).
Proof.
  intros (Hden & Hfull & Hit) Ha.
  assert (∃ fields,
            visited_object (items (sessionStorage (browser w)) !! SESSION_KEY)
            = Ok (JObj fields)
            ∧ (items (sessionStorage (browser w)) !! SESSION_KEY = None ->
               fields = [])) as (fields & Hobj & Hnone).
  { destruct Hit as [Hit|[fields Hit]]; rewrite Hit; by eexists. }
  apply String.eqb_neq in Ha.
  unfold Widget.SessionManager_markVisited, mbind, C_bind, cbind, session_getItem,
    session_setItem, setItem, lift_result.
  unfold getItem at 1. rewrite Hden, Hobj. cbn [mark]. rewrite Ha. cbn [andb].
  rewrite Hfull. eexists. split; [reflexivity|].
  rewrite hasVisited_reads.
  assert (∀ b, (SessionManager_hasVisited b w).1 = is_marked (JObj fields) b) as Hold.
  { intros b. rewrite hasVisited_reads. unfold getItem. by rewrite Hden, Hobj. }
  cbn [browser set_session sessionStorage fst].
  unfold getItem. cbn [denied items]. rewrite lookup_insert_eq.
  cbn [visited_object JSON_stringify text_truthy JSON_parse is_marked].
  rewrite assoc_set_eq.
  split; [done|]. split.
  { intros b Hb. rewrite Hold, hasVisited_reads.
    cbn [browser set_session sessionStorage fst].
    unfold getItem. cbn [denied items]. rewrite lookup_insert_eq.
    cbn [visited_object JSON_stringify text_truthy JSON_parse is_marked].
    by rewrite assoc_set_ne. }
  split.
  { split; [done|]. split; [done|]. right. cbn. rewrite lookup_insert_eq.
    by eexists. }
  intros Hempty b. rewrite hasVisited_reads. unfold getItem.
  rewrite Hden, Hobj, (Hnone Hempty). done.
Qed.


Lemma set_stores key data (w : World Srv) :
  denied (localStorage (browser w)) = false ->
  full (localStorage (browser w)) = false ->
  CacheManager_set key data w
  = (Ok tt,
     mkWorld (set_local
                (mkStorage
                   (<[cache_key key :=
                        JSON_stringify_props
                          [("data", data);
                           ("timestamp", Some (JNum (clock (browser w))))]]>
                      (items (localStorage (browser w)))) false false)
                (browser w))
             (server w)).
Proof.
  intros Hden Hfull.
  unfold Widget.CacheManager_set, ctry, mbind, C_bind, cbind, Date_now,
    local_setItem, setItem.
  by rewrite Hden, Hfull.
Qed.

(** X16. What [CacheManager.set] stores, [CacheManager.get] returns: with
    [localStorage] usable and not full, the value set under a key is
    returned by every [get] of that key made up to 5 minutes later,
    whatever the value (also a falsy one, or [undefined]); later than that
    [get] returns [null] and removes the entry. Neither [set] nor [clear]
    of a key touches the entry of another key, and after [clear] a [get]
    of the key returns [null]. *)
Theorem cache_round_trip
    (key : string) (data : jsval) (w : World Srv) (dt : Z) (srv : Srv) :
  denied (localStorage (browser w)) = false ->
  full (localStorage (browser w)) = false ->
  ∃ w1,
    CacheManager_set key data w = (Ok tt, w1)
    ∧ (dt ≤ CACHE_DURATION ->
       CacheManager_get key (later dt srv w1) = (Ok data, later dt srv w1))
    ∧ (CACHE_DURATION < dt ->
       CacheManager_get key (later dt srv w1)
       = (Ok (Some JNull), purged key (later dt srv w1)))
    ∧ (∀ other, other ≠ key ->
         cached other w1 = cached other w
         ∧ cached other (CacheManager_clear key w1).2 = cached other w)
    ∧ CacheManager_get key (CacheManager_clear key w1).2
      = (Ok (Some JNull), (CacheManager_clear key w1).2).
Proof.
  intros Hden Hfull. rewrite (set_stores key data w Hden Hfull).
  eexists. split; [reflexivity|].
  assert (∀ P : Prop, P -> P) as _ by done.
  split; [|split; [|split]].
  - intros Hdt.
    unfold Widget.CacheManager_get, ctry, mbind, C_bind, cbind, local_getItem,
      getItem, later, lift_result, Date_now.
    cbn [browser server advance set_local localStorage denied items clock].
    rewrite lookup_insert_eq.
    assert ((CACHE_DURATION <? clock (browser w) + dt - clock (browser w)) = false)
      as Hexp by (apply Z.ltb_ge; lia).
    destruct data as [d|]; cbn -[Z.ltb CACHE_DURATION Z.add Z.sub];
      unfold isExpired; cbn -[Z.ltb CACHE_DURATION Z.add Z.sub];
      by rewrite Hexp.
  - intros Hdt.
    unfold Widget.CacheManager_get, ctry, mbind, C_bind, cbind, local_getItem,
      getItem, later, lift_result, Date_now.
    cbn [browser server advance set_local localStorage denied items clock].
    rewrite lookup_insert_eq.
    assert ((CACHE_DURATION <? clock (browser w) + dt - clock (browser w)) = true)
      as Hexp by (apply Z.ltb_lt; lia).
    destruct data as [d|]; cbn -[Z.ltb CACHE_DURATION Z.add Z.sub];
      unfold isExpired; cbn -[Z.ltb CACHE_DURATION Z.add Z.sub];
      by rewrite Hexp.
  - intros other Hother.
    assert (cache_key other ≠ cache_key key) as Hk
      by (intros Hk; by apply cache_key_inj in Hk).
    unfold cached, Widget.CacheManager_clear, local_removeItem, removeItem.
    cbn [browser server set_local localStorage denied items snd].
    split; [by rewrite lookup_insert_ne|].
    cbn. by rewrite lookup_delete_ne, lookup_insert_ne.
  - unfold Widget.CacheManager_clear, local_removeItem, removeItem.
    cbn [browser server set_local localStorage denied items snd].
    apply get_absent. unfold cached. cbn. apply lookup_delete_eq.
Qed.

(** X17. [NetlifyCounter.refresh] goes to the service whatever the cache
    holds: with [localStorage] readable it sends exactly one GET for the
    name, also when a fresh entry is cached, and returns the JSON body of
    the reply, [null] when there is none. When [localStorage] cannot be
    used it throws, [CacheManager.clear] having no handler, and nothing is
    sent. *)
Theorem refresh_bypasses_the_cache
    (name : string) (w : World Srv) (reply : Reply) (elapsed : Z) (srv : Srv) :
  net (get_request name) (server w) = (reply, elapsed, srv) ->
  (denied (localStorage (browser w)) = false ->
     ∃ w', NetlifyCounter_refresh name w = (Ok (default JNull (reply_json reply)), w')
           ∧ sent (browser w') = (sent (browser w) ++ [get_request name])%list
           ∧ server w' = srv)
  ∧ (denied (localStorage (browser w)) = true ->
     NetlifyCounter_refresh name w = (Throw access_denied, w)).
Proof.
  intros Hnet. split; intros Hden.
  - unfold Widget.NetlifyCounter_refresh, mbind, C_bind, cbind,
      Widget.CacheManager_clear, local_removeItem.
    assert (removeItem (cache_key name) (localStorage (browser w))
            = (Ok tt, (removeItem (cache_key name) (localStorage (browser w))).2))
      as Hrm by (unfold removeItem; by rewrite Hden).
    rewrite Hrm. fold (purged name w).
    destruct (purged_frame name w) as (Hsrv & Hsent & _).
    rewrite (fetchCounter_miss net text_number name (Some JNull) (purged name w)
               (purged name w) reply elapsed srv).
    + destruct (reply_json reply) as [d|]; cbn [default].
      * destruct (set_ok name (Some d)
                    (answered (get_request name) elapsed srv (purged name w)))
          as (w' & Hset & Hs & Hst & _).
        rewrite Hset. exists w'. split; [done|]. split; [|done].
        cbn [snd]. rewrite Hst. cbn [answered browser after_request sent].
        by rewrite Hsent.
      * eexists. split; [done|]. split; [|done].
        cbn [answered browser after_request sent]. by rewrite Hsent.
    + apply get_absent. by apply purged_cached.
    + done.
    + by rewrite Hsrv.
  - unfold Widget.NetlifyCounter_refresh, mbind, C_bind, cbind,
      Widget.CacheManager_clear, local_removeItem, removeItem.
    rewrite Hden. by rewrite set_local_same, world_eta.
Qed.


(** [fetchCounter] returns; of the tab it changes the cache and, when it
    asks the service, the clock and the list of requests. *)
Lemma fetchCounter_frame name (w : World Srv) :
  ∃ j w', fetchCounter name w = (Ok j, w')
          ∧ dom (browser w') = dom (browser w)
          ∧ timers (browser w') = timers (browser w)
          ∧ sessionStorage (browser w') = sessionStorage (browser w)
          ∧ (sent (browser w') = sent (browser w)
             ∨ sent (browser w') = (sent (browser w) ++ [get_request name])%list).
Proof.
  assert (∀ w0 : World Srv, timers (browser (purged name w0)) = timers (browser w0))
    as Htimers.
  { intros w0. unfold purged, removeItem.
    by destruct (denied (localStorage (browser w0))). }
  assert (∀ data (w0 : World Srv),
            dom (browser (CacheManager_set name data w0).2) = dom (browser w0)
            ∧ timers (browser (CacheManager_set name data w0).2)
              = timers (browser w0)) as Hset.
  { intros data w0.
    unfold Widget.CacheManager_set, ctry, mbind, C_bind, cbind, Date_now,
      local_setItem, setItem.
    destruct (denied (localStorage (browser w0))); [done|].
    by destruct (full (localStorage (browser w0))). }
  assert (∃ v w0, CacheManager_get name w = (Ok v, w0)
                  ∧ timers (browser w0) = timers (browser w))
    as (v & w0 & Hget & Ht0).
  { destruct (get_frame text_number name w) as [[v Hv]|Hv]; rewrite Hv;
      eexists _, _; (split; [reflexivity|]); first [reflexivity|apply Htimers]. }
  destruct (get_world text_number name v w w0 Hget)
    as (Hsrv & Hsent & _ & _ & _ & Hsess & Hdom).
  destruct (truthy_val v) eqn:Hv.
  - destruct v as [d|]; [|done].
    rewrite (fetchCounter_hit net text_number name d w w0 Hget Hv).
    eexists _, _. split; [done|]. split; [done|]. split; [done|].
    split; [done|]. by left.
  - destruct (net (get_request name) (server w0)) as [[reply elapsed] srv] eqn:Hnet.
    rewrite (fetchCounter_miss net text_number name v w w0 _ _ _ Hget Hv Hnet).
    destruct (reply_json reply) as [d|].
    + destruct (set_ok name (Some d) (answered (get_request name) elapsed srv w0))
        as (w' & Hw' & _ & Hsent' & _ & Hsess' & _).
      destruct (Hset (Some d) (answered (get_request name) elapsed srv w0))
        as [Hd Ht].
      eexists _, _. split; [reflexivity|]. rewrite Hd, Ht. rewrite Hw'. cbn [snd].
      rewrite Hsess', Hsent'. cbn [answered browser after_request dom timers
        sessionStorage sent].
      rewrite Hdom, Ht0, Hsess, Hsent. split; [done|]. split; [done|].
      split; [done|]. by right.
    + eexists _, _. split; [reflexivity|].
      cbn [answered browser after_request dom timers sessionStorage sent].
      rewrite Hdom, Ht0, Hsess, Hsent. split; [done|]. split; [done|].
      split; [done|]. by right.
Qed.

(** X18. [initCounter] without the container element does nothing at all.
    With it, the call returns with the container showing the fallback text
    or a count, never the loading text; it sends at most one request, the
    GET for the name, and no POST; it leaves the session storage alone; and
    it sets at most one timer, due 1000 ms later, which it does exactly when
    it shows a count and the session flag of the name reads [false]. With a
    session storage that [hasVisited] cannot read, the fallback text is
    shown even when a count was fetched. *)
Theorem initCounter_outcomes (name : string) (w : World Srv) :
  (has_container (dom (browser w)) = false -> initCounter name w = (Ok tt, w))
  ∧ (has_container (dom (browser w)) = true ->
     ∃ w', initCounter name w = (Ok tt, w')
       ∧ has_container (dom (browser w')) = true
       ∧ (view (dom (browser w')) = Fallback
          ∨ ∃ c, view (dom (browser w')) = Counted c)
       ∧ sessionStorage (browser w') = sessionStorage (browser w)
       ∧ (sent (browser w') = sent (browser w)
          ∨ sent (browser w') = (sent (browser w) ++ [get_request name])%list)
       ∧ (timers (browser w') = timers (browser w)
          ∨ timers (browser w')
            = (timers (browser w) ++ [(clock (browser w') + 1000, name)])%list)
       ∧ (timers (browser w') ≠ timers (browser w)
          ↔ (∃ c, view (dom (browser w')) = Counted c)
            ∧ (SessionManager_hasVisited name w).1 = Ok false)
       ∧ (session_broken (sessionStorage (browser w)) ->
          view (dom (browser w')) = Fallback)).
Proof.
  split; intros Hcont.
  { unfold Widget.initCounter, mbind, C_bind, cbind, get_browser. by rewrite Hcont. }
  unfold Widget.initCounter, mbind, C_bind, cbind, get_browser. rewrite Hcont.
  cbn [negb]. unfold update_browser at 1. unfold ctry.
  set (w0 := mkWorld (set_view Loading (browser w)) (server w)).
  destruct (fetchCounter_frame name w0) as (j & w1 & -> & Hdom & Htimers & Hsess & Hsent).
  change (dom (browser w0)) with (mkDom (has_container (dom (browser w))) Loading) in Hdom.
  change (timers (browser w0)) with (timers (browser w)) in Htimers.
  change (sessionStorage (browser w0)) with (sessionStorage (browser w)) in Hsess.
  change (sent (browser w0)) with (sent (browser w)) in Hsent.
  assert (∀ r, (SessionManager_hasVisited name w).1 = r ->
            (∃ e, r = Throw e) -> session_broken (sessionStorage (browser w)))
    as Hbroken_if.
  { intros r <- He. by apply (hasVisited_throws name w). }
  assert (session_broken (sessionStorage (browser w)) ->
          ∃ e, (SessionManager_hasVisited name w).1 = Throw e) as Hbroken
    by apply (hasVisited_throws name w).
  destruct (truthy j) eqn:Hj; cbn [negb].
  2:{ unfold update_browser. eexists. split; [reflexivity|].
      cbn [browser set_view set_dom dom has_container view sessionStorage sent
        timers]. rewrite Hdom, Hsess, Htimers. cbn [has_container].
      split; [done|]. split; [by left|]. split; [done|]. split; [done|].
      split; [by left|]. split; [|done].
      split; [done|]. by intros [[c Hc] _]. }
  assert (∃ c, get_prop j "count" = Ok c) as [c Hc].
  { destruct j; cbn; eauto. done. }
  unfold lift_result. rewrite Hc. unfold update_browser at 1.
  set (w2 := mkWorld (set_view (Counted c) (browser w1)) (server w1)).
  rewrite (hasVisited_reads name w2).
  assert ((SessionManager_hasVisited name w).1
          = match getItem SESSION_KEY (sessionStorage (browser w2)) with
            | Ok session =>
                match visited_object session with
                | Ok visited => is_marked visited name
                | Throw e => Throw e
                end
            | Throw e => Throw e
            end) as Hvis.
  { rewrite (hasVisited_reads name w). cbn [fst].
    change (sessionStorage (browser w2)) with (sessionStorage (browser w1)).
    by rewrite Hsess. }
  rewrite <- Hvis.
  destruct ((SessionManager_hasVisited name w).1) as [[]|e] eqn:Hv; cbn [negb].
  - eexists. split; [reflexivity|].
    cbn [w2 browser set_view set_dom dom has_container view sessionStorage sent
      timers]. rewrite Hdom, Hsess, Htimers. cbn [has_container].
    split; [done|]. split; [right; by eexists|]. split; [done|]. split; [done|].
    split; [by left|]. split.
    + split; [done|]. by intros [_ ?].
    + intros Hb. destruct (Hbroken Hb) as [e He]. congruence.
  - unfold update_browser. eexists. split; [reflexivity|].
    cbn [w2 browser set_view set_dom dom has_container view sessionStorage sent
      timers add_timer clock]. rewrite Hdom, Hsess, Htimers. cbn [has_container].
    split; [done|]. split; [right; by eexists|]. split; [done|]. split; [done|].
    split; [by right|]. split.
    + split; [intros _; split; [by eexists|done]|]. intros _. apply snoc_ne.
    + intros Hb. destruct (Hbroken Hb) as [e He]. congruence.
  - unfold update_browser. eexists. split; [reflexivity|].
    cbn [w2 browser set_view set_dom dom has_container view sessionStorage sent
      timers]. rewrite Hdom, Hsess, Htimers. cbn [has_container].
    split; [done|]. split; [by left|]. split; [done|]. split; [done|].
    split; [by left|]. split; [|done].
    split; [done|]. by intros [[c' Hc'] _].
Qed.

End Tab.

Lemma visits_are_flagged_per_name_witness :
  let w := mkWorld (tab 1000) tt in
  ∃ w',
    SessionManager_markVisited unit "page_home" w = (Ok tt, w')
    ∧ SessionManager_hasVisited unit "page_home" w' = (Ok true, w')
    ∧ (∀ b, b ≠ "page_home" ->
         (SessionManager_hasVisited unit b w').1
         = (SessionManager_hasVisited unit b w).1)
    ∧ session_sound (sessionStorage (browser w'))
    ∧ (items (sessionStorage (browser w)) !! SESSION_KEY = None ->
       ∀ b, SessionManager_hasVisited unit b w = (Ok false, w)).
Proof.
  apply (visits_are_flagged_per_name "page_home" (mkWorld (tab 1000) tt)).
  - split; [reflexivity|]. split; [reflexivity|]. left. reflexivity.
  - discriminate.
Defined.

Lemma cache_round_trip_witness :
  let w := mkWorld (tab 1000) tt in
  ∃ w1,
    CacheManager_set unit "page_home" (Some (snapshot "page_home" 7)) w = (Ok tt, w1)
    ∧ (60000 ≤ CACHE_DURATION ->
       CacheManager_get unit no_text_number "page_home" (later 60000 tt w1)
       = (Ok (Some (snapshot "page_home" 7)), later 60000 tt w1))
    ∧ (CACHE_DURATION < 60000 ->
       CacheManager_get unit no_text_number "page_home" (later 60000 tt w1)
       = (Ok (Some JNull), purged "page_home" (later 60000 tt w1)))
    ∧ (∀ other, other ≠ "page_home" ->
         cached other w1 = cached other w
         ∧ cached other (CacheManager_clear unit "page_home" w1).2 = cached other w)
    ∧ CacheManager_get unit no_text_number "page_home"
        (CacheManager_clear unit "page_home" w1).2
      = (Ok (Some JNull), (CacheManager_clear unit "page_home" w1).2).
Proof.
  apply (cache_round_trip no_text_number "page_home"
           (Some (snapshot "page_home" 7)) (mkWorld (tab 1000) tt) 60000 tt);
    reflexivity.
Defined.

Lemma refresh_bypasses_the_cache_witness :
  let w := mkWorld (tab_caching "page_home" (snapshot "page_home" 7) 1000 2000)
             (warm, mkDb None (Some {[ "page_home" := mkRow 1 "page_home" 9 "t0" "t1" ]})
                      2 "t2") in
  let x := via_handler 20 (get_request "page_home") (server w) in
  (denied (localStorage (browser w)) = false ->
     ∃ w', NetlifyCounter_refresh Service (via_handler 20) no_text_number
             "page_home" w
           = (Ok (default JNull (reply_json x.1.1)), w')
           ∧ sent (browser w')
             = (sent (browser w) ++ [get_request "page_home"])%list
           ∧ server w' = x.2)
  ∧ (denied (localStorage (browser w)) = true ->
     NetlifyCounter_refresh Service (via_handler 20) no_text_number "page_home" w
     = (Throw access_denied, w)).
Proof.
  pose (w := mkWorld (tab_caching "page_home" (snapshot "page_home" 7) 1000 2000)
             (warm, mkDb None (Some {[ "page_home" := mkRow 1 "page_home" 9 "t0" "t1" ]})
                      2 "t2")).
  pose (x := via_handler 20 (get_request "page_home") (server w)).
  apply (refresh_bypasses_the_cache (via_handler 20) no_text_number "page_home" w
           x.1.1 x.1.2 x.2).
  reflexivity.
Defined.

End TabFacts.

Module PageFacts.
Import Widget.

Lemma dashes_length s : String.length (dashes s) = String.length s.
Proof. induction s as [|c s IH]; cbn; [done|]. by rewrite IH. Qed.

Lemma dashes_no_slash s i : String.get i (dashes s) ≠ Some "/"%char.
Proof.
  revert i. induction s as [|c s IH]; intros i; cbn; [done|].
  destruct i as [|i]; [|apply IH].
  destruct (Ascii.eqb_spec c "/"%char) as [->|Hc]; [done|]. congruence.
Qed.

Lemma dashes_empty s : dashes s = "" -> s = "".
Proof. by destruct s. Qed.

(** X19. The counter of a page is [page_] followed by a page name that is
    never empty: the [page] parameter of the script when it is there and
    not empty; otherwise the path with every slash turned into a dash,
    which has the length of the path and no slash left; and [home] only for
    an empty path. The root path [/] is therefore counted under [page_-],
    not under [page_home]. *)
Theorem counter_name_of_a_page (page : option string) (pathname : string) :
  pageName page pathname ≠ ""
  ∧ counterName page pathname = "page_" ++ pageName page pathname
  ∧ (default "" page ≠ "" -> pageName page pathname = default "" page)
  ∧ (default "" page = "" -> pathname ≠ "" ->
     pageName page pathname = dashes pathname
     ∧ String.length (dashes pathname) = String.length pathname
     ∧ ∀ i, String.get i (pageName page pathname) ≠ Some "/"%char)
  ∧ (default "" page = "" -> pathname = "" -> pageName page pathname = "home")
  ∧ ∀ rest, pageName None (String "/" rest) = String "-" (dashes rest).
Proof.
  unfold counterName, pageName, or_else.
  split; [|split; [done|split; [|split; [|split]]]].
  - destruct (default "" page) as [|c s]; [|done].
    destruct (dashes pathname) as [|c s]; done.
  - intros Hp. by destruct (default "" page) as [|c s].
  - intros -> Hpath. cbn [String.eqb].
    destruct pathname as [|c s]; [done|]. cbn [dashes String.eqb].
    split; [done|]. split; [apply (dashes_length (String c s))|].
    apply (dashes_no_slash (String c s)).
  - by intros -> ->.
  - done.
Qed.

End PageFacts.

Module WireFacts.
Import Server Widget EndToEnd ServerFacts RequestFacts.

(** X20. The requests the widget sends are read by the handler as meant:
    the GET of [fetchCounter] and the POST of [updateCounter] name the
    counter [trim name] (the counter [default] for an empty name), and the
    POST carries the action in lower case and trimmed ([get] for an empty
    action). *)
Theorem widget_requests_are_understood (name action : string) :
  let name' := if String.eqb name "" then "default" else trim name in
  let action' := if String.eqb action "" then "get" else toLowerCase (trim action) in
  httpMethod (event_of (get_request name)) = "GET"
  ∧ target (event_of (get_request name)) = Some name'
  ∧ requested_action (event_of (get_request name)) = Some "get"
  ∧ httpMethod (event_of (post_request action name)) = "POST"
  ∧ target (event_of (post_request action name)) = Some name'
  ∧ requested_action (event_of (post_request action name)) = Some action'.
Proof.
  unfold target, requested_action, event_of, get_request, post_request,
    parse_params, counterName_of, action_of, or_string.
  destruct name as [|c n], action as [|c' a]; cbn -[trim toLowerCase]; done.
Qed.

(** X21. End to end, an increment sent by the widget for a name that is
    not empty and whose trimmed form passes the check, to a function whose
    process can get a connection to a store that can be reached, with room
    left for the increment (the count of the row below 2147483647 or, when
    the row is to be created, a value left in the sequence of ids that no
    row has), is answered 200 with the row of the trimmed name, its count
    one more than before; the GET the widget sends for the same name
    afterwards is answered with that row. *)
Theorem widget_increment_is_counted
    (latency : Z) (name : string) (p : Process) (d : Database) :
  name ≠ "" ->
  invalid_name (trim name) = false ->
  ready p d ->
  can_increment d (trim name) ->
  ∃ r d',
    via_handler latency (post_request "increment" name) (p, d)
    = (NetReply 200 (Some (JSON_stringify (row_json r))), latency, (warm, d'))
    ∧ row_count r = count_or_0 d (trim name) + 1
    ∧ rows_of d' = <[trim name := r]> (rows_of d)
    ∧ via_handler latency (get_request name) (warm, d')
      = (NetReply 200 (Some (JSON_stringify (row_json r))), latency, (warm, d')).
Proof.
  intros Hname Hv Hr Hroom.
  set (b := JObj [("action", JStr "increment"); ("counterName", JStr name)]).
  assert (counterName_of b = Ok (trim name)) as Hn.
  { destruct name as [|c n]; [done|]. unfold counterName_of. by cbn -[trim]. }
  assert (counterName_of (query_object [("counterName", name)]) = Ok (trim name))
    as Hq.
  { destruct name as [|c n]; [done|]. unfold counterName_of. by cbn -[trim]. }
  unfold via_handler. cbn [fst snd].
  assert (serve (event_of (post_request "increment" name)) p d
          = serve (post_event b) p d) as ->.
  { unfold serve.
    by rewrite (handler_reads (event_of (post_request "increment" name))
                  (post_event b) b b eq_refl eq_refl eq_refl eq_refl eq_refl). }
  change (event_of (get_request name)) with (get_event [("counterName", name)]).
  cbn [fst snd].
  rewrite (serve_increment b (trim name) p d Hn eq_refl Hv Hr Hroom).
  destruct Hr as [Hup _]. unfold count_or_0.
  destruct (rows_of d !! trim name) as [r|] eqn:Hrow;
    cbn [fmap option_fmap option_map default].
  - eexists _, _. split; [reflexivity|]. split; [done|]. split; [done|].
    rewrite (serve_get_again [("counterName", name)] (trim name)
               (bumped (db_now d) r)); try done.
    by rewrite rows_of_with_table, lookup_insert_eq.
  - eexists _, _. split; [reflexivity|]. split; [done|]. split; [done|].
    rewrite (serve_get_again [("counterName", name)] (trim name)
               (fresh_row d (trim name) 1)); try done.
    by rewrite rows_of_with_table_seq, lookup_insert_eq.
Qed.

Lemma widget_increment_is_counted_witness :
  let d := mkDb None (Some {[ "page_home" := mkRow 1 "page_home" 7 "t0" "t1" ]})
             2 "t2" in
  ∃ r d',
    via_handler 20 (post_request "increment" " page_home ") (warm, d)
    = (NetReply 200 (Some (JSON_stringify (row_json r))), 20, (warm, d'))
    ∧ row_count r = count_or_0 d (trim " page_home ") + 1
    ∧ rows_of d' = <[trim " page_home " := r]> (rows_of d)
    ∧ via_handler 20 (get_request " page_home ") (warm, d')
      = (NetReply 200 (Some (JSON_stringify (row_json r))), 20, (warm, d')).
Proof.
  apply (widget_increment_is_counted 20 " page_home " warm
           (mkDb None (Some {[ "page_home" := mkRow 1 "page_home" 7 "t0" "t1" ]})
              2 "t2"));
    [vm_compute; discriminate | reflexivity
    | split; [reflexivity | split; [right; eexists; reflexivity
                                   | right; reflexivity]]
    | vm_compute; reflexivity].
Defined.

End WireFacts.
